(** * A value codec for text-oriented key-value stores

    Shallow embedding of the storage library's classifier ([validation.ts]),
    error taxonomy ([errors.ts]) and codec ([core/serializer.ts]), together
    with a model of the parts of the JavaScript platform they call:
    strings, numbers, [JSON.stringify]/[JSON.parse], [btoa]/[atob], [Date],
    [RegExp], [Blob]/[File] and array buffers.

    Layout: the platform model, then the three source modules, then the
    lemmas about the platform, then the properties of the codec. *)

From Stdlib Require Import String Ascii List NArith ZArith Bool Lia.
From Stdlib.Strings Require Import Byte.
Import ListNotations.

Set Implicit Arguments.

(* ================================================================== *)
(** * Part I. The platform *)
(* ================================================================== *)

(** ** Strings

    A JavaScript string is a finite sequence of UTF-16 code units.  Code
    units are kept as [N]; the 16-bit bound is not imposed, so the model has
    more strings than the language, never fewer. *)

Definition code_unit := N.
Definition jsstring := list code_unit.

(** The string written by an ASCII literal. *)
Definition js (s : string) : jsstring :=
  map N_of_ascii (list_ascii_of_string s).

Fixpoint str_eqb (a b : jsstring) : bool :=
  match a, b with
  | [], [] => true
  | x :: a', y :: b' => N.eqb x y && str_eqb a' b'
  | _, _ => false
  end.

(** Own-property lookup in an ordered property list. *)
Fixpoint lookup {A : Type} (key : jsstring) (props : list (jsstring * A))
  : option A :=
  match props with
  | [] => None
  | (k, v) :: rest => if str_eqb k key then Some v else lookup key rest
  end.

Definition has_key {A : Type} (key : jsstring) (props : list (jsstring * A))
  : bool :=
  match lookup key props with Some _ => true | None => false end.

(** [CreateDataProperty]: an existing key keeps its place and takes the new
    value, a new key goes last. *)
Fixpoint set_prop {A : Type} (key : jsstring) (v : A)
  (props : list (jsstring * A)) : list (jsstring * A) :=
  match props with
  | [] => [(key, v)]
  | (k, w) :: rest =>
      if str_eqb k key then (k, v) :: rest else (k, w) :: set_prop key v rest
  end.

Fixpoint join (sep : jsstring) (parts : list jsstring) : jsstring :=
  match parts with
  | [] => []
  | [p] => p
  | p :: rest => p ++ sep ++ join sep rest
  end.

(** [String.prototype.split] with a one-unit separator. *)
Fixpoint split_on (sep : code_unit) (s : jsstring) : list jsstring :=
  match s with
  | [] => [[]]
  | c :: rest =>
      if N.eqb c sep then [] :: split_on sep rest
      else match split_on sep rest with
           | [] => [[c]]
           | p :: ps => (c :: p) :: ps
           end
  end.

(** Surrogate code units, and the well-formedness repair of WebIDL's
    [USVString]: a surrogate that is not part of a pair becomes U+FFFD. *)
Definition is_high_surrogate (c : code_unit) : bool :=
  (N.leb 55296 c && N.leb c 56319)%N.
Definition is_low_surrogate (c : code_unit) : bool :=
  (N.leb 56320 c && N.leb c 57343)%N.

Fixpoint toUSVString (s : jsstring) : jsstring :=
  match s with
  | [] => []
  | c :: rest =>
      if is_high_surrogate c then
        match rest with
        | c2 :: rest2 =>
            if is_low_surrogate c2 then c :: c2 :: toUSVString rest2
            else 65533%N :: toUSVString rest
        | [] => [65533%N]
        end
      else if is_low_surrogate c then 65533%N :: toUSVString rest
      else c :: toUSVString rest
  end.

(** ** Decimal digits *)

Inductive digit := D0 | D1 | D2 | D3 | D4 | D5 | D6 | D7 | D8 | D9.

Definition digit_value (d : digit) : N :=
  match d with
  | D0 => 0 | D1 => 1 | D2 => 2 | D3 => 3 | D4 => 4
  | D5 => 5 | D6 => 6 | D7 => 7 | D8 => 8 | D9 => 9
  end%N.

(** The digit of a number below ten (of its last decimal place otherwise). *)
Definition digit_of_N (n : N) : digit :=
  match (n mod 10)%N with
  | 0 => D0 | 1 => D1 | 2 => D2 | 3 => D3 | 4 => D4
  | 5 => D5 | 6 => D6 | 7 => D7 | 8 => D8 | _ => D9
  end%N.

Definition digit_unit (d : digit) : code_unit := (48 + digit_value d)%N.

Definition digit_of_unit (c : code_unit) : option digit :=
  if (N.leb 48 c && N.leb c 57)%N then Some (digit_of_N (c - 48)) else None.

Definition digit_eqb (a b : digit) : bool :=
  N.eqb (digit_value a) (digit_value b).

Definition digit_units (ds : list digit) : jsstring := map digit_unit ds.

(** Value of a digit sequence, most significant digit first. *)
Definition digits_N (ds : list digit) : N :=
  fold_left (fun acc d => (10 * acc + digit_value d)%N) ds 0%N.

Fixpoint N_digits_aux (fuel : nat) (n : N) (acc : list digit) : list digit :=
  match fuel with
  | O => acc
  | S fuel' =>
      let acc' := digit_of_N n :: acc in
      if (n <? 10)%N then acc' else N_digits_aux fuel' (n / 10)%N acc'
  end.

(** Decimal digits of [n] without leading zeros ([0] is the one digit
    [D0]); a number has at most as many decimal digits as binary ones. *)
Definition N_digits (n : N) : list digit :=
  N_digits_aux (S (N.to_nat (N.log2 n))) n [].

(** Exactly [width] digits: [n mod 10^width], padded with zeros. *)
Fixpoint fixed_digits (width : nat) (n : N) : list digit :=
  match width with
  | O => []
  | S w => fixed_digits w (n / 10)%N ++ [digit_of_N n]
  end.

Fixpoint strip_leading_zeros (ds : list digit) : list digit :=
  match ds with
  | D0 :: rest => strip_leading_zeros rest
  | _ => ds
  end.

Definition strip_trailing_zeros (ds : list digit) : list digit :=
  rev (strip_leading_zeros (rev ds)).

(** ** Numbers

    A Number is an IEEE-754 double.  The codec never does arithmetic on
    one: it stores, prints, reads and compares them.  A finite non-zero
    double is therefore represented by the decimal expansion that
    [Number::toString] prints for it, the shortest one that reads back to
    the same double: sign, digits [d1 ... dk] with [d1] and [dk] non-zero,
    and the exponent [n] of the language specification, the value being
    [0.d1...dk * 10^n].  Every double has one such expansion; expansions
    that belong to no double are extra inhabitants of the model, and the
    rounding [JSON.parse] applies to a literal that is not itself such an
    expansion is not modelled. *)

Inductive number :=
| NaN
| Infinity (negative : bool)
| Zero (negative : bool)
| Finite (negative : bool) (digits : list digit) (exponent : Z).

Definition last_digit_nonzero (ds : list digit) : bool :=
  match rev ds with
  | D0 :: _ => false
  | _ => true
  end.

Definition canonical_digits (ds : list digit) : bool :=
  match ds with
  | [] => false
  | D0 :: _ => false
  | _ => last_digit_nonzero ds
  end.

Definition canonical (x : number) : bool :=
  match x with
  | Finite _ ds _ => canonical_digits ds
  | _ => true
  end.

Definition is_finite (x : number) : bool :=
  match x with
  | NaN | Infinity _ => false
  | _ => true
  end.

(** Brings [0.ds * 10^n] to canonical form. *)
Fixpoint drop_zeros (ds : list digit) (n : Z) : list digit * Z :=
  match ds with
  | D0 :: rest => drop_zeros rest (n - 1)%Z
  | _ => (ds, n)
  end.

Definition normalize (negative : bool) (ds : list digit) (n : Z) : number :=
  let (ds', n') := drop_zeros ds n in
  match strip_trailing_zeros ds' with
  | [] => Zero negative
  | ds'' => Finite negative ds'' n'
  end.

Definition number_of_N (n : N) : number :=
  let ds := N_digits n in
  normalize false ds (Z.of_nat (length ds)).

Definition number_of_nat (n : nat) : number := number_of_N (N.of_nat n).

Definition number_of_Z (z : Z) : number :=
  let ds := N_digits (Z.abs_N z) in
  normalize (z <? 0)%Z ds (Z.of_nat (length ds)).

Definition number_one : number := Finite false [D1] 1.

(** Numeric equality of canonical numbers, as [===] decides it: [NaN]
    differs from itself, the two zeros are equal. *)
Definition number_eqb (x y : number) : bool :=
  match x, y with
  | Zero _, Zero _ => true
  | Infinity a, Infinity b => Bool.eqb a b
  | Finite a ds n, Finite b es m =>
      Bool.eqb a b && (n =? m)%Z
      && (Nat.eqb (length ds) (length es)
          && forallb (fun p => digit_eqb (fst p) (snd p)) (combine ds es))
  | _, _ => false
  end.

(** The integer part of a finite number (truncation toward zero). *)
Definition number_trunc (x : number) : option Z :=
  match x with
  | NaN | Infinity _ => None
  | Zero _ => Some 0%Z
  | Finite neg ds n =>
      let k := Z.of_nat (length ds) in
      let magnitude :=
        if (n <=? 0)%Z then 0%N
        else if (n <? k)%Z then digits_N (firstn (Z.to_nat n) ds)
        else (digits_N ds * 10 ^ Z.to_N (n - k))%N in
      Some (if neg then (- Z.of_N magnitude)%Z else Z.of_N magnitude)
  end.

Definition MINUS : code_unit := 45%N.
Definition PLUS : code_unit := 43%N.
Definition DOT : code_unit := 46%N.
Definition ZERO : code_unit := 48%N.
Definition LOWER_E : code_unit := 101%N.
Definition UPPER_E : code_unit := 69%N.

(** [Number::toString] in radix 10, steps 5 to 10 of the language
    specification, on the digits [ds] and exponent [n]. *)
Definition finite_toString (ds : list digit) (n : Z) : jsstring :=
  let k := Z.of_nat (length ds) in
  if ((k <=? n) && (n <=? 21))%Z then
    digit_units ds ++ repeat ZERO (Z.to_nat (n - k))
  else if ((0 <? n) && (n <=? 21))%Z then
    digit_units (firstn (Z.to_nat n) ds) ++ [DOT]
      ++ digit_units (skipn (Z.to_nat n) ds)
  else if ((-6 <? n) && (n <=? 0))%Z then
    [ZERO; DOT] ++ repeat ZERO (Z.to_nat (- n)) ++ digit_units ds
  else
    let e := (n - 1)%Z in
    let exp :=
      [LOWER_E; if (e <? 0)%Z then MINUS else PLUS]
        ++ digit_units (N_digits (Z.abs_N e)) in
    match ds with
    | [] => exp
    | [d] => digit_unit d :: exp
    | d :: rest => digit_unit d :: DOT :: digit_units rest ++ exp
    end.

Definition Number_toString (x : number) : jsstring :=
  match x with
  | NaN => js "NaN"
  | Zero _ => js "0"
  | Infinity negative =>
      (if negative then [MINUS] else []) ++ js "Infinity"
  | Finite negative ds n =>
      (if negative then [MINUS] else []) ++ finite_toString ds n
  end.

(** ** Values

    The values the library can be handed.  Arrays are dense; a plain object
    is its own enumerable string-keyed properties in insertion order (the
    engine's rule that lists integer-like keys first is not modelled, and
    the prototype, [Object.prototype] or none, is not recorded).  A [Date]
    is its time value in milliseconds, [None] for an invalid date.  A
    [RegExp] is the pattern text and flags it was built from.  A typed array
    or [DataView] is a window on a buffer. *)

Record RegExpFlags := {
  hasIndices : bool;   (* d *)
  global : bool;       (* g *)
  ignoreCase : bool;   (* i *)
  multiline : bool;    (* m *)
  dotAll : bool;       (* s *)
  unicode : bool;      (* u *)
  unicodeSets : bool;  (* v *)
  sticky : bool        (* y *)
}.

Inductive ViewKind :=
| Int8Array | Uint8Array | Uint8ClampedArray
| Int16Array | Uint16Array | Int32Array | Uint32Array
| Float32Array | Float64Array | BigInt64Array | BigUint64Array
| DataView.

Unset Elimination Schemes.
Inductive Value :=
| VUndefined
| VNull
| VBoolean (b : bool)
| VNumber (n : number)
| VString (s : jsstring)
| VBigInt (z : Z)
| VSymbol (description : jsstring)
| VFunction (name : jsstring)
| VArray (items : list Value)
| VObject (props : list (jsstring * Value))
| VDate (tv : option Z)
| VRegExp (source : jsstring) (flags : RegExpFlags)
| VBlob (bytes : list byte) (type : jsstring)
| VFile (bytes : list byte) (name : jsstring) (type : jsstring)
        (lastModified : Z)
| VArrayBuffer (bytes : list byte)
| VView (kind : ViewKind) (buffer : list byte) (byteOffset byteLength : nat)
| VMap (entries : list (Value * Value))
| VSet (members : list Value)
| VInstance (className : jsstring) (props : list (jsstring * Value)).
Set Elimination Schemes.

(** The [typeof] operator. *)
Definition typeof (v : Value) : jsstring :=
  match v with
  | VUndefined => js "undefined"
  | VBoolean _ => js "boolean"
  | VNumber _ => js "number"
  | VString _ => js "string"
  | VBigInt _ => js "bigint"
  | VSymbol _ => js "symbol"
  | VFunction _ => js "function"
  | _ => js "object"
  end.

(** [v instanceof C] for the built-in classes the library tests. *)
Definition instanceof_Date (v : Value) : bool :=
  match v with VDate _ => true | _ => false end.
Definition instanceof_RegExp (v : Value) : bool :=
  match v with VRegExp _ _ => true | _ => false end.
Definition instanceof_File (v : Value) : bool :=
  match v with VFile _ _ _ _ => true | _ => false end.
(** [File] extends [Blob]. *)
Definition instanceof_Blob (v : Value) : bool :=
  match v with VBlob _ _ | VFile _ _ _ _ => true | _ => false end.
Definition instanceof_ArrayBuffer (v : Value) : bool :=
  match v with VArrayBuffer _ => true | _ => false end.
Definition ArrayBuffer_isView (v : Value) : bool :=
  match v with VView _ _ _ _ => true | _ => false end.
Definition Array_isArray (v : Value) : bool :=
  match v with VArray _ => true | _ => false end.

Definition ViewKind_name (k : ViewKind) : jsstring :=
  match k with
  | Int8Array => js "Int8Array"
  | Uint8Array => js "Uint8Array"
  | Uint8ClampedArray => js "Uint8ClampedArray"
  | Int16Array => js "Int16Array"
  | Uint16Array => js "Uint16Array"
  | Int32Array => js "Int32Array"
  | Uint32Array => js "Uint32Array"
  | Float32Array => js "Float32Array"
  | Float64Array => js "Float64Array"
  | BigInt64Array => js "BigInt64Array"
  | BigUint64Array => js "BigUint64Array"
  | DataView => js "DataView"
  end.

(** The strict equality [v === "literal"]. *)
Definition is_string (v : Value) (literal : jsstring) : bool :=
  match v with
  | VString s => str_eqb s literal
  | _ => false
  end.

(** [ToBoolean]. *)
Definition truthy (v : Value) : bool :=
  match v with
  | VUndefined | VNull => false
  | VBoolean b => b
  | VNumber (NaN | Zero _) => false
  | VString [] => false
  | VBigInt 0%Z => false
  | _ => true
  end.

(** ** Errors and completions *)

Module Error.
(** A native error object, as far as the library reads it. *)
Record t := { name : jsstring; message : jsstring }.
End Error.

Inductive StorageErrorCode :=
| STORAGE_UNAVAILABLE
| QUOTA_EXCEEDED
| INVALID_VALUE
| OPERATION_FAILED
| TIMEOUT
| CORRUPTION
| VERSION_MISMATCH.

Record StorageError := {
  name : jsstring;
  code : StorageErrorCode;
  message : jsstring;
  context : option (list (jsstring * Value));
  originalError : option Error.t
}.

Inductive thrown :=
| ThrownStorageError (e : StorageError)
| ThrownError (e : Error.t).

(** The outcome of a call: a result, an exception (for an [async] function
    the rejection of its promise), or [Unmodelled] where the platform's
    behaviour on this input lies outside the model. *)
Inductive completion (A : Type) :=
| Return (a : A)
| Throw (e : thrown)
| Unmodelled.

Arguments Return {A} a.
Arguments Throw {A} e.
Arguments Unmodelled {A}.

Definition bind {A B : Type} (c : completion A) (k : A -> completion B)
  : completion B :=
  match c with
  | Return a => k a
  | Throw e => Throw e
  | Unmodelled => Unmodelled
  end.

Notation "x <- c ;; k" := (bind c (fun x => k))
  (at level 61, c at next level, right associativity).

Definition obind {A B : Type} (o : option A) (k : A -> option B) : option B :=
  match o with
  | Some a => k a
  | None => None
  end.

Notation "x <-? o ;; k" := (obind o (fun x => k))
  (at level 61, o at next level, right associativity).
Notation "' p <-? o ;; k" := (obind o (fun p => k))
  (at level 61, p pattern, o at next level, right associativity).

(** Errors raised by the platform itself; their wording differs between
    engines and is left empty. *)
Definition native (kind : string) : thrown :=
  ThrownError {| Error.name := js kind; Error.message := [] |}.

Definition TypeError {A : Type} : completion A := Throw (native "TypeError").
Definition RangeError {A : Type} : completion A := Throw (native "RangeError").
Definition SyntaxError {A : Type} : completion A := Throw (native "SyntaxError").
Definition InvalidCharacterError {A : Type} : completion A :=
  Throw (native "InvalidCharacterError").

(** [new Error(message)]. *)
Definition new_Error (message : jsstring) : Error.t :=
  {| Error.name := js "Error"; Error.message := message |}.

(** ** Property access and conversion to string on parsed values

    [Get o key] is [o.key] for a value that [JSON.parse] can produce and a
    key that no prototype of such a value defines (the codec reads [__v],
    [__t], [data], [meta], [flags], [type], [name] and [lastModified]). *)

Definition codec_keys : list jsstring :=
  [js "__v"; js "__t"; js "data"; js "meta";
   js "flags"; js "type"; js "name"; js "lastModified"].

Definition Get (o : Value) (key : jsstring) : completion Value :=
  if negb (existsb (str_eqb key) codec_keys) then Unmodelled else
  match o with
  | VUndefined | VNull => TypeError
  | VBoolean _ | VNumber _ | VString _ | VArray _ => Return VUndefined
  | VObject props =>
      Return (match lookup key props with Some v => v | None => VUndefined end)
  | _ => Unmodelled
  end.

(** Optional chaining [o?.key]. *)
Definition GetOptional (o : Value) (key : jsstring) : completion Value :=
  match o with
  | VUndefined | VNull => Return VUndefined
  | _ => Get o key
  end.

(** [String(v)], that is [ToString], on a value that [JSON.parse] can
    produce.  An array joins its elements with commas.  An object inherits
    [toString] from [Object.prototype] unless it has a property of that
    name of its own, which is then not callable, as is or as would be its
    [valueOf]: the conversion ends in a [TypeError].  The implicit
    conversion of a template literal is the same [ToString], which throws
    a [TypeError] on a symbol. *)
Fixpoint ToString (v : Value) : completion jsstring :=
  match v with
  | VSymbol _ => TypeError
  | VUndefined => Return (js "undefined")
  | VNull => Return (js "null")
  | VBoolean b => Return (if b then js "true" else js "false")
  | VNumber n => Return (Number_toString n)
  | VString s => Return s
  | VArray items =>
      parts <- (fix each (l : list Value) : completion (list jsstring) :=
                  match l with
                  | [] => Return []
                  | x :: rest =>
                      p <- match x with
                           | VUndefined | VNull => Return []
                           | _ => ToString x
                           end ;;
                      ps <- each rest ;;
                      Return (p :: ps)
                  end) items ;;
      Return (join (js ",") parts)
  | VObject props =>
      match lookup (js "toString") props with
      | None => Return (js "[object Object]")
      | Some (VFunction _) => Unmodelled
      | Some _ =>
          match lookup (js "valueOf") props with
          | Some (VFunction _) => Unmodelled
          | _ => TypeError
          end
      end
  | _ => Unmodelled
  end.

(** ** Dates

    Time values are milliseconds since the epoch, in UTC.  The calendar
    functions follow the language specification ([DayFromYear],
    [MonthFromTime], [DateFromTime]). *)

Local Open Scope Z_scope.

Definition msPerDay : Z := 86400000.
Definition maxTime : Z := 8640000000000000.

Definition DaysInYear (y : Z) : Z :=
  if negb (y mod 4 =? 0) then 365
  else if negb (y mod 100 =? 0) then 366
  else if negb (y mod 400 =? 0) then 365
  else 366.

Definition InLeapYear (y : Z) : Z := if DaysInYear y =? 366 then 1 else 0.

Definition DayFromYear (y : Z) : Z :=
  365 * (y - 1970) + (y - 1969) / 4 - (y - 1901) / 100 + (y - 1601) / 400.

(** The year a day number falls in: the largest [y] whose first day is not
    after it, found from the mean year length and corrected by one. *)
Definition YearFromDay (day : Z) : Z :=
  let y := 1970 + day * 400 / 146097 in
  if day <? DayFromYear y then y - 1
  else if DayFromYear (y + 1) <=? day then y + 1
  else y.

(** Day within the year on which month [m] (0 to 11) starts; [m = 12] gives
    the length of the year. *)
Definition MonthStart (leap : Z) (m : Z) : Z :=
  match m with
  | 0 => 0
  | 1 => 31
  | 2 => 59 + leap
  | 3 => 90 + leap
  | 4 => 120 + leap
  | 5 => 151 + leap
  | 6 => 181 + leap
  | 7 => 212 + leap
  | 8 => 243 + leap
  | 9 => 273 + leap
  | 10 => 304 + leap
  | 11 => 334 + leap
  | _ => 365 + leap
  end.

Definition MonthFromDayWithinYear (leap : Z) (d : Z) : Z :=
  if d <? 31 then 0
  else if d <? 59 + leap then 1
  else if d <? 90 + leap then 2
  else if d <? 120 + leap then 3
  else if d <? 151 + leap then 4
  else if d <? 181 + leap then 5
  else if d <? 212 + leap then 6
  else if d <? 243 + leap then 7
  else if d <? 273 + leap then 8
  else if d <? 304 + leap then 9
  else if d <? 334 + leap then 10
  else 11.

Definition COLON : code_unit := 58%N.
Definition UPPER_T : code_unit := 84%N.
Definition UPPER_Z : code_unit := 90%N.

Definition field (width : nat) (n : Z) : jsstring :=
  digit_units (fixed_digits width (Z.to_N n)).

(** [Date.prototype.toISOString] on a valid time value:
    [YYYY-MM-DDTHH:mm:ss.sssZ], the year with a sign and six digits outside
    0..9999. *)
Definition toISOString (tv : Z) : jsstring :=
  let day := tv / msPerDay in
  let t := tv mod msPerDay in
  let y := YearFromDay day in
  let leap := InLeapYear y in
  let d := day - DayFromYear y in
  let m := MonthFromDayWithinYear leap d in
  let date := d - MonthStart leap m + 1 in
  (if (0 <=? y) && (y <=? 9999) then field 4 y
   else (if y <? 0 then MINUS else PLUS) :: field 6 (Z.abs y))
  ++ [MINUS] ++ field 2 (m + 1) ++ [MINUS] ++ field 2 date
  ++ [UPPER_T] ++ field 2 (t / 3600000)
  ++ [COLON] ++ field 2 (t / 60000 mod 60)
  ++ [COLON] ++ field 2 (t / 1000 mod 60)
  ++ [DOT] ++ field 3 (t mod 1000) ++ [UPPER_Z].

Fixpoint read_digits (width : nat) (s : jsstring)
  : option (list digit * jsstring) :=
  match width with
  | O => Some ([], s)
  | S w =>
      match s with
      | [] => None
      | c :: rest =>
          d <-? digit_of_unit c ;;
          '(ds, rest') <-? read_digits w rest ;;
          Some (d :: ds, rest')
      end
  end.

Definition read_field (width : nat) (s : jsstring) : option (Z * jsstring) :=
  '(ds, rest) <-? read_digits width s ;;
  Some (Z.of_N (digits_N ds), rest).

Definition expect (c : code_unit) (s : jsstring) : option jsstring :=
  match s with
  | c' :: rest => if N.eqb c' c then Some rest else None
  | [] => None
  end.

Definition read_year (s : jsstring) : option (Z * jsstring) :=
  match s with
  | c :: rest =>
      if N.eqb c PLUS then read_field 6 rest
      else if N.eqb c MINUS then
        '(y, rest') <-? read_field 6 rest ;;
        if y =? 0 then None else Some (- y, rest')
      else read_field 4 s
  | [] => None
  end.

(** [Date.parse] on the complete UTC form that [toISOString] writes, with
    every field in range.  The outer [None] is a string outside that form,
    whose reading the model leaves open (the language accepts shorter forms
    and lets an engine accept others); [Some None] is a recognised instant
    outside the range of time values, an invalid date. *)
Definition Date_parse (s : jsstring) : option (option Z) :=
  '(y, s) <-? read_year s ;;
  s <-? expect MINUS s ;;
  '(month, s) <-? read_field 2 s ;;
  s <-? expect MINUS s ;;
  '(date, s) <-? read_field 2 s ;;
  s <-? expect UPPER_T s ;;
  '(h, s) <-? read_field 2 s ;;
  s <-? expect COLON s ;;
  '(min, s) <-? read_field 2 s ;;
  s <-? expect COLON s ;;
  '(sec, s) <-? read_field 2 s ;;
  s <-? expect DOT s ;;
  '(ms, s) <-? read_field 3 s ;;
  s <-? expect UPPER_Z s ;;
  match s with
  | _ :: _ => None
  | [] =>
      let leap := InLeapYear y in
      if (1 <=? month) && (month <=? 12) && (1 <=? date)
         && (date <=? MonthStart leap month - MonthStart leap (month - 1))
         && (h <=? 23) && (min <=? 59) && (sec <=? 59)
      then
        let day := DayFromYear y + MonthStart leap (month - 1) + date - 1 in
        let tv := day * msPerDay + h * 3600000 + min * 60000 + sec * 1000 + ms in
        Some (if Z.abs tv <=? maxTime then Some tv else None)
      else None
  end.

Local Close Scope Z_scope.

(** ** Regular expression flags *)

Definition no_flags : RegExpFlags :=
  {| hasIndices := false; global := false; ignoreCase := false;
     multiline := false; dotAll := false; unicode := false;
     unicodeSets := false; sticky := false |}.

(** The [flags] accessor: one letter per set flag, in the order [dgimsuvy]. *)
Definition flags_string (f : RegExpFlags) : jsstring :=
  (if hasIndices f then js "d" else [])
  ++ (if global f then js "g" else [])
  ++ (if ignoreCase f then js "i" else [])
  ++ (if multiline f then js "m" else [])
  ++ (if dotAll f then js "s" else [])
  ++ (if unicode f then js "u" else [])
  ++ (if unicodeSets f then js "v" else [])
  ++ (if sticky f then js "y" else []).

(** Reads a flag string: [None] on an unknown or repeated letter. *)
Fixpoint parse_flags (text : jsstring) (acc : RegExpFlags)
  : option RegExpFlags :=
  match text with
  | [] => if unicode acc && unicodeSets acc then None else Some acc
  | c :: rest =>
      let '{| hasIndices := d; global := g; ignoreCase := i; multiline := m;
              dotAll := s; unicode := u; unicodeSets := v; sticky := y |} := acc in
      let take (seen : bool) (acc' : RegExpFlags) :=
        if seen then None else parse_flags rest acc' in
      match c with
      | 100 => take d {| hasIndices := true; global := g; ignoreCase := i;
            multiline := m; dotAll := s; unicode := u; unicodeSets := v; sticky := y |}
      | 103 => take g {| hasIndices := d; global := true; ignoreCase := i;
            multiline := m; dotAll := s; unicode := u; unicodeSets := v; sticky := y |}
      | 105 => take i {| hasIndices := d; global := g; ignoreCase := true;
            multiline := m; dotAll := s; unicode := u; unicodeSets := v; sticky := y |}
      | 109 => take m {| hasIndices := d; global := g; ignoreCase := i;
            multiline := true; dotAll := s; unicode := u; unicodeSets := v; sticky := y |}
      | 115 => take s {| hasIndices := d; global := g; ignoreCase := i;
            multiline := m; dotAll := true; unicode := u; unicodeSets := v; sticky := y |}
      | 117 => take u {| hasIndices := d; global := g; ignoreCase := i;
            multiline := m; dotAll := s; unicode := true; unicodeSets := v; sticky := y |}
      | 118 => take v {| hasIndices := d; global := g; ignoreCase := i;
            multiline := m; dotAll := s; unicode := u; unicodeSets := true; sticky := y |}
      | 121 => take y {| hasIndices := d; global := g; ignoreCase := i;
            multiline := m; dotAll := s; unicode := u; unicodeSets := v; sticky := true |}
      | _ => None
      end%N
  end.

(** [new RegExp(pattern, flags)] on strings.  The flags are checked; the
    syntax of the pattern is not, nor is the escaping an engine may apply
    when it reports [source]: the object holds the pattern it was given. *)
Definition new_RegExp (pattern flags : jsstring) : completion Value :=
  match parse_flags flags no_flags with
  | Some f => Return (VRegExp pattern f)
  | None => SyntaxError
  end.

(** ** Base64: [btoa] and [atob]

    [btoa] encodes a string of code units up to 255 with the standard
    alphabet and [=] padding; [atob] is the forgiving decoder of the HTML
    standard. *)

Local Open Scope N_scope.

Definition EQUALS : code_unit := 61.
Definition COMMA : code_unit := 44.

Definition b64_char (sextet : N) : code_unit :=
  if sextet <? 26 then 65 + sextet
  else if sextet <? 52 then 71 + sextet
  else if sextet <? 62 then sextet - 4
  else if sextet =? 62 then 43
  else 47.

Definition b64_sextet (c : code_unit) : option N :=
  if (65 <=? c) && (c <=? 90) then Some (c - 65)
  else if (97 <=? c) && (c <=? 122) then Some (c - 71)
  else if (48 <=? c) && (c <=? 57) then Some (c + 4)
  else if c =? 43 then Some 62
  else if c =? 47 then Some 63
  else None.

Fixpoint b64_encode (bytes : list N) : jsstring :=
  match bytes with
  | [] => []
  | [a] => [b64_char (a / 4); b64_char (a mod 4 * 16); EQUALS; EQUALS]
  | [a; b] =>
      [b64_char (a / 4); b64_char (a mod 4 * 16 + b / 16);
       b64_char (b mod 16 * 4); EQUALS]
  | a :: b :: c :: rest =>
      b64_char (a / 4) :: b64_char (a mod 4 * 16 + b / 16)
        :: b64_char (b mod 16 * 4 + c / 64) :: b64_char (c mod 64)
        :: b64_encode rest
  end.

Definition btoa (s : jsstring) : completion jsstring :=
  if forallb (fun c => c <=? 255) s then Return (b64_encode s)
  else InvalidCharacterError.

Definition is_ascii_whitespace (c : code_unit) : bool :=
  (c =? 9) || (c =? 10) || (c =? 12) || (c =? 13) || (c =? 32).

(** Removes one or two [=] at the end. *)
Fixpoint strip_padding (data : jsstring) : jsstring :=
  match data with
  | [] => []
  | c :: rest =>
      if (c =? EQUALS)
         && match rest with
            | [] => true
            | [c'] => c' =? EQUALS
            | _ => false
            end
      then []
      else c :: strip_padding rest
  end.

Fixpoint sextets (data : jsstring) : option (list N) :=
  match data with
  | [] => Some []
  | c :: rest =>
      x <-? b64_sextet c ;;
      xs <-? sextets rest ;;
      Some (x :: xs)
  end.

(** Four sextets make three bytes; of a last group of two or three the
    bits that fill no byte are dropped. *)
Fixpoint b64_decode (l : list N) : jsstring :=
  match l with
  | s1 :: s2 :: s3 :: s4 :: rest =>
      (s1 * 4 + s2 / 16) :: (s2 mod 16 * 16 + s3 / 4) :: (s3 mod 4 * 64 + s4)
        :: b64_decode rest
  | [s1; s2; s3] => [s1 * 4 + s2 / 16; s2 mod 16 * 16 + s3 / 4]
  | [s1; s2] => [s1 * 4 + s2 / 16]
  | _ => []
  end.

Definition atob (s : jsstring) : completion jsstring :=
  let data := filter (fun c => negb (is_ascii_whitespace c)) s in
  let data :=
    if Nat.eqb (length data mod 4) 0 then strip_padding data else data in
  if Nat.eqb (length data mod 4) 1 then InvalidCharacterError
  else match sextets data with
       | Some l => Return (b64_decode l)
       | None => InvalidCharacterError
       end.

(** ** Bytes, buffers, blobs *)

(** [String.fromCharCode(n)] for one argument, a code unit. *)
Definition String_fromCharCode (n : N) : code_unit := n mod 65536.

(** [s.charCodeAt(i)]; [None] stands for [NaN], out of range. *)
Definition charCodeAt (s : jsstring) (i : nat) : option code_unit :=
  nth_error s i.

(** Storing a number in a [Uint8Array] element: [ToUint8], with [NaN]
    stored as zero. *)
Definition ToUint8 (n : option N) : byte :=
  match n with
  | Some c => match Byte.of_N (c mod 256) with Some b => b | None => x00 end
  | None => x00
  end.

(** [bytes[i] = b]; an index out of range is ignored by a typed array. *)
Fixpoint set_index (bytes : list byte) (i : nat) (b : byte) : list byte :=
  match bytes, i with
  | [], _ => []
  | _ :: rest, O => b :: rest
  | x :: rest, S j => x :: set_index rest j b
  end.

(** [buffer.slice(begin, end)] for indices that are not negative: both
    ends are clamped to the length. *)
Definition ArrayBuffer_slice (buffer : list byte) (first final : nat)
  : list byte :=
  firstn (final - first) (skipn first buffer).

Definition ascii_lower (c : code_unit) : code_unit :=
  if (65 <=? c) && (c <=? 90) then c + 32 else c.

(** The [type] a [Blob] or [File] constructor keeps: lower case, or empty
    when a unit lies outside U+0020 to U+007E. *)
Definition normalize_type (type : jsstring) : jsstring :=
  if forallb (fun c => (32 <=? c) && (c <=? 126)) type
  then map ascii_lower type
  else [].

Definition new_Blob (bytes : list byte) (type : jsstring) : Value :=
  VBlob bytes (normalize_type type).

Definition new_File (bytes : list byte) (name type : jsstring)
  (lastModified : Z) : Value :=
  VFile bytes (toUSVString name) (normalize_type type) lastModified.

(** WebIDL's conversion to [long long]. *)
Definition to_long_long (x : number) : Z :=
  match number_trunc x with
  | None => 0%Z
  | Some z =>
      let m := (z mod 2 ^ 64)%Z in
      if (2 ^ 63 <=? m)%Z then (m - 2 ^ 64)%Z else m
  end.

(** The result of [FileReader.readAsDataURL] on an in-memory blob, which
    does not fail to read.  Engines differ in how they write the media
    type, in particular one that holds a comma; without a comma in the type
    there is none before the payload, which is what the codec relies on. *)
Definition readAsDataURL (bytes : list byte) (type : jsstring)
  : completion jsstring :=
  if existsb (N.eqb COMMA) type then Unmodelled
  else
    Return (js "data:"
            ++ match type with
               | [] => js "application/octet-stream"
               | _ => type
               end
            ++ js ";base64," ++ b64_encode (map Byte.to_N bytes)).

Local Close Scope N_scope.

(** ** JSON *)

Local Open Scope N_scope.

Definition QUOTE : code_unit := 34.
Definition BACKSLASH : code_unit := 92.
Definition SLASH : code_unit := 47.
Definition LBRACKET : code_unit := 91.
Definition RBRACKET : code_unit := 93.
Definition LBRACE : code_unit := 123.
Definition RBRACE : code_unit := 125.
Definition LOWER_U : code_unit := 117.

Definition hex_char (n : N) : code_unit :=
  if n <? 10 then 48 + n else 87 + n.

Definition hex_value (c : code_unit) : option N :=
  if (48 <=? c) && (c <=? 57) then Some (c - 48)
  else if (97 <=? c) && (c <=? 102) then Some (c - 87)
  else if (65 <=? c) && (c <=? 70) then Some (c - 55)
  else None.

(** [\uXXXX] with lower-case hexadecimal digits. *)
Definition unicode_escape (c : code_unit) : jsstring :=
  [BACKSLASH; LOWER_U; hex_char (c / 4096 mod 16); hex_char (c / 256 mod 16);
   hex_char (c / 16 mod 16); hex_char (c mod 16)].

Definition escape_unit (c : code_unit) : jsstring :=
  if c =? 8 then [BACKSLASH; 98]
  else if c =? 9 then [BACKSLASH; 116]
  else if c =? 10 then [BACKSLASH; 110]
  else if c =? 12 then [BACKSLASH; 102]
  else if c =? 13 then [BACKSLASH; 114]
  else if c =? QUOTE then [BACKSLASH; QUOTE]
  else if c =? BACKSLASH then [BACKSLASH; BACKSLASH]
  else if c <? 32 then unicode_escape c
  else [c].

(** [QuoteJSONString]: control characters, the quote, the backslash and
    surrogates outside a pair are escaped. *)
Fixpoint quote_units (s : jsstring) : jsstring :=
  match s with
  | [] => []
  | c :: rest =>
      if is_high_surrogate c then
        match rest with
        | c2 :: rest2 =>
            if is_low_surrogate c2 then c :: c2 :: quote_units rest2
            else unicode_escape c ++ quote_units rest
        | [] => unicode_escape c
        end
      else if is_low_surrogate c then unicode_escape c ++ quote_units rest
      else escape_unit c ++ quote_units rest
  end.

Definition QuoteJSONString (s : jsstring) : jsstring :=
  [QUOTE] ++ quote_units s ++ [QUOTE].

(** [SerializeJSONProperty] without replacer or indentation: the text of a
    value, or [None] where [JSON.stringify] yields [undefined] (the
    property is then left out of an object and written [null] in an array).
    A [Date] is written through its [toJSON]; the other built-in objects
    have no enumerable property of their own.  The elements of a typed
    array and the properties of a class instance are not modelled. *)
Fixpoint SerializeJSONProperty (v : Value) : completion (option jsstring) :=
  match v with
  | VUndefined | VSymbol _ | VFunction _ => Return None
  | VNull => Return (Some (js "null"))
  | VBoolean b => Return (Some (if b then js "true" else js "false"))
  | VNumber n =>
      Return (Some (if is_finite n then Number_toString n else js "null"))
  | VString s => Return (Some (QuoteJSONString s))
  | VBigInt _ => TypeError
  | VDate tv =>
      Return (Some match tv with
                   | Some t => QuoteJSONString (toISOString t)
                   | None => js "null"
                   end)
  | VArray items =>
      parts <- (fix each (l : list Value) : completion (list jsstring) :=
                  match l with
                  | [] => Return []
                  | x :: rest =>
                      p <- SerializeJSONProperty x ;;
                      ps <- each rest ;;
                      Return (match p with
                              | Some text => text
                              | None => js "null"
                              end :: ps)
                  end) items ;;
      Return (Some ([LBRACKET] ++ join [COMMA] parts ++ [RBRACKET]))
  | VObject props =>
      parts <- (fix each (l : list (jsstring * Value))
                  : completion (list jsstring) :=
                  match l with
                  | [] => Return []
                  | (k, x) :: rest =>
                      p <- SerializeJSONProperty x ;;
                      ps <- each rest ;;
                      Return (match p with
                              | Some text =>
                                  (QuoteJSONString k ++ [COLON] ++ text) :: ps
                              | None => ps
                              end)
                  end) props ;;
      Return (Some ([LBRACE] ++ join [COMMA] parts ++ [RBRACE]))
  | VRegExp _ _ | VBlob _ _ | VFile _ _ _ _ | VArrayBuffer _
  | VMap _ | VSet _ | VView DataView _ _ _ => Return (Some (js "{}"))
  | VView _ _ _ _ | VInstance _ _ => Unmodelled
  end.

Definition JSON_stringify (v : Value) : completion (option jsstring) :=
  SerializeJSONProperty v.

(** *** Reading *)

Definition is_json_whitespace (c : code_unit) : bool :=
  (c =? 32) || (c =? 9) || (c =? 10) || (c =? 13).

Fixpoint skip_ws (s : jsstring) : jsstring :=
  match s with
  | c :: rest => if is_json_whitespace c then skip_ws rest else s
  | [] => []
  end.

(** The longest prefix of digits, and what follows it. *)
Fixpoint span_digits (s : jsstring) : list digit * jsstring :=
  match s with
  | c :: rest =>
      match digit_of_unit c with
      | Some d => let (ds, rest') := span_digits rest in (d :: ds, rest')
      | None => ([], s)
      end
  | [] => ([], [])
  end.

Definition read_fraction (s : jsstring) : option (list digit * jsstring) :=
  match s with
  | c :: rest =>
      if c =? DOT then
        match span_digits rest with
        | ([], _) => None
        | (ds, rest') => Some (ds, rest')
        end
      else Some ([], s)
  | [] => Some ([], s)
  end.

Definition read_exponent (s : jsstring) : option (Z * jsstring) :=
  match s with
  | c :: rest =>
      if (c =? LOWER_E) || (c =? UPPER_E) then
        let (negative, rest1) :=
          match rest with
          | c1 :: r =>
              if c1 =? MINUS then (true, r)
              else if c1 =? PLUS then (false, r)
              else (false, rest)
          | [] => (false, rest)
          end in
        match span_digits rest1 with
        | ([], _) => None
        | (ds, rest2) =>
            let e := Z.of_N (digits_N ds) in
            Some (if negative then (- e)%Z else e, rest2)
        end
      else Some (0%Z, s)
  | [] => Some (0%Z, s)
  end.

(** A JSON number: optional minus, integer part without a superfluous
    leading zero, optional fraction, optional exponent.  The literal is
    read exactly, digit for digit: the rounding to the nearest double that
    the engine applies is not modelled.  The result is the engine's for a
    literal that is the expansion [Number::toString] prints for a double,
    and for every integer up to 2^53 in magnitude; a longer literal, which
    the engine rounds, is kept here as it is written. *)
Definition parse_number (s : jsstring) : option (number * jsstring) :=
  let (negative, s1) :=
    match s with
    | c :: rest => if c =? MINUS then (true, rest) else (false, s)
    | [] => (false, s)
    end in
  match span_digits s1 with
  | ([], _) => None
  | (D0 :: _ :: _, _) => None
  | (int, s2) =>
      '(frac, s3) <-? read_fraction s2 ;;
      '(e, s4) <-? read_exponent s3 ;;
      Some (normalize negative (int ++ frac) (Z.of_nat (length int) + e), s4)
  end.

Definition simple_escape (c : code_unit) : option code_unit :=
  if c =? QUOTE then Some QUOTE
  else if c =? BACKSLASH then Some BACKSLASH
  else if c =? SLASH then Some SLASH
  else if c =? 98 then Some 8
  else if c =? 102 then Some 12
  else if c =? 110 then Some 10
  else if c =? 114 then Some 13
  else if c =? 116 then Some 9
  else None.

(** The rest of a string literal, after the opening quote. *)
Fixpoint parse_string_body (s : jsstring) : option (jsstring * jsstring) :=
  match s with
  | [] => None
  | c :: rest =>
      if c =? QUOTE then Some ([], rest)
      else if c =? BACKSLASH then
        match rest with
        | [] => None
        | e :: rest1 =>
            if e =? LOWER_U then
              match rest1 with
              | h1 :: h2 :: h3 :: h4 :: rest2 =>
                  a <-? hex_value h1 ;;
                  b <-? hex_value h2 ;;
                  c <-? hex_value h3 ;;
                  d <-? hex_value h4 ;;
                  '(str, rest3) <-? parse_string_body rest2 ;;
                  Some ((a * 4096 + b * 256 + c * 16 + d) :: str, rest3)
              | _ => None
              end
            else
              u <-? simple_escape e ;;
              '(str, rest2) <-? parse_string_body rest1 ;;
              Some (u :: str, rest2)
        end
      else if c <? 32 then None
      else
        '(str, rest1) <-? parse_string_body rest ;;
        Some (c :: str, rest1)
  end.

Fixpoint expect_string (literal s : jsstring) : option jsstring :=
  match literal with
  | [] => Some s
  | c :: literal' =>
      match s with
      | c' :: rest => if c' =? c then expect_string literal' rest else None
      | [] => None
      end
  end.

(** Recursive descent; every call spends one unit of [fuel].  An object
    keeps the first position and the last value of a repeated key. *)
Fixpoint parse_value (fuel : nat) (s : jsstring) : option (Value * jsstring) :=
  match fuel with
  | O => None
  | S fuel' =>
      match skip_ws s with
      | [] => None
      | c :: rest =>
          if c =? QUOTE then
            '(str, rest1) <-? parse_string_body rest ;;
            Some (VString str, rest1)
          else if c =? LBRACKET then
            match skip_ws rest with
            | [] => None
            | c1 :: rest1 =>
                if c1 =? RBRACKET then Some (VArray [], rest1)
                else
                  '(items, rest2) <-? parse_elements fuel' (c1 :: rest1) ;;
                  Some (VArray items, rest2)
            end
          else if c =? LBRACE then
            match skip_ws rest with
            | [] => None
            | c1 :: rest1 =>
                if c1 =? RBRACE then Some (VObject [], rest1)
                else
                  '(props, rest2) <-? parse_members fuel' (c1 :: rest1) [] ;;
                  Some (VObject props, rest2)
            end
          else if c =? 110 then
            rest1 <-? expect_string (js "ull") rest ;; Some (VNull, rest1)
          else if c =? 116 then
            rest1 <-? expect_string (js "rue") rest ;;
            Some (VBoolean true, rest1)
          else if c =? 102 then
            rest1 <-? expect_string (js "alse") rest ;;
            Some (VBoolean false, rest1)
          else
            '(n, rest1) <-? parse_number (c :: rest) ;;
            Some (VNumber n, rest1)
      end
  end

with parse_elements (fuel : nat) (s : jsstring)
  : option (list Value * jsstring) :=
  match fuel with
  | O => None
  | S fuel' =>
      '(v, rest) <-? parse_value fuel' s ;;
      match skip_ws rest with
      | [] => None
      | c :: rest1 =>
          if c =? COMMA then
            '(vs, rest2) <-? parse_elements fuel' rest1 ;;
            Some (v :: vs, rest2)
          else if c =? RBRACKET then Some ([v], rest1)
          else None
      end
  end

with parse_members (fuel : nat) (s : jsstring)
  (acc : list (jsstring * Value))
  : option (list (jsstring * Value) * jsstring) :=
  match fuel with
  | O => None
  | S fuel' =>
      match skip_ws s with
      | [] => None
      | c :: rest =>
          if c =? QUOTE then
            '(key, rest1) <-? parse_string_body rest ;;
            rest2 <-? expect COLON (skip_ws rest1) ;;
            '(v, rest3) <-? parse_value fuel' rest2 ;;
            let acc' := set_prop key v acc in
            match skip_ws rest3 with
            | [] => None
            | c1 :: rest4 =>
                if c1 =? COMMA then parse_members fuel' rest4 acc'
                else if c1 =? RBRACE then Some (acc', rest4)
                else None
            end
          else None
      end
  end.

(** [JSON.parse(text)] without reviver; [None] is a [SyntaxError]. *)
Definition JSON_parse (text : jsstring) : option Value :=
  '(v, rest) <-? parse_value (S (2 * length text)) text ;;
  match skip_ws rest with
  | [] => Some v
  | _ :: _ => None
  end.

Local Close Scope N_scope.

(* ================================================================== *)
(** * Part II. The library *)
(* ================================================================== *)

(** ** errors.ts *)

(** [new StorageError(code, message, context?, originalError?)]. *)
Definition new_StorageError (code : StorageErrorCode) (message : jsstring)
  (context : option (list (jsstring * Value)))
  (originalError : option Error.t) : StorageError :=
  {| name := js "StorageError";
     code := code;
     message := message;
     context := context;
     originalError := originalError |}.

Module StorageError.

(** [error instanceof StorageError], on what a [catch] receives. *)
Definition isStorageError (error : thrown) : bool :=
  match error with
  | ThrownStorageError _ => true
  | ThrownError _ => false
  end.

Definition fromNativeError (error : Error.t)
  (context : option (list (jsstring * Value))) : StorageError :=
  let errorName := Error.name error in
  if str_eqb errorName (js "QuotaExceededError") then
    new_StorageError QUOTA_EXCEEDED
      (js "Storage quota exceeded. Consider clearing old data or using a smaller payload")
      context (Some error)
  else if str_eqb errorName (js "TimeoutError") then
    new_StorageError TIMEOUT
      (js "Storage operation timed out after 5 seconds")
      context (Some error)
  else if str_eqb errorName (js "VersionError") then
    new_StorageError VERSION_MISMATCH
      (js "Database version conflict. Close other tabs or refresh the page")
      context (Some error)
  else if str_eqb errorName (js "InvalidStateError")
          || str_eqb errorName (js "UnknownError")
          || str_eqb errorName (js "NotFoundError") then
    new_StorageError OPERATION_FAILED
      (js "Storage operation failed: " ++ Error.message error)
      context (Some error)
  else
    new_StorageError OPERATION_FAILED
      (js "Storage operation failed: " ++ Error.message error)
      context (Some error).

End StorageError.

Module StorageErrors.

Definition unavailable (message : option jsstring) : StorageError :=
  new_StorageError STORAGE_UNAVAILABLE
    match message with
    | Some ((_ :: _) as m) => m
    | _ => js "No storage backend available. Both IndexedDB and localStorage are unavailable"
    end
    None None.

Definition quotaExceeded (size : option number) : StorageError :=
  new_StorageError QUOTA_EXCEEDED
    (js "Storage quota exceeded. Consider clearing old data or using a smaller payload")
    match size with
    | Some n =>
        if truthy (VNumber n) then Some [(js "attemptedSize", VNumber n)]
        else None
    | None => None
    end
    None.

(** On the string that the template literal makes of [type]; see
    [throw_invalidValue] for the conversion. *)
Definition invalidValue (type : jsstring) : StorageError :=
  new_StorageError INVALID_VALUE
    (js "Cannot store value of type " ++ [QUOTE] ++ type ++ [QUOTE]
     ++ js ". Supported types: primitives, objects, arrays, Date, RegExp, Blob, File, ArrayBuffer, TypedArrays")
    None None.

Definition timeout (operation : jsstring) : StorageError :=
  new_StorageError TIMEOUT
    (js "Operation " ++ [QUOTE] ++ operation ++ [QUOTE]
     ++ js " timed out after 5 seconds")
    None None.

Definition corruption (key : jsstring) : StorageError :=
  new_StorageError CORRUPTION
    (js "Data corruption detected for key " ++ [QUOTE] ++ key ++ [QUOTE]
     ++ js ". Returning null")
    (Some [(js "key", VString key)]) None.

Definition invalidKey (reason : jsstring) : StorageError :=
  new_StorageError INVALID_VALUE (js "Invalid key: " ++ reason) None None.

End StorageErrors.

Definition throw {A : Type} (e : StorageError) : completion A :=
  Throw (ThrownStorageError e).

(** ** validation.ts *)

Definition validateKey (key : Value) : completion unit :=
  match key with
  | VString s =>
      if Nat.eqb (length s) 0 then
        throw (StorageErrors.invalidKey (js "Key cannot be empty"))
      else if Nat.ltb 1000 (length s) then
        throw (StorageErrors.invalidKey
                 (js "Key too long ("
                  ++ Number_toString (number_of_nat (length s))
                  ++ js " characters). Maximum is 1000 characters"))
      else Return tt
  | _ =>
      (* typeof key !== 'string' *)
      throw (StorageErrors.invalidKey
               (js "Key must be a string, got " ++ typeof key))
  end.

Definition isPlainObject (value : Value) : bool :=
  if negb (str_eqb (typeof value) (js "object"))
     || match value with VNull => true | _ => false end
  then false
  else
    (* the prototype is Object.prototype or null *)
    match value with
    | VObject _ => true
    | _ => false
    end.

Fixpoint isSerializable (value : Value) : bool :=
  if match value with VNull | VUndefined => true | _ => false end then true
  else
    let type := typeof value in
    if str_eqb type (js "string") || str_eqb type (js "number")
       || str_eqb type (js "boolean")
    then true
    else if instanceof_Date value then true
    else if instanceof_RegExp value then true
    else if instanceof_Blob value then true
    else if instanceof_File value then true
    else if instanceof_ArrayBuffer value then true
    else if ArrayBuffer_isView value then true
    else
      match value with
      | VArray items =>
          (* Array.isArray(value) *)
          forallb isSerializable items
      | VObject props =>
          (* isPlainObject(value), over Object.values(value) *)
          forallb (fun p => isSerializable (snd p)) props
      | _ => false
      end.

(** [c?.name] for the value [c] of a [constructor] property: the name of
    a function, the [name] property of a plain object, the name of a
    [File]; [undefined] on [null], [undefined] and every other value, none
    of which has or inherits a property [name].  A class instance may
    inherit an accessor: not modelled unless the property is its own. *)
Definition name_of_constructor (c : Value) : completion Value :=
  match c with
  | VFunction name => Return (VString name)
  | VObject props =>
      Return match lookup (js "name") props with
             | Some n => n
             | None => VUndefined
             end
  | VFile _ name _ _ => Return (VString name)
  | VInstance _ props =>
      match lookup (js "name") props with
      | Some n => Return n
      | None => Unmodelled
      end
  | _ => Return VUndefined
  end.

(** [value.constructor?.name || 'Object'] for an object that is none of the
    built-ins tested before it.  An own property called [constructor]
    hides the inherited one, and the expression then yields whatever its
    [name] is, of any type, when that is truthy. *)
Definition constructor_name_or_Object (value : Value) : completion Value :=
  let or_Object (c : Value) : completion Value :=
    n <- name_of_constructor c ;;
    Return (if truthy n then n else VString (js "Object")) in
  match value with
  | VObject props =>
      match lookup (js "constructor") props with
      | Some c => or_Object c
      | None => Return (VString (js "Object"))
      end
  | VMap _ => Return (VString (js "Map"))
  | VSet _ => Return (VString (js "Set"))
  | VInstance className props =>
      match lookup (js "constructor") props with
      | Some c => or_Object c
      | None => Return (VString match className with
                                | [] => js "Object"
                                | _ => className
                                end)
      end
  | _ => Unmodelled
  end.

(** Declared to return a string; at run time the result is a string in
    every case but the last, where it is the value found. *)
Definition getTypeName (value : Value) : completion Value :=
  match value with
  | VNull => Return (VString (js "null"))
  | VUndefined => Return (VString (js "undefined"))
  | _ =>
      if Array_isArray value then Return (VString (js "Array"))
      else if instanceof_Date value then Return (VString (js "Date"))
      else if instanceof_RegExp value then Return (VString (js "RegExp"))
      else if instanceof_File value then Return (VString (js "File"))
      else if instanceof_Blob value then Return (VString (js "Blob"))
      else if instanceof_ArrayBuffer value
      then Return (VString (js "ArrayBuffer"))
      else
        match value with
        | VView kind _ _ _ =>
            (* ArrayBuffer.isView(value): value.constructor.name *)
            Return (VString (ViewKind_name kind))
        | _ =>
            let type := typeof value in
            if str_eqb type (js "object") then constructor_name_or_Object value
            else Return (VString type)
        end
  end.

(** [throw StorageErrors.invalidValue(getTypeName(value))]: the template
    literal in [invalidValue] converts the name it is given to a string,
    which throws when the name is a symbol or an object that cannot be
    converted. *)
Definition throw_invalidValue {A : Type} (value : Value) : completion A :=
  type <- getTypeName value ;;
  text <- ToString type ;;
  throw (StorageErrors.invalidValue text).

(** ** core/serializer.ts *)

Module Serializer.

(** The object literal [{ __v: 1, __t: tag, data: data, meta: meta }],
    [meta] present when given. *)
Definition envelope (tag : string) (data : Value)
  (meta : option (list (jsstring * Value))) : Value :=
  VObject ([(js "__v", VNumber number_one); (js "__t", VString (js tag));
            (js "data", data)]
           ++ match meta with
              | Some m => [(js "meta", VObject m)]
              | None => []
              end).

(** *** Conversion utilities *)

(** The promise of [blobToBase64]: the part of the data URL between its
    first and second comma, rejected when missing or empty. *)
Definition blobToBase64 (bytes : list byte) (type : jsstring)
  : completion jsstring :=
  result <- readAsDataURL bytes type ;;
  match nth_error (split_on COMMA result) 1 with
  | Some ((_ :: _) as base64) => Return base64
  | _ =>
      Throw (ThrownError (new_Error (js "Failed to convert Blob to base64")))
  end.

(** The loop that copies a binary string into a fresh [Uint8Array]. *)
Definition binaryStringToBytes (binaryString : jsstring) : list byte :=
  fold_left
    (fun bytes i => set_index bytes i (ToUint8 (charCodeAt binaryString i)))
    (seq 0 (length binaryString))
    (repeat x00 (length binaryString)).

Definition base64ToBlob (base64 type : Value) : completion Value :=
  s <- ToString base64 ;;
  binaryString <- atob s ;;
  let bytes := binaryStringToBytes binaryString in
  (* new Blob([bytes], { type: type || '' }) *)
  t <- (if truthy type then ToString type else Return []) ;;
  Return (new_Blob bytes t).

Definition base64ToFile (base64 name type lastModified : Value)
  : completion Value :=
  blob <- base64ToBlob base64 type ;;
  (* new File([blob], name, { type, lastModified }); a missing
     lastModified is the current time, and one that is not a number is
     converted to one first: neither is modelled *)
  n <- ToString name ;;
  t <- match type with
       | VUndefined => Return []
       | _ => ToString type
       end ;;
  match blob, lastModified with
  | VBlob bytes _, VNumber x => Return (new_File bytes n t (to_long_long x))
  | _, _ => Unmodelled
  end.

Definition arrayBufferToBase64 (buffer : list byte) : completion jsstring :=
  let bytes := buffer in
  let binary :=
    fold_left
      (fun binary b => binary ++ [String_fromCharCode (Byte.to_N b)])
      bytes [] in
  btoa binary.

Definition base64ToArrayBuffer (base64 : Value) : completion Value :=
  s <- ToString base64 ;;
  binaryString <- atob s ;;
  Return (VArrayBuffer (binaryStringToBytes binaryString)).

(** *** Envelopes *)

Definition serializeBlob (bytes : list byte) (type : jsstring)
  : completion Value :=
  base64 <- blobToBase64 bytes type ;;
  Return (envelope "blob" (VString base64)
            (Some [(js "type", VString type);
                   (js "size", VNumber (number_of_nat (length bytes)))])).

Definition serializeFile (bytes : list byte) (name type : jsstring)
  (lastModified : Z) : completion Value :=
  base64 <- blobToBase64 bytes type ;;
  Return (envelope "file" (VString base64)
            (Some [(js "name", VString name);
                   (js "type", VString type);
                   (js "size", VNumber (number_of_nat (length bytes)));
                   (js "lastModified", VNumber (number_of_Z lastModified))])).

Definition serializeArrayBuffer (buffer : list byte) : completion Value :=
  base64 <- arrayBufferToBase64 buffer ;;
  Return (envelope "arraybuffer" (VString base64)
            (Some [(js "byteLength",
                    VNumber (number_of_nat (length buffer)))])).

Definition serializeTypedArray (buffer : list byte)
  (byteOffset byteLength : nat) : completion Value :=
  let buffer :=
    ArrayBuffer_slice buffer byteOffset (byteOffset + byteLength) in
  serializeArrayBuffer buffer.

Definition createEnvelope (value : Value) : completion Value :=
  match value with
  | VNull => Return (envelope "null" VNull None)
  | VUndefined => Return (envelope "undefined" VNull None)
  | _ =>
  let primitiveType := typeof value in
  if str_eqb primitiveType (js "string") then
    Return (envelope "string" value None)
  else if str_eqb primitiveType (js "number") then
    Return (envelope "number" value None)
  else if str_eqb primitiveType (js "boolean") then
    Return (envelope "boolean" value None)
  else
  match value with
  | VDate tv =>
      (* value.toISOString() *)
      match tv with
      | Some t => Return (envelope "date" (VString (toISOString t)) None)
      | None => RangeError
      end
  | VRegExp source flags =>
      Return (envelope "regexp" (VString source)
                (Some [(js "flags", VString (flags_string flags))]))
  | VFile bytes name type lastModified =>
      serializeFile bytes name type lastModified
  | VBlob bytes type => serializeBlob bytes type
  | VArrayBuffer bytes => serializeArrayBuffer bytes
  | VView _ buffer byteOffset byteLength =>
      serializeTypedArray buffer byteOffset byteLength
  | VArray _ => Return (envelope "array" value None)
  | _ =>
      if isPlainObject value then Return (envelope "object" value None)
      else
        throw_invalidValue value
  end
  end.

Definition new_Date (data : Value) : completion Value :=
  match data with
  | VString s =>
      match Date_parse s with
      | Some tv => Return (VDate tv)
      | None => Unmodelled
      end
  | _ => Unmodelled
  end.

(** [new RegExp(data, flags)] on a pattern string and a flag string or
    [undefined]. *)
Definition construct_RegExp (data flags : Value) : completion Value :=
  match data, flags with
  | VString pattern, VString f => new_RegExp pattern f
  | VString pattern, VUndefined => new_RegExp pattern []
  | _, _ => Unmodelled
  end.

Definition extractValue (envelope : Value) : completion Value :=
  version <- Get envelope (js "__v") ;;
  if negb match version with
          | VNumber n => number_eqb n number_one
          | _ => false
          end
  then
    s <- ToString version ;;
    throw (new_StorageError CORRUPTION
             (js "Unsupported envelope format version: " ++ s) None None)
  else
    type <- Get envelope (js "__t") ;;
    data <- Get envelope (js "data") ;;
    meta <- Get envelope (js "meta") ;;
    if is_string type (js "null") then Return VNull
    else if is_string type (js "undefined") then Return VUndefined
    else if is_string type (js "string") || is_string type (js "number")
            || is_string type (js "boolean")
    then Return data
    else if is_string type (js "object") || is_string type (js "array")
    then Return data
    else if is_string type (js "date") then new_Date data
    else if is_string type (js "regexp") then
      flags <- GetOptional meta (js "flags") ;;
      construct_RegExp data flags
    else if is_string type (js "blob") then
      t <- GetOptional meta (js "type") ;;
      base64ToBlob data t
    else if is_string type (js "file") then
      name <- GetOptional meta (js "name") ;;
      t <- GetOptional meta (js "type") ;;
      lastModified <- GetOptional meta (js "lastModified") ;;
      base64ToFile data name t lastModified
    else if is_string type (js "arraybuffer") then base64ToArrayBuffer data
    else
      s <- ToString type ;;
      throw (new_StorageError CORRUPTION
               (js "Unknown type in envelope: " ++ s) None None).

Definition serialize (value : Value) : completion jsstring :=
  if negb (isSerializable value) then
    throw_invalidValue value
  else
    envelope <- createEnvelope value ;;
    text <- JSON_stringify envelope ;;
    match text with
    | Some json => Return json
    | None => Unmodelled   (* not reached: an envelope is an object *)
    end.

(** The [try] block, then the [catch]: a [StorageError] is thrown again,
    any other exception is logged and answered with [null]. *)
Definition deserialize (json : jsstring) : completion Value :=
  let attempt :=
    match JSON_parse json with
    | Some envelope => extractValue envelope
    | None => SyntaxError
    end in
  match attempt with
  | Throw (ThrownStorageError error) => Throw (ThrownStorageError error)
  | Throw (ThrownError _) => Return VNull
  | outcome => outcome
  end.

End Serializer.

(* ================================================================== *)
(** * Part III. Vocabulary of the statements *)
(* ================================================================== *)

(** A text written with the apostrophe standing for the double quote, as
    in [jsq "{'__v':2}"]. *)
Definition jsq (s : string) : jsstring :=
  map (fun c => if N.eqb c 39 then QUOTE else c) (js s).

(** ** Values that JSON text carries unchanged

    [null], booleans, strings, finite numbers other than minus zero, and
    arrays and plain objects built from these. *)

Fixpoint distinct_keys {A : Type} (props : list (jsstring * A)) : bool :=
  match props with
  | [] => true
  | (k, _) :: rest => negb (has_key k rest) && distinct_keys rest
  end.

Definition json_number (n : number) : bool :=
  is_finite n && canonical n
  && match n with Zero true => false | _ => true end.

Fixpoint json_faithful (v : Value) : bool :=
  match v with
  | VNull | VBoolean _ | VString _ => true
  | VNumber n => json_number n
  | VArray items => forallb json_faithful items
  | VObject props =>
      distinct_keys props && forallb (fun p => json_faithful (snd p)) props
  | _ => false
  end.

Definition member_text (text : Value -> jsstring) (p : jsstring * Value)
  : jsstring :=
  QuoteJSONString (fst p) ++ [COLON] ++ text (snd p).

(** The text [JSON.stringify] writes for such a value. *)
Fixpoint json_text (v : Value) : jsstring :=
  match v with
  | VNull => js "null"
  | VBoolean b => if b then js "true" else js "false"
  | VNumber n => Number_toString n
  | VString s => QuoteJSONString s
  | VArray items =>
      [LBRACKET] ++ join [COMMA] (map json_text items) ++ [RBRACKET]
  | VObject props =>
      [LBRACE] ++ join [COMMA] (map (member_text json_text) props) ++ [RBRACE]
  | _ => []
  end.

(** ** Values the codec returns unchanged

    Besides the JSON-faithful ones: [undefined]; a valid [Date]; a [RegExp]
    (the flags [u] and [v] exclude each other); a [Blob] or [File] with at
    least one byte and a type the constructor keeps as it is and that holds
    no comma, the file's name free of lone surrogates and its time stamp an
    integer a Number holds exactly; any [ArrayBuffer]. *)

Definition blob_faithful (bytes : list byte) (type : jsstring) : bool :=
  match bytes with [] => false | _ :: _ => true end
  && negb (existsb (N.eqb COMMA) type)
  && str_eqb (normalize_type type) type.

Definition roundtrips (v : Value) : bool :=
  match v with
  | VUndefined => true
  | VNull | VBoolean _ | VNumber _ | VString _ | VArray _ | VObject _ =>
      json_faithful v
  | VDate (Some tv) => (Z.abs tv <=? maxTime)%Z
  | VRegExp _ flags => negb (unicode flags && unicodeSets flags)
  | VBlob bytes type => blob_faithful bytes type
  | VFile bytes name type lastModified =>
      blob_faithful bytes type && str_eqb (toUSVString name) name
      && (Z.abs lastModified <=? 2 ^ 53)%Z
  | VArrayBuffer _ => true
  | _ => false
  end.

(** ** Envelopes *)

(** The closed enumeration [ValueType] of types.ts. *)
Definition ValueTypes : list string :=
  ["string"; "number"; "boolean"; "null"; "undefined"; "object"; "array";
   "date"; "regexp"; "blob"; "file"; "arraybuffer"]%string.

Definition known_tag (t : Value) : bool :=
  existsb (fun tag => is_string t (js tag)) ValueTypes.

(** [version === 1]. *)
Definition is_version_1 (version : Value) : bool :=
  match version with
  | VNumber n => number_eqb n number_one
  | _ => false
  end.

Definition is_envelope (env : Value) : Prop :=
  exists tag data meta,
    env = Serializer.envelope tag data meta /\ In tag ValueTypes.

(** A JSON primitive other than [null]. *)
Definition is_primitive (v : Value) : bool :=
  match v with
  | VNumber _ | VString _ | VBoolean _ => true
  | _ => false
  end.

(** The call does not end in a [StorageError]. *)
Definition no_StorageError {A : Type} (c : completion A) : Prop :=
  forall e, c <> throw e.

(** ** Side conditions of the reader *)

Definition is_byte (a : N) : Prop := (a < 256)%N.

(** What may follow a run of digits: not a digit. *)
Definition not_digit_head (s : jsstring) : Prop :=
  match s with
  | [] => True
  | c :: _ => digit_of_unit c = None
  end.

(** What may follow a number in a text: nothing that would continue it. *)
Definition number_delimiter (rest : jsstring) : Prop :=
  match rest with
  | [] => True
  | c :: _ =>
      digit_of_unit c = None /\ c <> DOT /\ c <> LOWER_E /\ c <> UPPER_E
  end.

Definition integer_part_ok (int : list digit) : Prop :=
  match int with
  | [] => False
  | D0 :: _ :: _ => False
  | _ => True
  end.

Definition number_start (c : code_unit) : Prop :=
  c = MINUS \/ exists d, c = digit_unit d.

(** Reading back the text of [v], whatever follows it, with fuel for its
    length. *)
Definition parses (v : Value) : Prop :=
  json_faithful v = true ->
  forall fuel rest,
    length (json_text v) <= fuel -> number_delimiter rest ->
    parse_value fuel (json_text v ++ rest) = Some (v, rest).

(** All 256 byte values, in order. *)
Definition all_bytes : list byte :=
  map (fun n => ToUint8 (Some (N.of_nat n))) (seq 0 256).

Ltac byte_bounds :=
  repeat match goal with
         | H : Forall is_byte (_ :: _) |- _ => inversion H; subst; clear H
         | H : Forall is_byte [] |- _ => clear H
         end;
  unfold is_byte in *.

(** ** Sample inputs *)

Definition sample_record : Value :=
  VObject [(js "name", VString (js "John"));
           (js "age", VNumber (number_of_nat 30));
           (js "tags", VArray [VNull; VBoolean true; VString (js "a b")])].

Definition sample_view : Value :=
  VView Float32Array [x01; x02; x03; x04; x05; x06; x07; x08] 4 4.

Definition sample_error : Error.t :=
  {| Error.name := js "DataCloneError"; Error.message := js "boom" |}.

(** Rejected objects with a [constructor] property of their own:
    [{ constructor: { name: Symbol() }, f() {} }], the same with the name
    [{ toString: 1 }], and with the name ["Foo"]. *)
Definition sample_symbol_name : Value :=
  VObject [(js "constructor", VObject [(js "name", VSymbol [])]);
           (js "f", VFunction (js "f"))].

Definition sample_object_name : Value :=
  VObject [(js "constructor",
            VObject [(js "name",
                      VObject [(js "toString", VNumber number_one)])]);
           (js "f", VFunction (js "f"))].

Definition sample_string_name : Value :=
  VObject [(js "constructor", VObject [(js "name", VString (js "Foo"))]);
           (js "f", VFunction (js "f"))].

(** ** Nested values *)

(** The value, the elements of the arrays and the property values of the
    plain objects in it, at every depth: what [isSerializable] visits. *)
Fixpoint parts (v : Value) : list Value :=
  v :: match v with
       | VArray items => flat_map parts items
       | VObject props => flat_map (fun p => parts (snd p)) props
       | _ => []
       end.

(** The values of no supported type. *)
Definition unsupported (v : Value) : bool :=
  match v with
  | VBigInt _ | VSymbol _ | VFunction _ | VMap _ | VSet _ | VInstance _ _ =>
      true
  | _ => false
  end.

(** A unit of the base64 alphabet, or the padding sign. *)
Definition b64_unit (c : code_unit) : bool :=
  match b64_sextet c with
  | Some _ => true
  | None => N.eqb c EQUALS
  end.

(** ** What [JSON.parse] builds *)

(** [null], booleans, numbers, strings, and arrays and objects of these. *)
Fixpoint is_json (v : Value) : bool :=
  match v with
  | VNull | VBoolean _ | VNumber _ | VString _ => true
  | VArray items => forallb is_json items
  | VObject props => forallb (fun p => is_json (snd p)) props
  | _ => false
  end.

(** ** What a round trip through JSON leaves of a value

    [json_image v] is the value [JSON.parse] reads from the text that
    [JSON.stringify] writes for [v], [None] where it writes nothing: a
    number that is not finite becomes [null] and minus zero becomes zero, a
    [Date] becomes its ISO string, or [null] when invalid, the other
    built-in objects become the empty object, an element that writes
    nothing becomes [null] and such a property is left out.  Typed arrays,
    bigints and class instances, which the writer of the model does not
    cover, are given [None] as well and are excluded by [json_ready]. *)

Definition json_image_number (n : number) : Value :=
  if is_finite n then
    match n with
    | Zero _ => VNumber (Zero false)
    | _ => VNumber n
    end
  else VNull.

Fixpoint json_image (v : Value) : option Value :=
  match v with
  | VUndefined | VSymbol _ | VFunction _ => None
  | VNull | VBoolean _ | VString _ => Some v
  | VNumber n => Some (json_image_number n)
  | VDate tv =>
      Some match tv with
           | Some t => VString (toISOString t)
           | None => VNull
           end
  | VArray items =>
      Some (VArray (map (fun x => match json_image x with
                                  | Some y => y
                                  | None => VNull
                                  end) items))
  | VObject props =>
      Some (VObject (flat_map (fun p => match json_image (snd p) with
                                        | Some y => [(fst p, y)]
                                        | None => []
                                        end) props))
  | VRegExp _ _ | VBlob _ _ | VFile _ _ _ _ | VArrayBuffer _
  | VMap _ | VSet _ | VView DataView _ _ _ => Some (VObject [])
  | VBigInt _ | VView _ _ _ _ | VInstance _ _ => None
  end.

(** Values as the language has them and the writer of the model covers
    them: numbers in canonical form, dates within the range of time
    values, objects without a repeated key, no typed array inside an array
    or object. *)
Fixpoint json_ready (v : Value) : bool :=
  match v with
  | VNumber n => canonical n
  | VDate (Some tv) => (Z.abs tv <=? maxTime)%Z
  | VArray items => forallb json_ready items
  | VObject props =>
      distinct_keys props && forallb (fun p => json_ready (snd p)) props
  | VView kind _ _ _ =>
      match kind with DataView => true | _ => false end
  | _ => true
  end.

(** The values whose envelope holds them as they are: [typeof] is
    [string], [number] or [boolean], or the value is [null], an array or a
    plain object. *)
Definition kept_as_data (v : Value) : bool :=
  match v with
  | VNull | VBoolean _ | VNumber _ | VString _ | VArray _ | VObject _ => true
  | _ => false
  end.

(** An array that a round trip changes. *)
Definition sample_lossy : Value :=
  VArray [VDate (Some 0%Z); VUndefined; VNumber NaN; VNumber (Zero true);
          VObject [(js "a", VUndefined);
                   (js "b", VRegExp (js "x") no_flags);
                   (js "c", VArrayBuffer [x01])]].

(** ** Numbers read as the engine reads them

    The reader of the model keeps every digit of a literal where the
    engine rounds to the nearest double.  On an integer of magnitude up to
    2^53 the two agree, and [Number::toString] prints such a number the
    same way in both. *)

Definition safe_integer (n : number) : bool :=
  match n with
  | Zero _ => true
  | Finite _ ds e =>
      let k := Z.of_nat (length ds) in
      if canonical_digits ds && (k <=? e)%Z && (e <=? 16)%Z
      then (Z.of_N (digits_N ds) * 10 ^ (e - k) <=? 2 ^ 53)%Z
      else false
  | _ => false
  end.

(** A parsed value all of whose numbers are such integers. *)
Fixpoint read_exactly (v : Value) : bool :=
  match v with
  | VNumber n => safe_integer n
  | VArray items => forallb read_exactly items
  | VObject props => forallb (fun p => read_exactly (snd p)) props
  | _ => true
  end.

(** ** Proof steps *)

(** Splits a chain of [obind] that returned. *)
Ltac obind_inv H :=
  repeat match type of H with
         | obind ?o _ = Some _ =>
             let E := fresh "E" in
             destruct o as [?|] eqn:E; cbn [obind] in H; [|discriminate H]
         | (let (_, _) := ?p in _) = Some _ => destruct p
         | (let ' (_, _) := ?p in _) = Some _ => destruct p
         end.

(** Identifies the text of a hypothesis [serialize v = Return json] with
    the one [H1] gives for the same value. *)
Ltac same_text H1 :=
  match type of H1 with
  | Serializer.serialize _ = Return ?t =>
      match goal with
      | Hser : Serializer.serialize _ = Return ?j |- _ =>
          assert (j = t) by congruence; subst j
      end
  end.

Ltac decoded H1 H2 := same_text H1; eexists; exact H2.

Import Serializer.

(* ================================================================== *)
(** * Part IV. Facts about the platform and the helpers *)
(* ================================================================== *)

(** ** Strings *)

Lemma str_eqb_spec (a b : jsstring) : str_eqb a b = true <-> a = b.
Proof.
  revert b; induction a as [|x a IH]; intros [|y b]; simpl; split; try easy.
  - rewrite andb_true_iff, N.eqb_eq, IH. intros [-> ->]; reflexivity.
  - intros [= -> ->]. rewrite N.eqb_refl. apply IH; reflexivity.
Qed.

Lemma str_eqb_refl (a : jsstring) : str_eqb a a = true.
Proof. apply str_eqb_spec; reflexivity. Qed.

Lemma str_eqb_neq (a b : jsstring) : a <> b -> str_eqb a b = false.
Proof.
  intros H. destruct (str_eqb a b) eqn:E; [|reflexivity].
  apply str_eqb_spec in E. contradiction.
Qed.


(** ** Digits and numbers *)

(** ** Digits *)

Lemma digit_of_unit_unit (d : digit) : digit_of_unit (digit_unit d) = Some d.
Proof. destruct d; reflexivity. Qed.

Lemma digit_of_N_value (d : digit) : digit_of_N (digit_value d) = d.
Proof. destruct d; reflexivity. Qed.

Lemma digit_value_of_N (n : N) : digit_value (digit_of_N n) = (n mod 10)%N.
Proof.
  unfold digit_of_N. pose proof (N.mod_lt n 10 ltac:(lia)) as H.
  destruct (n mod 10)%N as [|p] eqn:E; [reflexivity|].
  do 4 (destruct p as [p|p|]; try reflexivity; try lia).
Qed.

Lemma digit_value_lt (d : digit) : (digit_value d < 10)%N.
Proof. destruct d; cbn; lia. Qed.

Lemma span_digits_units (ds : list digit) (rest : jsstring) :
  not_digit_head rest ->
  span_digits (digit_units ds ++ rest) = (ds, rest).
Proof.
  intros Hrest. induction ds as [|d ds IH]; cbn [digit_units map app].
  - destruct rest as [|c rest]; [reflexivity|].
    cbn [span_digits]. cbn in Hrest. rewrite Hrest. reflexivity.
  - cbn [span_digits]. rewrite digit_of_unit_unit.
    unfold digit_units in IH. rewrite IH. reflexivity.
Qed.

Lemma digits_N_app (ds es : list digit) :
  digits_N (ds ++ es)
  = fold_left (fun acc d => (10 * acc + digit_value d)%N) es (digits_N ds).
Proof. unfold digits_N. apply fold_left_app. Qed.

Lemma N_digits_aux_value (fuel : nat) (n : N) (acc : list digit) :
  (n < 2 ^ N.of_nat fuel)%N ->
  fold_left (fun a d => (10 * a + digit_value d)%N) (N_digits_aux fuel n acc) 0%N
  = fold_left (fun a d => (10 * a + digit_value d)%N) acc n.
Proof.
  revert n acc. induction fuel as [|fuel IH]; intros n acc Hn.
  - cbn in Hn. assert (n = 0%N) by lia. subst. reflexivity.
  - cbn [N_digits_aux]. destruct (N.ltb_spec n 10) as [Hlt|Hge].
    + cbn [fold_left]. rewrite digit_value_of_N, N.mod_small by lia.
      f_equal.
    + rewrite IH.
      * cbn [fold_left]. rewrite digit_value_of_N. f_equal.
        pose proof (N.div_mod n 10 ltac:(lia)). lia.
      * rewrite Nat2N.inj_succ, N.pow_succ_r' in Hn.
        apply N.Div0.div_lt_upper_bound. lia.
Qed.

Lemma N_lt_pow2_log2 (n : N) : (n < 2 ^ N.of_nat (S (N.to_nat (N.log2 n))))%N.
Proof.
  rewrite Nat2N.inj_succ, N2Nat.id.
  destruct n as [|p]; [cbn; lia|].
  apply N.log2_spec. lia.
Qed.

Lemma digits_N_digits (n : N) : digits_N (N_digits n) = n.
Proof.
  unfold digits_N, N_digits. rewrite N_digits_aux_value; [reflexivity|].
  apply N_lt_pow2_log2.
Qed.

Lemma N_digits_aux_head (fuel : nat) (n : N) (acc : list digit) :
  (0 < n < 2 ^ N.of_nat fuel)%N ->
  exists d ds, N_digits_aux fuel n acc = d :: ds /\ d <> D0.
Proof.
  revert n acc. induction fuel as [|fuel IH]; intros n acc Hn.
  - cbn in Hn. lia.
  - cbn [N_digits_aux]. destruct (N.ltb_spec n 10) as [Hlt|Hge].
    + exists (digit_of_N n), acc. split; [reflexivity|].
      intros E. apply (f_equal digit_value) in E.
      rewrite digit_value_of_N, N.mod_small in E by lia. cbn in E. lia.
    + apply IH. rewrite Nat2N.inj_succ, N.pow_succ_r' in Hn. split.
      * apply N.div_str_pos. lia.
      * apply N.Div0.div_lt_upper_bound. lia.
Qed.

Lemma N_digits_head (n : N) :
  (0 < n)%N -> exists d ds, N_digits n = d :: ds /\ d <> D0.
Proof.
  intros H. apply N_digits_aux_head. split; [assumption|apply N_lt_pow2_log2].
Qed.

Lemma N_digits_aux_nonempty (fuel : nat) (n : N) (acc : list digit) :
  N_digits_aux (S fuel) n acc <> [].
Proof.
  revert n acc. induction fuel as [|fuel IH]; intros n acc.
  - cbn. destruct (n <? 10)%N; discriminate.
  - cbn [N_digits_aux]. destruct (n <? 10)%N; [discriminate|].
    apply (IH (n / 10)%N).
Qed.

Lemma N_digits_nonempty (n : N) : N_digits n <> [].
Proof. apply N_digits_aux_nonempty. Qed.

Lemma fixed_digits_length (w : nat) (n : N) : length (fixed_digits w n) = w.
Proof.
  revert n; induction w as [|w IH]; intros n; cbn [fixed_digits]; [reflexivity|].
  rewrite length_app, IH. cbn. lia.
Qed.

Lemma digits_N_fixed (w : nat) (n : N) :
  digits_N (fixed_digits w n) = (n mod 10 ^ N.of_nat w)%N.
Proof.
  revert n; induction w as [|w IH]; intros n; cbn [fixed_digits].
  - cbn. rewrite N.mod_1_r. reflexivity.
  - rewrite digits_N_app, IH. cbn [fold_left]. rewrite digit_value_of_N.
    rewrite Nat2N.inj_succ, N.pow_succ_r'.
    rewrite N.Div0.mod_mul_r. lia.
Qed.

(** ** Zeros at either end *)

Lemma strip_leading_zeros_repeat (m : nat) (ds : list digit) :
  strip_leading_zeros (repeat D0 m ++ ds) = strip_leading_zeros ds.
Proof. induction m as [|m IH]; cbn; auto. Qed.

Lemma rev_repeat {A : Type} (x : A) (m : nat) : rev (repeat x m) = repeat x m.
Proof.
  induction m as [|m IH]; [reflexivity|].
  cbn [repeat rev]. rewrite IH. clear IH.
  induction m as [|m IH]; [reflexivity|]. cbn [repeat app]. rewrite IH. reflexivity.
Qed.

Lemma strip_trailing_zeros_repeat (ds : list digit) (m : nat) :
  strip_trailing_zeros (ds ++ repeat D0 m) = strip_trailing_zeros ds.
Proof.
  unfold strip_trailing_zeros.
  rewrite rev_app_distr, rev_repeat, strip_leading_zeros_repeat. reflexivity.
Qed.

Lemma strip_trailing_zeros_canonical (ds : list digit) :
  last_digit_nonzero ds = true -> strip_trailing_zeros ds = ds.
Proof.
  unfold last_digit_nonzero, strip_trailing_zeros. intros H.
  rewrite <- (rev_involutive ds) at 2. f_equal.
  destruct (rev ds) as [|d l]; [reflexivity|].
  destruct d; try reflexivity. discriminate.
Qed.

Lemma drop_zeros_repeat (m : nat) (ds : list digit) (n : Z) :
  drop_zeros (repeat D0 m ++ ds) n = drop_zeros ds (n - Z.of_nat m)%Z.
Proof.
  revert n; induction m as [|m IH]; intros n.
  - cbn [repeat app]. f_equal. lia.
  - cbn [repeat app drop_zeros]. rewrite IH. f_equal. lia.
Qed.

Lemma canonical_digits_spec (ds : list digit) :
  canonical_digits ds = true ->
  (exists d rest, ds = d :: rest /\ d <> D0) /\ last_digit_nonzero ds = true.
Proof.
  destruct ds as [|d rest]; [discriminate|].
  destruct d; try discriminate; intros H; (split; [eexists _, _; split; [reflexivity|discriminate]|exact H]).
Qed.

Lemma drop_zeros_canonical (ds : list digit) (n : Z) :
  canonical_digits ds = true -> drop_zeros ds n = (ds, n).
Proof.
  intros H. apply canonical_digits_spec in H. destruct H as [(d & rest & -> & Hd) _].
  destruct d; try reflexivity. contradiction.
Qed.

Lemma normalize_canonical (neg : bool) (ds : list digit) (n : Z) :
  canonical_digits ds = true -> normalize neg ds n = Finite neg ds n.
Proof.
  intros H. unfold normalize. rewrite drop_zeros_canonical by assumption.
  rewrite strip_trailing_zeros_canonical by (apply canonical_digits_spec; assumption).
  destruct ds; [discriminate|reflexivity].
Qed.

Lemma normalize_trailing (neg : bool) (ds : list digit) (m : nat) (n : Z) :
  canonical_digits ds = true ->
  normalize neg (ds ++ repeat D0 m) n = Finite neg ds n.
Proof.
  intros H. unfold normalize.
  pose proof (canonical_digits_spec _ H) as [(d & rest & -> & Hd) Hl].
  assert (E : drop_zeros ((d :: rest) ++ repeat D0 m) n
              = ((d :: rest) ++ repeat D0 m, n))
    by (destruct d; try reflexivity; contradiction).
  rewrite E, strip_trailing_zeros_repeat, strip_trailing_zeros_canonical by assumption.
  reflexivity.
Qed.

Lemma normalize_leading (neg : bool) (ds : list digit) (m : nat) (n : Z) :
  canonical_digits ds = true ->
  normalize neg (repeat D0 m ++ ds) n = Finite neg ds (n - Z.of_nat m).
Proof.
  intros H. unfold normalize. rewrite drop_zeros_repeat, drop_zeros_canonical by assumption.
  rewrite strip_trailing_zeros_canonical by (apply canonical_digits_spec; assumption).
  destruct ds; [discriminate|reflexivity].
Qed.

Lemma number_delimiter_not_digit (rest : jsstring) :
  number_delimiter rest -> not_digit_head rest.
Proof. destruct rest; cbn; tauto. Qed.

Lemma parse_number_parts (negative : bool) (s s2 s3 s4 : jsstring)
  (int frac : list digit) (e : Z) :
  match s with c :: _ => c <> MINUS | [] => True end ->
  span_digits s = (int, s2) ->
  integer_part_ok int ->
  read_fraction s2 = Some (frac, s3) ->
  read_exponent s3 = Some (e, s4) ->
  parse_number ((if negative then [MINUS] else []) ++ s)
  = Some (normalize negative (int ++ frac) (Z.of_nat (length int) + e), s4).
Proof.
  intros Hs Hint Hok Hfrac Hexp.
  assert (Step : forall neg,
    match span_digits s with
    | ([], _) => None
    | (D0 :: _ :: _, _) => None
    | (int, s2) =>
        '(frac, s3) <-? read_fraction s2 ;;
        '(e, s4) <-? read_exponent s3 ;;
        Some (normalize neg (int ++ frac) (Z.of_nat (length int) + e), s4)
    end = Some (normalize neg (int ++ frac) (Z.of_nat (length int) + e), s4)).
  { intros neg. rewrite Hint.
    destruct int as [|d int']; [contradiction|].
    destruct d; try (rewrite Hfrac; cbn [obind]; rewrite Hexp; reflexivity).
    destruct int' as [|d' int'']; [|contradiction].
    rewrite Hfrac; cbn [obind]; rewrite Hexp; reflexivity. }
  unfold parse_number. destruct negative; cbn [app].
  - rewrite N.eqb_refl. apply Step.
  - destruct s as [|c s'].
    + cbn in Hint. injection Hint as <- <-. contradiction.
    + destruct (N.eqb_spec c MINUS); [contradiction|]. apply Step.
Qed.

Lemma read_fraction_none (rest : jsstring) :
  number_delimiter rest -> read_fraction rest = Some ([], rest).
Proof.
  destruct rest as [|c rest]; [reflexivity|]. intros (_ & Hdot & _).
  cbn [read_fraction]. destruct (N.eqb_spec c DOT); [contradiction|reflexivity].
Qed.

Lemma read_fraction_some (ds : list digit) (rest : jsstring) :
  ds <> [] -> not_digit_head rest ->
  read_fraction (DOT :: digit_units ds ++ rest) = Some (ds, rest).
Proof.
  intros Hds Hrest. cbn [read_fraction]. rewrite N.eqb_refl.
  rewrite span_digits_units by assumption.
  destruct ds; [contradiction|reflexivity].
Qed.

Lemma read_exponent_none (rest : jsstring) :
  number_delimiter rest -> read_exponent rest = Some (0%Z, rest).
Proof.
  destruct rest as [|c rest]; [reflexivity|]. intros (_ & _ & He & HE).
  cbn [read_exponent].
  destruct (N.eqb_spec c LOWER_E); [contradiction|].
  destruct (N.eqb_spec c UPPER_E); [contradiction|reflexivity].
Qed.

Lemma read_exponent_some (e : Z) (rest : jsstring) :
  not_digit_head rest ->
  read_exponent
    ([LOWER_E; if (e <? 0)%Z then MINUS else PLUS]
       ++ digit_units (N_digits (Z.abs_N e)) ++ rest)
  = Some (e, rest).
Proof.
  intros Hrest.
  pose proof (N_digits_nonempty (Z.abs_N e)) as Hne.
  assert (Hspan : span_digits (digit_units (N_digits (Z.abs_N e)) ++ rest)
                  = (N_digits (Z.abs_N e), rest))
    by (apply span_digits_units; assumption).
  destruct (Z.ltb_spec e 0) as [Hneg|Hpos]; cbn [app read_exponent];
    rewrite N.eqb_refl; cbn [orb].
  - rewrite N.eqb_refl, Hspan.
    destruct (N_digits (Z.abs_N e)) as [|d ds] eqn:Hd; [contradiction|].
    rewrite <- Hd, digits_N_digits. do 2 f_equal. lia.
  - change (PLUS =? MINUS)%N with false. cbv iota. rewrite N.eqb_refl, Hspan.
    destruct (N_digits (Z.abs_N e)) as [|d ds] eqn:Hd; [contradiction|].
    rewrite <- Hd, digits_N_digits. do 2 f_equal. lia.
Qed.

Lemma digit_unit_not_minus (d : digit) : digit_unit d <> MINUS.
Proof. destruct d; discriminate. Qed.

Lemma digit_units_app (ds es : list digit) :
  digit_units (ds ++ es) = digit_units ds ++ digit_units es.
Proof. apply map_app. Qed.

Lemma digit_units_repeat (m : nat) : digit_units (repeat D0 m) = repeat ZERO m.
Proof. induction m as [|m IH]; cbn; [reflexivity|]. f_equal. exact IH. Qed.

Lemma not_digit_DOT (s : jsstring) : not_digit_head (DOT :: s).
Proof. reflexivity. Qed.

Lemma not_digit_LOWER_E (s : jsstring) : not_digit_head (LOWER_E :: s).
Proof. reflexivity. Qed.

Lemma parse_finite_toString (negative : bool) (ds : list digit) (n : Z)
  (rest : jsstring) :
  canonical_digits ds = true ->
  number_delimiter rest ->
  parse_number
    ((if negative then [MINUS] else []) ++ finite_toString ds n ++ rest)
  = Some (Finite negative ds n, rest).
Proof.
  intros Hc Hrest.
  pose proof (canonical_digits_spec _ Hc) as [(d & tl & Hds & Hd) Hlast].
  pose proof (number_delimiter_not_digit _ Hrest) as Hnd.
  unfold finite_toString.
  destruct ((Z.of_nat (length ds) <=? n)%Z && (n <=? 21)%Z) eqn:CaseA.
  { (* digits, then zeros *)
    apply andb_true_iff in CaseA. destruct CaseA as [Hk _].
    apply Z.leb_le in Hk.
    replace ((digit_units ds ++ repeat ZERO (Z.to_nat (n - Z.of_nat (length ds))))
             ++ rest)
      with (digit_units (ds ++ repeat D0 (Z.to_nat (n - Z.of_nat (length ds))))
            ++ rest)
      by (rewrite digit_units_app, digit_units_repeat; reflexivity).
    erewrite parse_number_parts; cycle 1.
    - subst ds. cbn. apply digit_unit_not_minus.
    - apply span_digits_units; assumption.
    - subst ds. cbn. destruct d; try exact I. contradiction.
    - apply read_fraction_none; assumption.
    - apply read_exponent_none; assumption.
    - rewrite app_nil_r, Z.add_0_r, normalize_trailing by assumption.
      do 3 f_equal. rewrite length_app, repeat_length. lia. }
  destruct ((0 <? n)%Z && (n <=? 21)%Z) eqn:CaseB.
  { (* digits, point, digits *)
    apply andb_true_iff in CaseB. destruct CaseB as [Hpos Hle].
    apply Z.ltb_lt in Hpos. apply Z.leb_le in Hle.
    apply andb_false_iff in CaseA.
    assert (Hlt : (n < Z.of_nat (length ds))%Z).
    { destruct CaseA as [H|H]; [apply Z.leb_gt in H; lia|].
      apply Z.leb_gt in H. lia. }
    assert (Hfirst : length (firstn (Z.to_nat n) ds) = Z.to_nat n)
      by (rewrite length_firstn; lia).
    replace ((digit_units (firstn (Z.to_nat n) ds) ++ [DOT]
              ++ digit_units (skipn (Z.to_nat n) ds)) ++ rest)
      with (digit_units (firstn (Z.to_nat n) ds)
            ++ DOT :: digit_units (skipn (Z.to_nat n) ds) ++ rest)
      by (rewrite <- !app_assoc; reflexivity).
    erewrite parse_number_parts; cycle 1.
    - subst ds. destruct (Z.to_nat n) eqn:E; [lia|]. cbn. apply digit_unit_not_minus.
    - apply span_digits_units. apply not_digit_DOT.
    - subst ds. destruct (Z.to_nat n) as [|m] eqn:E; [lia|]. cbn [firstn].
      destruct d; try contradiction; destruct m; cbn; exact I.
    - apply read_fraction_some; [|assumption].
      intros E. apply (f_equal (@length digit)) in E.
      rewrite length_skipn in E. cbn in E. lia.
    - apply read_exponent_none; assumption.
    - rewrite firstn_skipn, normalize_canonical by assumption.
      do 3 f_equal. rewrite Hfirst. lia. }
  destruct ((-6 <? n)%Z && (n <=? 0)%Z) eqn:CaseC.
  { (* zero, point, zeros, digits *)
    apply andb_true_iff in CaseC. destruct CaseC as [_ Hle].
    apply Z.leb_le in Hle.
    replace (([ZERO; DOT] ++ repeat ZERO (Z.to_nat (- n)) ++ digit_units ds)
             ++ rest)
      with (digit_units [D0]
            ++ DOT :: digit_units (repeat D0 (Z.to_nat (- n)) ++ ds) ++ rest)
      by (rewrite digit_units_app, digit_units_repeat, <- !app_assoc;
          reflexivity).
    erewrite parse_number_parts; cycle 1.
    - cbn. discriminate.
    - apply span_digits_units. apply not_digit_DOT.
    - exact I.
    - apply read_fraction_some; [|assumption].
      subst ds. destruct (repeat D0 (Z.to_nat (- n))); discriminate.
    - apply read_exponent_none; assumption.
    - cbn [app length].
      change (D0 :: ?l) with (repeat D0 1 ++ l).
      rewrite app_assoc, <- repeat_app, normalize_leading by assumption.
      do 3 f_equal. lia. }
  (* exponential notation *)
  subst ds. destruct tl as [|d2 tl].
  - replace ((digit_unit d
              :: [LOWER_E; if (n - 1 <? 0)%Z then MINUS else PLUS]
                 ++ digit_units (N_digits (Z.abs_N (n - 1)))) ++ rest)
      with (digit_units [d]
            ++ ([LOWER_E; if (n - 1 <? 0)%Z then MINUS else PLUS]
                ++ digit_units (N_digits (Z.abs_N (n - 1))) ++ rest))
      by (cbn [app digit_units map]; reflexivity).
    erewrite parse_number_parts; cycle 1.
    + cbn. apply digit_unit_not_minus.
    + apply span_digits_units. apply not_digit_LOWER_E.
    + destruct d; exact I.
    + reflexivity.
    + apply read_exponent_some; assumption.
    + rewrite app_nil_r, normalize_canonical by assumption.
      do 3 f_equal. cbn [length]. lia.
  - replace ((digit_unit d :: DOT
              :: digit_units (d2 :: tl)
                 ++ [LOWER_E; if (n - 1 <? 0)%Z then MINUS else PLUS]
                 ++ digit_units (N_digits (Z.abs_N (n - 1)))) ++ rest)
      with (digit_units [d]
            ++ DOT :: digit_units (d2 :: tl)
            ++ ([LOWER_E; if (n - 1 <? 0)%Z then MINUS else PLUS]
                ++ digit_units (N_digits (Z.abs_N (n - 1))) ++ rest))
      by (cbn [digit_units map app]; rewrite <- app_assoc; reflexivity).
    erewrite parse_number_parts; cycle 1.
    + cbn. apply digit_unit_not_minus.
    + apply span_digits_units. apply not_digit_DOT.
    + destruct d; exact I.
    + apply read_fraction_some; [discriminate|apply not_digit_LOWER_E].
    + apply read_exponent_some; assumption.
    + cbn [app]. rewrite normalize_canonical by assumption.
      do 3 f_equal. cbn [length]. lia.
Qed.

Lemma parse_number_toString (x : number) (rest : jsstring) :
  is_finite x = true -> canonical x = true -> x <> Zero true ->
  number_delimiter rest ->
  parse_number (Number_toString x ++ rest) = Some (x, rest).
Proof.
  intros Hfin Hcan Hnz Hrest. destruct x as [| |neg|neg ds n]; try discriminate.
  - destruct neg; [contradiction Hnz; reflexivity|].
    change (Number_toString (Zero false)) with (digit_units [D0]).
    change (digit_units [D0] ++ rest) with ([] ++ digit_units [D0] ++ rest).
    change (@nil code_unit) with (if false then [MINUS] else []) at 1.
    erewrite parse_number_parts; cycle 1.
    + cbn. discriminate.
    + apply span_digits_units. apply number_delimiter_not_digit; assumption.
    + exact I.
    + apply read_fraction_none; assumption.
    + apply read_exponent_none; assumption.
    + reflexivity.
  - cbn [Number_toString]. rewrite <- app_assoc.
    apply parse_finite_toString; assumption.
Qed.

(** ** JSON *)

Section JSONStrings.
Local Open Scope N_scope.

Lemma list_ind_pair {A : Type} (P : list A -> Prop) :
  P [] -> (forall a, P [a]) ->
  (forall a b l, P l -> P (b :: l) -> P (a :: b :: l)) ->
  forall l, P l.
Proof.
  intros H0 H1 H2 l.
  assert (H : P l /\ forall a, P (a :: l)); [|exact (proj1 H)].
  induction l as [|b l [IHl IHbl]]; split; auto.
Qed.

Lemma hex_value_char (x : N) : x < 16 -> hex_value (hex_char x) = Some x.
Proof.
  intros H. unfold hex_char, hex_value.
  destruct (N.ltb_spec x 10).
  - destruct (N.leb_spec 48 (48 + x)), (N.leb_spec (48 + x) 57);
      cbn [andb]; try lia. f_equal. lia.
  - destruct (N.leb_spec 48 (87 + x)), (N.leb_spec (87 + x) 57);
      cbn [andb]; try lia.
    destruct (N.leb_spec 97 (87 + x)), (N.leb_spec (87 + x) 102);
      cbn [andb]; try lia. f_equal. lia.
Qed.

Lemma hex_parts (c : N) :
  c < 65536 ->
  c / 4096 mod 16 * 4096 + c / 256 mod 16 * 256 + c / 16 mod 16 * 16 + c mod 16
  = c.
Proof.
  intros H.
  pose proof (N.div_mod c 16 ltac:(lia)).
  pose proof (N.div_mod (c / 16) 16 ltac:(lia)).
  pose proof (N.div_mod (c / 16 / 16) 16 ltac:(lia)).
  rewrite !N.Div0.div_div in *.
  change (16 * 16) with 256 in *. change (256 * 16) with 4096 in *.
  assert (c / 4096 < 16) by (apply N.Div0.div_lt_upper_bound; lia).
  rewrite (N.mod_small (c / 4096)) by assumption. lia.
Qed.

Lemma parse_unicode_escape (c : code_unit) (tail str rest : jsstring) :
  c < 65536 ->
  parse_string_body tail = Some (str, rest) ->
  parse_string_body (unicode_escape c ++ tail) = Some (c :: str, rest).
Proof.
  intros Hc Htail. unfold unicode_escape. cbn [app parse_string_body].
  change (BACKSLASH =? QUOTE) with false.
  change (BACKSLASH =? BACKSLASH) with true.
  change (LOWER_U =? LOWER_U) with true. cbv iota.
  rewrite !hex_value_char by (apply N.mod_lt; lia).
  cbn [obind]. rewrite Htail. cbn [obind].
  rewrite hex_parts by assumption. reflexivity.
Qed.

Lemma parse_literal (c : code_unit) (tail str rest : jsstring) :
  c <> QUOTE -> c <> BACKSLASH -> 32 <= c ->
  parse_string_body tail = Some (str, rest) ->
  parse_string_body (c :: tail) = Some (c :: str, rest).
Proof.
  intros Hq Hb Hc Htail. cbn [parse_string_body].
  destruct (N.eqb_spec c QUOTE); [contradiction|].
  destruct (N.eqb_spec c BACKSLASH); [contradiction|].
  destruct (N.ltb_spec c 32); [lia|].
  rewrite Htail. reflexivity.
Qed.

Lemma parse_escape_unit (c : code_unit) (tail str rest : jsstring) :
  parse_string_body tail = Some (str, rest) ->
  parse_string_body (escape_unit c ++ tail) = Some (c :: str, rest).
Proof.
  intros Htail. unfold escape_unit.
  destruct (N.eqb_spec c 8) as [->|]; [cbn; rewrite Htail; reflexivity|].
  destruct (N.eqb_spec c 9) as [->|]; [cbn; rewrite Htail; reflexivity|].
  destruct (N.eqb_spec c 10) as [->|]; [cbn; rewrite Htail; reflexivity|].
  destruct (N.eqb_spec c 12) as [->|]; [cbn; rewrite Htail; reflexivity|].
  destruct (N.eqb_spec c 13) as [->|]; [cbn; rewrite Htail; reflexivity|].
  destruct (N.eqb_spec c QUOTE) as [->|]; [cbn; rewrite Htail; reflexivity|].
  destruct (N.eqb_spec c BACKSLASH) as [->|];
    [cbn; rewrite Htail; reflexivity|].
  destruct (N.ltb_spec c 32).
  - apply parse_unicode_escape; [lia|assumption].
  - apply parse_literal; assumption.
Qed.

Lemma surrogate_range (c : code_unit) :
  is_high_surrogate c = true \/ is_low_surrogate c = true ->
  55296 <= c < 65536.
Proof.
  unfold is_high_surrogate, is_low_surrogate.
  intros [H|H]; apply andb_true_iff in H; destruct H as [H1 H2];
    apply N.leb_le in H1, H2; lia.
Qed.

Lemma quote_units_cons (c : code_unit) (rest : jsstring) :
  quote_units (c :: rest)
  = if is_high_surrogate c then
      match rest with
      | c2 :: rest2 =>
          if is_low_surrogate c2 then c :: c2 :: quote_units rest2
          else unicode_escape c ++ quote_units rest
      | [] => unicode_escape c
      end
    else if is_low_surrogate c then unicode_escape c ++ quote_units rest
    else escape_unit c ++ quote_units rest.
Proof. reflexivity. Qed.

Lemma parse_quote_units (s rest : jsstring) :
  parse_string_body (quote_units s ++ QUOTE :: rest) = Some (s, rest).
Proof.
  induction s as [|c|c c2 s IH IH2] using list_ind_pair.
  - reflexivity.
  - cbn [quote_units].
    destruct (is_high_surrogate c) eqn:Hh;
      [|destruct (is_low_surrogate c) eqn:Hl].
    + apply parse_unicode_escape; [|reflexivity].
      apply surrogate_range; auto.
    + rewrite app_nil_r. apply parse_unicode_escape; [|reflexivity].
      apply surrogate_range; auto.
    + rewrite app_nil_r. apply parse_escape_unit; reflexivity.
  - rewrite quote_units_cons.
    destruct (is_high_surrogate c) eqn:Hh;
      [destruct (is_low_surrogate c2) eqn:Hl2
      |destruct (is_low_surrogate c) eqn:Hl].
    + pose proof (@surrogate_range c (or_introl Hh)).
      pose proof (@surrogate_range c2 (or_intror Hl2)).
      cbn [app]. unfold QUOTE, BACKSLASH in *.
      apply parse_literal; try (unfold QUOTE, BACKSLASH; lia).
      apply parse_literal; try (unfold QUOTE, BACKSLASH; lia).
      exact IH.
    + rewrite <- app_assoc. apply parse_unicode_escape; [|exact IH2].
      apply surrogate_range; auto.
    + rewrite <- app_assoc. apply parse_unicode_escape; [|exact IH2].
      apply surrogate_range; auto.
    + rewrite <- app_assoc. apply parse_escape_unit. exact IH2.
Qed.

Lemma parse_QuoteJSONString (s rest : jsstring) :
  exists body,
    QuoteJSONString s ++ rest = QUOTE :: body
    /\ parse_string_body body = Some (s, rest).
Proof.
  exists (quote_units s ++ QUOTE :: rest). split.
  - unfold QuoteJSONString. cbn [app]. rewrite <- app_assoc. reflexivity.
  - apply parse_quote_units.
Qed.

End JSONStrings.

Lemma Value_ind (P : Value -> Prop) :
  P VUndefined -> P VNull -> (forall b, P (VBoolean b)) ->
  (forall n, P (VNumber n)) -> (forall s, P (VString s)) ->
  (forall z, P (VBigInt z)) -> (forall d, P (VSymbol d)) ->
  (forall n, P (VFunction n)) ->
  (forall items, Forall P items -> P (VArray items)) ->
  (forall props, Forall (fun p => P (snd p)) props -> P (VObject props)) ->
  (forall tv, P (VDate tv)) -> (forall s f, P (VRegExp s f)) ->
  (forall b t, P (VBlob b t)) -> (forall b n t l, P (VFile b n t l)) ->
  (forall b, P (VArrayBuffer b)) -> (forall k b o l, P (VView k b o l)) ->
  (forall e, P (VMap e)) -> (forall m, P (VSet m)) ->
  (forall c props, P (VInstance c props)) ->
  forall v, P v.
Proof.
  intros Hu Hn Hb Hnum Hs Hz Hsym Hf Harr Hobj Hd Hr Hbl Hfi Hab Hv Hm Hset Hi.
  fix IH 1.
  intros [ | |b|n|s|z|d|n|items|props|tv|s f|b t|b n t l|b|k b o l|e|m|c props].
  - exact Hu.
  - exact Hn.
  - apply Hb.
  - apply Hnum.
  - apply Hs.
  - apply Hz.
  - apply Hsym.
  - apply Hf.
  - apply Harr. induction items as [|x xs IHx]; constructor;
      [apply IH|exact IHx].
  - apply Hobj. induction props as [|[k x] ps IHp]; constructor;
      [apply IH|exact IHp].
  - apply Hd.
  - apply Hr.
  - apply Hbl.
  - apply Hfi.
  - apply Hab.
  - apply Hv.
  - apply Hm.
  - apply Hset.
  - apply Hi.
Qed.

Lemma stringify_faithful (v : Value) :
  json_faithful v = true ->
  SerializeJSONProperty v = Return (Some (json_text v)).
Proof.
  induction v as [ | |b|n|s|z|d|n|items IH|props IH|tv|s f|b t|b n t l|b|k b o l|e|m|c props]
    using Value_ind; intros Hf; try discriminate; try reflexivity.
  - (* number *)
    cbn [SerializeJSONProperty json_text]. cbn [json_faithful] in Hf.
    unfold json_number in Hf. rewrite !andb_true_iff in Hf.
    destruct Hf as [[-> _] _]. reflexivity.
  - (* array *)
    cbn [json_faithful] in Hf. cbn [SerializeJSONProperty json_text].
    match goal with
    | |- bind (?each items) _ = _ =>
        assert (E : each items = Return (map json_text items))
    end.
    { induction items as [|x xs IHx]; [reflexivity|].
      cbn [forallb] in Hf. apply andb_true_iff in Hf. destruct Hf as [Hx Hxs].
      inversion IH as [|? ? IH1 IH2]; subst.
      rewrite (IH1 Hx). cbn [bind]. rewrite (IHx IH2 Hxs). reflexivity. }
    rewrite E. reflexivity.
  - (* object *)
    cbn [json_faithful] in Hf. apply andb_true_iff in Hf. destruct Hf as [_ Hf].
    cbn [SerializeJSONProperty json_text].
    match goal with
    | |- bind (?each props) _ = _ =>
        assert (E : each props = Return (map (member_text json_text) props))
    end.
    { induction props as [|[k x] ps IHp]; [reflexivity|].
      cbn [forallb snd] in Hf. apply andb_true_iff in Hf. destruct Hf as [Hx Hxs].
      inversion IH as [|? ? IH1 IH2]; subst. cbn [snd] in IH1.
      rewrite (IH1 Hx). cbn [bind]. rewrite (IHp IH2 Hxs). reflexivity. }
    rewrite E. reflexivity.
Qed.

Lemma finite_toString_head (ds : list digit) (n : Z) :
  canonical_digits ds = true ->
  exists d t, finite_toString ds n = digit_unit d :: t.
Proof.
  intros Hc. destruct (canonical_digits_spec _ Hc) as [(d & tl & -> & Hd) _].
  unfold finite_toString.
  destruct ((Z.of_nat (length (d :: tl)) <=? n)%Z && (n <=? 21)%Z) eqn:A;
    [exists d; eexists; reflexivity|].
  destruct ((0 <? n)%Z && (n <=? 21)%Z) eqn:B.
  { apply andb_true_iff in B. destruct B as [B _]. apply Z.ltb_lt in B.
    destruct (Z.to_nat n) eqn:E; [lia|]. exists d; eexists; reflexivity. }
  destruct ((-6 <? n)%Z && (n <=? 0)%Z) eqn:C;
    [exists D0; eexists; reflexivity|].
  destruct tl; exists d; eexists; reflexivity.
Qed.

Lemma Number_toString_head (n : number) :
  json_number n = true ->
  exists c t, Number_toString n = c :: t /\ number_start c.
Proof.
  unfold json_number. rewrite !andb_true_iff. intros [[Hfin Hcan] _].
  destruct n as [| |neg|neg ds e]; try discriminate.
  - exists ZERO, []. split; [reflexivity|]. right. exists D0. reflexivity.
  - cbn [canonical] in Hcan.
    destruct (@finite_toString_head ds e Hcan) as (d & t & Ht).
    cbn [Number_toString]. rewrite Ht. destruct neg; cbn [app].
    + eexists _, _. split; [reflexivity|]. left; reflexivity.
    + eexists _, _. split; [reflexivity|]. right; exists d; reflexivity.
Qed.

Lemma parse_value_number (fuel : nat) (c : code_unit) (t : jsstring) :
  number_start c ->
  parse_value (S fuel) (c :: t)
  = ('(n, rest1) <-? parse_number (c :: t) ;; Some (VNumber n, rest1)).
Proof.
  intros [->|[d ->]]; [reflexivity|]. destruct d; reflexivity.
Qed.

Lemma number_start_plain (c : code_unit) :
  number_start c ->
  is_json_whitespace c = false /\ c <> RBRACKET /\ c <> RBRACE.
Proof.
  intros [->|[d ->]]; [repeat split; discriminate|].
  destruct d; repeat split; discriminate.
Qed.

(** The first unit of the text of a value: never white space, never a
    closing bracket. *)
Lemma json_text_head (v : Value) :
  json_faithful v = true ->
  exists c t, json_text v = c :: t
              /\ is_json_whitespace c = false
              /\ c <> RBRACKET /\ c <> RBRACE.
Proof.
  destruct v; try discriminate; intros Hf; cbn [json_text].
  - eexists _, _; split; [reflexivity|]. repeat split; discriminate.
  - destruct b; eexists _, _; (split; [reflexivity|]); repeat split; discriminate.
  - destruct (Number_toString_head _ Hf) as (c & t & -> & Hc).
    exists c, t. split; [reflexivity|]. apply number_start_plain; assumption.
  - eexists _, _; split; [reflexivity|]. repeat split; discriminate.
  - eexists _, _; split; [reflexivity|]. repeat split; discriminate.
  - eexists _, _; split; [reflexivity|]. repeat split; discriminate.
Qed.

Lemma skip_ws_plain (c : code_unit) (t : jsstring) :
  is_json_whitespace c = false -> skip_ws (c :: t) = c :: t.
Proof. intros H. cbn [skip_ws]. rewrite H. reflexivity. Qed.

Lemma delimiter_COMMA (s : jsstring) : number_delimiter (COMMA :: s).
Proof. repeat split; discriminate. Qed.
Lemma delimiter_RBRACKET (s : jsstring) : number_delimiter (RBRACKET :: s).
Proof. repeat split; discriminate. Qed.
Lemma delimiter_RBRACE (s : jsstring) : number_delimiter (RBRACE :: s).
Proof. repeat split; discriminate. Qed.

Lemma json_text_length (v : Value) :
  json_faithful v = true -> 1 <= length (json_text v).
Proof.
  intros H. destruct (json_text_head _ H) as (c & t & -> & _). cbn. lia.
Qed.

Lemma join_cons (sep p : jsstring) (q : jsstring) (rest : list jsstring) :
  join sep (p :: q :: rest) = p ++ sep ++ join sep (q :: rest).
Proof. reflexivity. Qed.

Lemma parse_elements_faithful (items : list Value) :
  Forall parses items -> items <> [] ->
  forallb json_faithful items = true ->
  forall fuel rest,
    length (join [COMMA] (map json_text items)) < fuel ->
    parse_elements fuel (join [COMMA] (map json_text items) ++ RBRACKET :: rest)
    = Some (items, rest).
Proof.
  intros IH. induction IH as [|x xs Hx Hxs IHxs]; intros Hne Hf fuel rest Hfuel;
    [contradiction|].
  cbn [forallb] in Hf. apply andb_true_iff in Hf. destruct Hf as [Fx Fxs].
  destruct fuel as [|fuel]; [lia|]. cbn [parse_elements].
  pose proof (json_text_length _ Fx) as Lx.
  destruct xs as [|y ys].
  - cbn [map join] in *.
    rewrite (Hx Fx fuel (RBRACKET :: rest)) by (try apply delimiter_RBRACKET; lia).
    reflexivity.
  - cbn [map] in Hfuel |- *. rewrite join_cons in Hfuel |- *.
    rewrite length_app in Hfuel.
    cbn [app length] in Hfuel.
    rewrite <- app_assoc. cbn [app].
    rewrite (Hx Fx fuel (COMMA :: _)) by (try apply delimiter_COMMA; lia).
    cbn [obind skip_ws is_json_whitespace]. 
    change (is_json_whitespace COMMA) with false. cbv iota.
    change (COMMA =? COMMA)%N with true. cbv iota.
    rewrite IHxs; [reflexivity|discriminate|assumption|cbn [map]; lia].
Qed.

Lemma lookup_app_none {A : Type} (k : jsstring) (acc : list (jsstring * A)) v :
  has_key k acc = false -> set_prop k v acc = acc ++ [(k, v)].
Proof.
  unfold has_key. induction acc as [|[k' w] acc IH]; [reflexivity|].
  cbn [lookup set_prop app]. destruct (str_eqb k' k); [discriminate|].
  intros H. rewrite IH by assumption. reflexivity.
Qed.

Lemma has_key_app {A : Type} (k : jsstring) (l1 l2 : list (jsstring * A)) :
  has_key k (l1 ++ l2) = has_key k l1 || has_key k l2.
Proof.
  unfold has_key. induction l1 as [|[k' w] l1 IH]; [reflexivity|].
  cbn [app lookup]. destruct (str_eqb k' k); [reflexivity|exact IH].
Qed.

Lemma parse_members_faithful (props : list (jsstring * Value)) :
  Forall (fun p => parses (snd p)) props -> props <> [] ->
  forallb (fun p => json_faithful (snd p)) props = true ->
  forall fuel rest acc,
    distinct_keys (acc ++ props) = true ->
    length (join [COMMA] (map (member_text json_text) props)) < fuel ->
    parse_members fuel
      (join [COMMA] (map (member_text json_text) props) ++ RBRACE :: rest) acc
    = Some (acc ++ props, rest).
Proof.
  intros IH. induction IH as [|[k x] ps Hx Hps IHps];
    intros Hne Hf fuel rest acc Hkeys Hfuel; [contradiction|].
  cbn [forallb snd] in Hf. apply andb_true_iff in Hf. destruct Hf as [Fx Fps].
  cbn [snd] in Hx.
  destruct fuel as [|fuel]; [lia|]. cbn [parse_members].
  pose proof (json_text_length _ Fx) as Lx.
  assert (Hk : has_key k acc = false).
  { clear - Hkeys. induction acc as [|[k' w] acc IHa].
    - reflexivity.
    - cbn [app distinct_keys] in Hkeys. apply andb_true_iff in Hkeys.
      destruct Hkeys as [Hk' Hrest]. apply negb_true_iff in Hk'.
      rewrite has_key_app in Hk'. apply orb_false_iff in Hk'.
      destruct Hk' as [_ Hk'].
      unfold has_key in *. cbn [lookup] in *.
      destruct (str_eqb k' k) eqn:E.
      + apply str_eqb_spec in E. subst k'. rewrite str_eqb_refl in Hk'. discriminate.
      + apply IHa. assumption. }
  assert (Hmember : forall tail,
    member_text json_text (k, x) ++ tail
    = QUOTE :: (quote_units k ++ QUOTE :: COLON :: json_text x ++ tail)).
  { intros tail. unfold member_text, QuoteJSONString. cbn [fst snd app].
    rewrite <- !app_assoc. reflexivity. }
  assert (Hlen : length (member_text json_text (k, x)) >= 3 + length (json_text x)).
  { unfold member_text, QuoteJSONString. cbn [fst snd].
    rewrite !length_app. cbn [length]. lia. }
  destruct ps as [|[k2 y] ps'].
  - cbn [map join] in *. rewrite Hmember.
    rewrite skip_ws_plain by reflexivity.
    change (QUOTE =? QUOTE)%N with true. cbv iota.
    rewrite parse_quote_units. cbn [obind].
    rewrite skip_ws_plain by reflexivity. cbn [expect].
    change (COLON =? COLON)%N with true. cbv iota. cbn [obind].
    rewrite (Hx Fx fuel (RBRACE :: rest)) by (try apply delimiter_RBRACE; lia).
    cbn [obind]. rewrite skip_ws_plain by reflexivity.
    change (RBRACE =? COMMA)%N with false. change (RBRACE =? RBRACE)%N with true.
    cbv iota. rewrite lookup_app_none by assumption. reflexivity.
  - cbn [map] in Hfuel |- *. rewrite join_cons in Hfuel |- *.
    rewrite length_app in Hfuel.
    cbn [app length] in Hfuel.
    rewrite <- app_assoc. rewrite Hmember.
    rewrite skip_ws_plain by reflexivity.
    change (QUOTE =? QUOTE)%N with true. cbv iota.
    rewrite parse_quote_units. cbn [obind].
    rewrite skip_ws_plain by reflexivity. cbn [expect].
    change (COLON =? COLON)%N with true. cbv iota. cbn [obind].
    cbn [app].
    rewrite (Hx Fx fuel (COMMA :: _)) by (try apply delimiter_COMMA; lia).
    cbn [obind]. rewrite skip_ws_plain by reflexivity.
    change (COMMA =? COMMA)%N with true. cbv iota.
    rewrite lookup_app_none by assumption.
    rewrite IHps.
    + rewrite <- app_assoc. reflexivity.
    + discriminate.
    + assumption.
    + rewrite <- app_assoc. exact Hkeys.
    + cbn [map]. lia.
Qed.

Lemma parse_value_faithful (v : Value) : parses v.
Proof.
  induction v as [ | |b|n|s|z|d|n|items IH|props IH|tv|s f|b t|b n t l|b|k b o l|e|m|c props]
    using Value_ind; intros Hf fuel rest Hfuel Hrest; try discriminate.
  - destruct fuel; [cbn in Hfuel; lia|]. reflexivity.
  - destruct fuel; [destruct b; cbn in Hfuel; lia|]. destruct b; reflexivity.
  - (* number *)
    cbn [json_faithful] in Hf. cbn [json_text] in *.
    destruct (Number_toString_head _ Hf) as (c & t & E & Hc).
    destruct fuel; [rewrite E in Hfuel; cbn in Hfuel; lia|].
    rewrite E. cbn [app]. rewrite parse_value_number by assumption.
    change (c :: t ++ rest) with ((c :: t) ++ rest). rewrite <- E.
    unfold json_number in Hf. rewrite !andb_true_iff in Hf.
    destruct Hf as [[Hfin Hcan] Hz].
    rewrite parse_number_toString; try assumption; [reflexivity|].
    intros ->. discriminate.
  - (* string *)
    destruct fuel; [cbn in Hfuel; lia|].
    cbn [json_text]. destruct (parse_QuoteJSONString s rest) as (body & -> & Hb).
    cbn [parse_value]. rewrite skip_ws_plain by reflexivity.
    change (QUOTE =? QUOTE)%N with true. cbv iota. rewrite Hb. reflexivity.
  - (* array *)
    cbn [json_faithful] in Hf. cbn [json_text] in *.
    destruct fuel; [cbn in Hfuel; lia|].
    cbn [app parse_value]. rewrite skip_ws_plain by reflexivity.
    change (LBRACKET =? QUOTE)%N with false.
    change (LBRACKET =? LBRACKET)%N with true. cbv iota.
    destruct items as [|x xs].
    + reflexivity.
    + assert (Fx : json_faithful x = true)
        by (cbn [forallb] in Hf; apply andb_true_iff in Hf; tauto).
      assert (Hhead : exists c t,
        join [COMMA] (map json_text (x :: xs)) = c :: t
        /\ is_json_whitespace c = false /\ c <> RBRACKET).
      { destruct (json_text_head _ Fx) as (c & t & E & Hw & Hb & _).
        destruct xs; cbn [map join]; rewrite E; eexists _, _;
          (split; [reflexivity|split; assumption]). }
      destruct Hhead as (c & t & E & Hw & Hb).
      rewrite <- app_assoc. cbn [app].
      pose proof (@parse_elements_faithful (x :: xs) IH ltac:(discriminate) Hf
                    fuel rest) as Hel.
      rewrite length_app in Hfuel. cbn [length] in Hfuel.
      rewrite length_app in Hfuel. cbn [length] in Hfuel.
      rewrite E in *. cbn [app]. rewrite skip_ws_plain by assumption.
      destruct (N.eqb_spec c RBRACKET); [contradiction|].
      cbn [app] in Hel. rewrite Hel by lia. reflexivity.
  - (* object *)
    cbn [json_faithful] in Hf. apply andb_true_iff in Hf.
    destruct Hf as [Hkeys Hf]. cbn [json_text] in *.
    destruct fuel; [cbn in Hfuel; lia|].
    cbn [app parse_value]. rewrite skip_ws_plain by reflexivity.
    change (LBRACE =? QUOTE)%N with false.
    change (LBRACE =? LBRACKET)%N with false.
    change (LBRACE =? LBRACE)%N with true. cbv iota.
    destruct props as [|[k x] ps].
    + reflexivity.
    + assert (Hhead : exists t,
        join [COMMA] (map (member_text json_text) ((k, x) :: ps)) = QUOTE :: t).
      { destruct ps; cbn [map join]; eexists; reflexivity. }
      destruct Hhead as (t & E).
      rewrite <- app_assoc. cbn [app].
      pose proof (@parse_members_faithful ((k, x) :: ps) IH ltac:(discriminate) Hf
                    fuel rest [] Hkeys) as Hmem.
      rewrite length_app in Hfuel. cbn [length] in Hfuel.
      rewrite length_app in Hfuel. cbn [length] in Hfuel.
      rewrite E in *. cbn [app]. rewrite skip_ws_plain by reflexivity.
      change (QUOTE =? RBRACE)%N with false. cbv iota.
      cbn [app] in Hmem. rewrite Hmem by lia. reflexivity.
Qed.

Theorem JSON_parse_stringify (v : Value) :
  json_faithful v = true ->
  JSON_stringify v = Return (Some (json_text v))
  /\ JSON_parse (json_text v) = Some v.
Proof.
  intros Hf. split; [apply stringify_faithful; assumption|].
  unfold JSON_parse.
  rewrite <- (app_nil_r (json_text v)) at 2.
  rewrite parse_value_faithful; [reflexivity|assumption|lia|exact I].
Qed.

(** ** Base64 *)

Section Base64.
Local Open Scope N_scope.

Lemma list_ind3 {A : Type} (P : list A -> Prop) :
  P [] -> (forall a, P [a]) -> (forall a b, P [a; b]) ->
  (forall a b c l, P l -> P (a :: b :: c :: l)) ->
  forall l, P l.
Proof.
  intros H0 H1 H2 H3.
  fix IH 1. intros [|a [|b [|c l]]];
    [exact H0 | exact (H1 a) | exact (H2 a b) | exact (H3 a b c l (IH l))].
Qed.

Lemma b64_sextet_char (s : N) : s < 64 -> b64_sextet (b64_char s) = Some s.
Proof.
  intros H. unfold b64_char, b64_sextet.
  repeat match goal with
         | |- context [?a <? ?b] => destruct (N.ltb_spec a b)
         | |- context [?a <=? ?b] => destruct (N.leb_spec a b)
         | |- context [?a =? ?b] => destruct (N.eqb_spec a b)
         | _ => progress cbn [andb orb negb]
         end; try lia; f_equal; lia.
Qed.

Lemma b64_char_plain (s : N) :
  s < 64 ->
  is_ascii_whitespace (b64_char s) = false /\ (b64_char s =? EQUALS) = false.
Proof.
  intros H. unfold b64_char.
  destruct (N.ltb_spec s 26), (N.ltb_spec s 52), (N.ltb_spec s 62),
    (N.eqb_spec s 62);
    (split; [unfold is_ascii_whitespace; rewrite !orb_false_iff; repeat split|];
     apply N.eqb_neq; unfold EQUALS; lia).
Qed.

Lemma sextet1 (a : N) : a < 256 -> a / 4 < 64.
Proof. intros. apply N.Div0.div_lt_upper_bound; lia. Qed.
Lemma sextet2 (a b : N) : b < 256 -> a mod 4 * 16 + b / 16 < 64.
Proof.
  intros. pose proof (N.mod_lt a 4 ltac:(lia)).
  assert (b / 16 < 16) by (apply N.Div0.div_lt_upper_bound; lia). lia.
Qed.
Lemma sextet2' (a : N) : a mod 4 * 16 < 64.
Proof. pose proof (N.mod_lt a 4 ltac:(lia)). lia. Qed.
Lemma sextet3 (b c : N) : c < 256 -> b mod 16 * 4 + c / 64 < 64.
Proof.
  intros. pose proof (N.mod_lt b 16 ltac:(lia)).
  assert (c / 64 < 4) by (apply N.Div0.div_lt_upper_bound; lia). lia.
Qed.
Lemma sextet3' (b : N) : b mod 16 * 4 < 64.
Proof. pose proof (N.mod_lt b 16 ltac:(lia)). lia. Qed.
Lemma sextet4 (c : N) : c mod 64 < 64.
Proof. apply N.mod_lt; lia. Qed.

Lemma filter_plain (s : N) (l : jsstring) :
  s < 64 ->
  filter (fun c => negb (is_ascii_whitespace c)) (b64_char s :: l)
  = b64_char s :: filter (fun c => negb (is_ascii_whitespace c)) l.
Proof.
  intros H. cbn [filter]. rewrite (proj1 (b64_char_plain H)). reflexivity.
Qed.

Lemma b64_encode_no_whitespace (bytes : list N) :
  Forall is_byte bytes ->
  filter (fun c => negb (is_ascii_whitespace c)) (b64_encode bytes)
  = b64_encode bytes.
Proof.
  induction bytes as [|a|a b|a b c l IH] using list_ind3; intros Hb;
    byte_bounds; cbn [b64_encode];
    rewrite ?filter_plain
      by auto using sextet1, sextet2, sextet2', sextet3, sextet3', sextet4;
    try reflexivity.
  rewrite IH by assumption. reflexivity.
Qed.

Lemma b64_encode_length (bytes : list N) :
  (length (b64_encode bytes) mod 4 = 0)%nat.
Proof.
  induction bytes as [|a|a b|a b c l IH] using list_ind3;
    cbn [b64_encode length]; try reflexivity.
  change (S (S (S (S (length (b64_encode l))))))
    with (4 + length (b64_encode l))%nat.
  rewrite <- Nat.Div0.add_mod_idemp_l. exact IH.
Qed.

Lemma strip_padding_plain (c : code_unit) (rest : jsstring) :
  (c =? EQUALS) = false -> strip_padding (c :: rest) = c :: strip_padding rest.
Proof. intros H. cbn [strip_padding]. rewrite H. reflexivity. Qed.

Lemma b64_decode_encode (bytes : list N) :
  Forall is_byte bytes ->
  exists l,
    sextets (strip_padding (b64_encode bytes)) = Some l
    /\ b64_decode l = bytes
    /\ (length (strip_padding (b64_encode bytes)) mod 4 <> 1)%nat.
Proof.
  induction bytes as [|a|a b|a b c l IH] using list_ind3; intros Hb;
    byte_bounds; cbn [b64_encode].
  - exists []. repeat split; discriminate || reflexivity.
  - rewrite !strip_padding_plain
      by (apply b64_char_plain; auto using sextet1, sextet2').
    cbn [strip_padding]. cbn [sextets].
    rewrite !b64_sextet_char by auto using sextet1, sextet2'.
    eexists; split; [reflexivity|]. cbn [b64_decode]. split; [|discriminate].
    f_equal. pose proof (N.div_mod a 4 ltac:(lia)).
    rewrite N.div_mul by lia. lia.
  - rewrite !strip_padding_plain
      by (apply b64_char_plain; auto using sextet1, sextet2, sextet3').
    cbn [strip_padding]. cbn [sextets].
    rewrite !b64_sextet_char by auto using sextet1, sextet2, sextet3'.
    eexists; split; [reflexivity|]. cbn [b64_decode]. split; [|discriminate].
    pose proof (N.div_mod a 4 ltac:(lia)).
    pose proof (N.div_mod b 16 ltac:(lia)).
    pose proof (N.mod_lt a 4 ltac:(lia)).
    pose proof (N.mod_lt b 16 ltac:(lia)).
    assert (b / 16 < 16) by (apply N.Div0.div_lt_upper_bound; lia).
    assert ((a mod 4 * 16 + b / 16) / 16 = a mod 4)
      by (symmetry; apply (N.div_unique _ 16 _ (b / 16)); lia).
    assert ((a mod 4 * 16 + b / 16) mod 16 = b / 16)
      by (symmetry; apply (N.mod_unique _ 16 (a mod 4)); lia).
    assert (b mod 16 * 4 / 4 = b mod 16) by (apply N.div_mul; lia).
    f_equal; [lia|f_equal; lia].
  - rewrite !strip_padding_plain
      by (apply b64_char_plain; auto using sextet1, sextet2, sextet3, sextet4).
    destruct (IH ltac:(assumption)) as (l' & Hs & Hd & Hlen).
    cbn [sextets].
    rewrite !b64_sextet_char by auto using sextet1, sextet2, sextet3, sextet4.
    rewrite Hs. cbn [obind].
    eexists; split; [reflexivity|]. cbn [b64_decode]. split.
    + rewrite Hd.
      pose proof (N.div_mod a 4 ltac:(lia)).
      pose proof (N.div_mod b 16 ltac:(lia)).
      pose proof (N.div_mod c 64 ltac:(lia)).
      pose proof (N.mod_lt a 4 ltac:(lia)).
      pose proof (N.mod_lt b 16 ltac:(lia)).
      pose proof (N.mod_lt c 64 ltac:(lia)).
      assert (b / 16 < 16) by (apply N.Div0.div_lt_upper_bound; lia).
      assert (c / 64 < 4) by (apply N.Div0.div_lt_upper_bound; lia).
      assert ((a mod 4 * 16 + b / 16) / 16 = a mod 4)
        by (symmetry; apply (N.div_unique _ 16 _ (b / 16)); lia).
      assert ((a mod 4 * 16 + b / 16) mod 16 = b / 16)
        by (symmetry; apply (N.mod_unique _ 16 (a mod 4)); lia).
      assert ((b mod 16 * 4 + c / 64) / 4 = b mod 16)
        by (symmetry; apply (N.div_unique _ 4 _ (c / 64)); lia).
      assert ((b mod 16 * 4 + c / 64) mod 4 = c / 64)
        by (symmetry; apply (N.mod_unique _ 4 (b mod 16)); lia).
      f_equal; [lia|f_equal; [lia|f_equal; lia]].
    + cbn [length].
      change (S (S (S (S ?n)))) with (4 + n)%nat.
      rewrite <- Nat.Div0.add_mod_idemp_l. exact Hlen.
Qed.

Theorem atob_btoa (bytes : list N) :
  Forall is_byte bytes -> atob (b64_encode bytes) = Return bytes.
Proof.
  intros Hb. unfold atob.
  rewrite b64_encode_no_whitespace by assumption.
  rewrite b64_encode_length. cbn [Nat.eqb].
  destruct (b64_decode_encode Hb) as (l & Hs & Hd & Hlen).
  destruct (Nat.eqb_spec (length (strip_padding (b64_encode bytes)) mod 4) 1);
    [contradiction|].
  rewrite Hs, Hd. reflexivity.
Qed.

End Base64.

Lemma fold_left_snoc {A B : Type} (f : B -> A) (l : list B) (init : list A) :
  fold_left (fun acc b => acc ++ [f b]) l init = init ++ map f l.
Proof.
  revert init; induction l as [|b l IH]; intros init; cbn [fold_left map].
  - rewrite app_nil_r; reflexivity.
  - rewrite IH, <- app_assoc. reflexivity.
Qed.

Lemma set_index_middle (done : list byte) (x b : byte) (rest : list byte)
  (i : nat) :
  i = length done -> set_index (done ++ x :: rest) i b = done ++ b :: rest.
Proof.
  intros ->. induction done as [|d done IH]; cbn [set_index app length].
  - reflexivity.
  - rewrite IH; reflexivity.
Qed.

(** Loop invariant of the copy: after [i] rounds the first [i] elements are
    written and the others still zero. *)
Lemma copy_loop (s : jsstring) (i : nat) :
  i <= length s ->
  fold_left
    (fun bytes j => set_index bytes j (ToUint8 (charCodeAt s j)))
    (seq 0 i) (repeat x00 (length s))
  = map (fun c => ToUint8 (Some c)) (firstn i s) ++ repeat x00 (length s - i).
Proof.
  induction i as [|i IH]; intros Hi.
  - cbn [seq fold_left firstn map app]. rewrite Nat.sub_0_r. reflexivity.
  - rewrite seq_S, fold_left_app, IH by lia. cbn [fold_left Nat.add].
    destruct (nth_error s i) as [c|] eqn:Hc;
      [|apply nth_error_None in Hc; lia].
    assert (Hlen : length (map (fun c => ToUint8 (Some c)) (firstn i s)) = i)
      by (rewrite length_map, length_firstn; lia).
    replace (length s - i) with (S (length s - S i)) by lia.
    cbn [repeat].
    rewrite set_index_middle by (symmetry; exact Hlen).
    unfold charCodeAt. rewrite Hc.
    assert (Hsplit : firstn (S i) s = firstn i s ++ [c]).
    { clear - Hc. revert i Hc. induction s as [|x s IHs]; intros [|i] Hc;
        try discriminate; cbn in *.
      - injection Hc as ->. reflexivity.
      - rewrite IHs by assumption. reflexivity. }
    rewrite Hsplit, map_app, <- app_assoc. reflexivity.
Qed.

Lemma binaryStringToBytes_map (s : jsstring) :
  binaryStringToBytes s = map (fun c => ToUint8 (Some c)) s.
Proof.
  unfold binaryStringToBytes. rewrite copy_loop by lia.
  rewrite firstn_all, Nat.sub_diag. apply app_nil_r.
Qed.

Lemma ToUint8_to_N (b : byte) : ToUint8 (Some (Byte.to_N b)) = b.
Proof.
  unfold ToUint8. pose proof (Byte.to_N_bounded b) as Hb.
  rewrite N.mod_small by lia. rewrite Byte.of_to_N. reflexivity.
Qed.

Lemma bytes_are_bytes (buffer : list byte) :
  Forall is_byte (map Byte.to_N buffer).
Proof.
  induction buffer as [|b l IH]; constructor; [|exact IH].
  unfold is_byte. pose proof (Byte.to_N_bounded b). lia.
Qed.

Lemma binaryStringToBytes_to_N (buffer : list byte) :
  binaryStringToBytes (map Byte.to_N buffer) = buffer.
Proof.
  rewrite binaryStringToBytes_map, map_map.
  induction buffer as [|b l IH]; cbn [map]; [reflexivity|].
  rewrite ToUint8_to_N, IH. reflexivity.
Qed.

Lemma arrayBufferToBase64_eq (buffer : list byte) :
  arrayBufferToBase64 buffer = Return (b64_encode (map Byte.to_N buffer)).
Proof.
  unfold arrayBufferToBase64. rewrite fold_left_snoc. cbn [app].
  assert (E : map (fun b => String_fromCharCode (Byte.to_N b)) buffer
              = map Byte.to_N buffer).
  { apply map_ext. intros b. unfold String_fromCharCode.
    pose proof (Byte.to_N_bounded b). apply N.mod_small. lia. }
  rewrite E. unfold btoa.
  assert (F : forallb (fun c => (c <=? 255)%N) (map Byte.to_N buffer) = true).
  { apply forallb_forall. intros c Hc. apply in_map_iff in Hc.
    destruct Hc as (b & <- & _). apply N.leb_le, Byte.to_N_bounded. }
  rewrite F. reflexivity.
Qed.

Lemma base64ToArrayBuffer_encode (buffer : list byte) :
  base64ToArrayBuffer (VString (b64_encode (map Byte.to_N buffer)))
  = Return (VArrayBuffer buffer).
Proof.
  unfold base64ToArrayBuffer. cbn [ToString bind].
  rewrite atob_btoa by apply bytes_are_bytes. cbn [bind].
  rewrite binaryStringToBytes_to_N. reflexivity.
Qed.


(** ** Dates *)

Section Dates.
Local Open Scope Z_scope.

Lemma DayFromYear_succ (y : Z) :
  DayFromYear (y + 1) = DayFromYear y + DaysInYear y.
Proof.
  unfold DayFromYear, DaysInYear.
  destruct (Z.eqb_spec (y mod 4) 0), (Z.eqb_spec (y mod 100) 0),
    (Z.eqb_spec (y mod 400) 0); cbn [negb];
    Z.div_mod_to_equations; lia.
Qed.

Lemma DaysInYear_leap (y : Z) : DaysInYear y = 365 + InLeapYear y.
Proof.
  unfold InLeapYear, DaysInYear.
  destruct (negb (y mod 4 =? 0)); [reflexivity|].
  destruct (negb (y mod 100 =? 0)); [reflexivity|].
  destruct (negb (y mod 400 =? 0)); reflexivity.
Qed.

Lemma InLeapYear_range (y : Z) : InLeapYear y = 0 \/ InLeapYear y = 1.
Proof. unfold InLeapYear. destruct (DaysInYear y =? 366); auto. Qed.

Lemma YearFromDay_spec (day : Z) :
  DayFromYear (YearFromDay day) <= day < DayFromYear (YearFromDay day + 1).
Proof.
  unfold YearFromDay.
  set (y := 1970 + day * 400 / 146097).
  assert (Hlo : DayFromYear (y - 1) <= day).
  { unfold DayFromYear, y. Z.div_mod_to_equations. lia. }
  assert (Hhi : day < DayFromYear (y + 2)).
  { unfold DayFromYear, y. Z.div_mod_to_equations. lia. }
  pose proof (DayFromYear_succ (y - 1)) as S0.
  pose proof (DayFromYear_succ y) as S1.
  pose proof (DayFromYear_succ (y + 1)) as S2.
  replace (y - 1 + 1) with y in S0 by lia.
  replace (y + 1 + 1) with (y + 2) in S2 by lia.
  destruct (Z.ltb_spec day (DayFromYear y)).
  - replace (y - 1 + 1) with y by lia. lia.
  - destruct (Z.leb_spec (DayFromYear (y + 1)) day).
    + replace (y + 1 + 1) with (y + 2) by lia. lia.
    + lia.
Qed.

Lemma month_spec (leap d : Z) :
  leap = 0 \/ leap = 1 -> 0 <= d < 365 + leap ->
  let m := MonthFromDayWithinYear leap d in
  0 <= m <= 11
  /\ MonthStart leap m <= d < MonthStart leap (m + 1)
  /\ MonthStart leap (m + 1 - 1) = MonthStart leap m
  /\ MonthStart leap (m + 1) - MonthStart leap m <= 31.
Proof.
  intros Hleap Hd. unfold MonthFromDayWithinYear.
  repeat match goal with
         | |- context [?a <? ?b] => destruct (Z.ltb_spec a b)
         end;
    cbv zeta; cbn [MonthStart Z.add Z.sub Z.opp Pos.add Pos.succ Z.pos_sub
                   Pos.pred_double Z.succ_double Z.pred_double Z.double];
    destruct Hleap; subst leap; cbn; lia.
Qed.

Lemma read_digits_units (ds : list digit) (rest : jsstring) :
  read_digits (length ds) (digit_units ds ++ rest) = Some (ds, rest).
Proof.
  induction ds as [|d ds IH]; [reflexivity|].
  cbn [length digit_units map app read_digits].
  rewrite digit_of_unit_unit. cbn [obind].
  unfold digit_units in IH. rewrite IH. reflexivity.
Qed.

Lemma read_field_field (w : nat) (n : Z) (rest : jsstring) :
  0 <= n < 10 ^ Z.of_nat w ->
  read_field w (field w n ++ rest) = Some (n, rest).
Proof.
  intros Hn. unfold read_field, field.
  rewrite <- (fixed_digits_length w (Z.to_N n)) at 1.
  rewrite read_digits_units. cbn [obind].
  rewrite digits_N_fixed, N.mod_small.
  - rewrite Z2N.id by lia. reflexivity.
  - apply N2Z.inj_lt. rewrite Z2N.id, N2Z.inj_pow, nat_N_Z by lia.
    cbn. lia.
Qed.

Lemma field_head (w : nat) (n : Z) :
  exists d t, field (S w) n = digit_unit d :: t.
Proof.
  unfold field. revert n. induction w as [|w IH]; intros n.
  - eexists _, _. reflexivity.
  - destruct (IH (Z.of_N (Z.to_N n / 10))) as (d & t & E).
    rewrite N2Z.id in E. cbn [fixed_digits] in E |- *.
    unfold digit_units in *. rewrite map_app. rewrite E.
    eexists _, _. reflexivity.
Qed.

Lemma read_year_year (y : Z) (rest : jsstring) :
  -1000000 < y < 1000000 ->
  read_year ((if (0 <=? y) && (y <=? 9999) then field 4 y
              else (if y <? 0 then MINUS else PLUS) :: field 6 (Z.abs y))
             ++ rest)
  = Some (y, rest).
Proof.
  intros Hy.
  destruct (Z.leb_spec 0 y); cbn [andb]; [destruct (Z.leb_spec y 9999)|].
  - destruct (field_head 3 y) as (d & t & E).
    pose proof (@read_field_field 4 y rest ltac:(cbn; lia)) as Hf.
    rewrite E in Hf |- *. cbn [app] in Hf |- *. unfold read_year.
    destruct d; exact Hf.
  - destruct (Z.ltb_spec y 0); [lia|]. cbn [app read_year].
    change (PLUS =? PLUS)%N with true. cbv iota.
    rewrite Z.abs_eq by lia. apply read_field_field. cbn. lia.
  - destruct (Z.ltb_spec y 0); [|lia]. cbn [app read_year].
    change (MINUS =? PLUS)%N with false. change (MINUS =? MINUS)%N with true.
    cbv iota. rewrite read_field_field by (cbn; lia). cbn [obind].
    destruct (Z.eqb_spec (Z.abs y) 0); [lia|]. do 2 f_equal. lia.
Qed.

Lemma year_range (tv : Z) :
  Z.abs tv <= maxTime ->
  -1000000 < YearFromDay (tv / msPerDay) < 1000000.
Proof.
  intros Ht. unfold maxTime, msPerDay in *.
  assert (-100000000 <= tv / 86400000 <= 100000000)
    by (Z.div_mod_to_equations; lia).
  unfold YearFromDay.
  set (y := 1970 + tv / 86400000 * 400 / 146097).
  assert (-300000 < y < 300000) by (unfold y; Z.div_mod_to_equations; lia).
  destruct (_ <? _); [lia|]. destruct (_ <=? _); lia.
Qed.

Theorem Date_parse_toISOString (tv : Z) :
  Z.abs tv <= maxTime -> Date_parse (toISOString tv) = Some (Some tv).
Proof.
  intros Ht. unfold toISOString, Date_parse.
  set (day := tv / msPerDay). set (t := tv mod msPerDay).
  pose proof (YearFromDay_spec day) as Hy.
  pose proof (@year_range tv Ht) as Hyr. fold day in Hyr.
  set (y := YearFromDay day) in *.
  rewrite DayFromYear_succ, DaysInYear_leap in Hy.
  pose proof (InLeapYear_range y) as Hleap.
  set (leap := InLeapYear y) in *.
  set (d := day - DayFromYear y).
  pose proof (@month_spec leap d Hleap ltac:(unfold d; lia)) as Hm.
  cbv zeta in Hm.
  set (m := MonthFromDayWithinYear leap d) in *.
  destruct Hm as (Hm1 & Hm2 & Hm3 & Hm4).
  assert (Htr : 0 <= t < msPerDay) by (apply Z.mod_pos_bound; reflexivity).
  unfold msPerDay in Htr.
  rewrite read_year_year by assumption. cbn [obind app expect].
  change (MINUS =? MINUS)%N with true. cbv iota. cbn [obind].
  rewrite read_field_field by (cbn; lia). cbn [obind expect].
  change (MINUS =? MINUS)%N with true. cbv iota. cbn [obind].
  rewrite read_field_field by (cbn; lia). cbn [obind expect].
  change (UPPER_T =? UPPER_T)%N with true. cbv iota. cbn [obind].
  rewrite read_field_field by (cbn; Z.div_mod_to_equations; lia).
  cbn [obind expect].
  change (COLON =? COLON)%N with true. cbv iota. cbn [obind].
  rewrite read_field_field by (cbn; Z.div_mod_to_equations; lia).
  cbn [obind expect].
  change (COLON =? COLON)%N with true. cbv iota. cbn [obind].
  rewrite read_field_field by (cbn; Z.div_mod_to_equations; lia).
  cbn [obind expect].
  change (DOT =? DOT)%N with true. cbv iota. cbn [obind].
  rewrite read_field_field by (cbn; Z.div_mod_to_equations; lia).
  cbn [obind expect app].
  change (UPPER_Z =? UPPER_Z)%N with true. cbv iota. cbn [obind].
  fold leap. rewrite Hm3.
  assert (C : (1 <=? m + 1) && (m + 1 <=? 12) && (1 <=? d - MonthStart leap m + 1)
              && (d - MonthStart leap m + 1
                  <=? MonthStart leap (m + 1) - MonthStart leap m)
              && (t / 3600000 <=? 23) && (t / 60000 mod 60 <=? 59)
              && (t / 1000 mod 60 <=? 59) = true).
  { rewrite !andb_true_iff. repeat split; apply Z.leb_le;
      try lia; Z.div_mod_to_equations; lia. }
  rewrite C.
  assert (E : (DayFromYear y + MonthStart leap m + (d - MonthStart leap m + 1) - 1)
              * msPerDay + t / 3600000 * 3600000 + t / 60000 mod 60 * 60000
              + t / 1000 mod 60 * 1000 + t mod 1000 = tv).
  { replace (DayFromYear y + MonthStart leap m + (d - MonthStart leap m + 1) - 1)
      with day by (unfold d; lia).
    pose proof (Z.div_mod tv msPerDay ltac:(discriminate)) as Hdm.
    fold day t in Hdm. unfold msPerDay in *.
    Z.div_mod_to_equations. lia. }
  rewrite E.
  destruct (Z.leb_spec (Z.abs tv) maxTime); [reflexivity|lia].
Qed.

End Dates.

(** ** Flags *)

Lemma parse_flags_string (f : RegExpFlags) :
  unicode f && unicodeSets f = false ->
  parse_flags (flags_string f) no_flags = Some f.
Proof.
  destruct f as [d g i m s u v y].
  destruct d, g, i, m, s, u, v, y; cbn [unicode unicodeSets andb];
    intros H; try discriminate H; reflexivity.
Qed.

(** ** Integers as numbers *)

Lemma strip_leading_zeros_head (ds : list digit) :
  match strip_leading_zeros ds with
  | D0 :: _ => False
  | _ => True
  end.
Proof.
  induction ds as [|d ds IH]; [exact I|]. destruct d; try exact I. exact IH.
Qed.

Lemma strip_leading_zeros_split (ds : list digit) :
  exists j, ds = repeat D0 j ++ strip_leading_zeros ds.
Proof.
  induction ds as [|d ds [j IH]]; [exists 0%nat; reflexivity|].
  destruct d; try (exists 0%nat; reflexivity).
  exists (S j). cbn [strip_leading_zeros repeat app]. f_equal. exact IH.
Qed.

Lemma strip_trailing_zeros_split (ds : list digit) :
  exists j, ds = strip_trailing_zeros ds ++ repeat D0 j.
Proof.
  unfold strip_trailing_zeros.
  destruct (strip_leading_zeros_split (rev ds)) as [j E].
  exists j. rewrite <- (rev_involutive ds) at 1. rewrite E at 1.
  rewrite rev_app_distr, rev_repeat. reflexivity.
Qed.

Lemma strip_trailing_zeros_last (ds : list digit) :
  last_digit_nonzero (strip_trailing_zeros ds) = true.
Proof.
  unfold last_digit_nonzero, strip_trailing_zeros. rewrite rev_involutive.
  pose proof (strip_leading_zeros_head (rev ds)) as H.
  destruct (strip_leading_zeros (rev ds)) as [|d l]; [reflexivity|].
  destruct d; try reflexivity. contradiction.
Qed.

Lemma strip_trailing_zeros_cons (d : digit) (ds : list digit) :
  d <> D0 -> exists l, strip_trailing_zeros (d :: ds) = d :: l.
Proof.
  intros Hd. unfold strip_trailing_zeros. cbn [rev].
  assert (H : exists l, strip_leading_zeros (rev ds ++ [d]) = l ++ [d]).
  { induction (rev ds) as [|x xs [l IH]].
    - exists []. destruct d; try reflexivity. contradiction.
    - destruct x; try (eexists (_ :: _); reflexivity).
      exists l. exact IH. }
  destruct H as [l ->]. rewrite rev_app_distr. eexists. reflexivity.
Qed.

Lemma drop_zeros_head (ds : list digit) (n : Z) :
  match fst (drop_zeros ds n) with
  | D0 :: _ => False
  | _ => True
  end.
Proof.
  revert n; induction ds as [|d ds IH]; intros n; [exact I|].
  destruct d; try exact I. apply IH.
Qed.

Lemma normalize_json_number (ds : list digit) (n : Z) :
  json_number (normalize false ds n) = true.
Proof.
  unfold normalize. pose proof (drop_zeros_head ds n) as Hh.
  destruct (drop_zeros ds n) as [ds' n']. cbn [fst] in Hh.
  destruct ds' as [|d tl]; [reflexivity|].
  assert (Hd : d <> D0) by (intros ->; contradiction).
  destruct (strip_trailing_zeros_cons tl Hd) as [l E].
  pose proof (strip_trailing_zeros_last (d :: tl)) as Hl.
  rewrite E in *. unfold json_number. cbn [is_finite canonical andb].
  rewrite andb_true_r. unfold canonical_digits.
  destruct d; try exact Hl. contradiction.
Qed.

Lemma number_of_nat_json (n : nat) : json_number (number_of_nat n) = true.
Proof. apply normalize_json_number. Qed.

Lemma digits_N_zeros (ds : list digit) (j : nat) :
  digits_N (ds ++ repeat D0 j) = (digits_N ds * 10 ^ N.of_nat j)%N.
Proof.
  induction j as [|j IH].
  - cbn [repeat]. rewrite app_nil_r. cbn. lia.
  - replace (repeat D0 (S j)) with (repeat D0 j ++ [D0])
      by (rewrite <- repeat_cons; reflexivity).
    rewrite app_assoc, digits_N_app. cbn [fold_left digit_value].
    rewrite IH, Nat2N.inj_succ, N.pow_succ_r'. lia.
Qed.

Lemma number_of_Z_spec (z : Z) :
  json_number (number_of_Z z) = true
  /\ number_trunc (number_of_Z z) = Some z.
Proof.
  unfold number_of_Z.
  destruct (Z.eq_dec z 0) as [->|Hz]; [split; reflexivity|].
  destruct (@N_digits_head (Z.abs_N z) ltac:(lia)) as (d & tl & E & Hd).
  pose proof (digits_N_digits (Z.abs_N z)) as Hval.
  rewrite E in *.
  destruct (strip_trailing_zeros_cons tl Hd) as [l Es].
  destruct (strip_trailing_zeros_split (d :: tl)) as [j Ej].
  pose proof (strip_trailing_zeros_last (d :: tl)) as Hl.
  assert (Hn : normalize (z <? 0)%Z (d :: tl) (Z.of_nat (length (d :: tl)))
               = Finite (z <? 0)%Z (d :: l) (Z.of_nat (length (d :: tl)))).
  { unfold normalize.
    assert (Ed : drop_zeros (d :: tl) (Z.of_nat (length (d :: tl)))
                 = (d :: tl, Z.of_nat (length (d :: tl))))
      by (destruct d; try reflexivity; contradiction).
    rewrite Ed, Es. reflexivity. }
  rewrite Hn. rewrite Es in *. split.
  - unfold json_number. cbn [is_finite canonical andb]. rewrite andb_true_r.
    unfold canonical_digits. destruct d; try exact Hl. contradiction.
  - unfold number_trunc.
    assert (Hlen : length (d :: tl) = (length (d :: l) + j)%nat).
    { rewrite Ej at 1. rewrite length_app, repeat_length. reflexivity. }
    rewrite Hlen.
    destruct (Z.leb_spec (Z.of_nat (length (d :: l) + j)) 0);
      [cbn [length] in *; lia|].
    destruct (Z.ltb_spec (Z.of_nat (length (d :: l) + j))
                (Z.of_nat (length (d :: l)))); [lia|].
    replace (Z.to_N (Z.of_nat (length (d :: l) + j) - Z.of_nat (length (d :: l))))
      with (N.of_nat j) by lia.
    rewrite <- digits_N_zeros, <- Ej, Hval.
    destruct (Z.ltb_spec z 0); f_equal; lia.
Qed.

Lemma to_long_long_of_Z (z : Z) :
  (- 2 ^ 63 <= z < 2 ^ 63)%Z -> to_long_long (number_of_Z z) = z.
Proof.
  intros Hz. unfold to_long_long.
  rewrite (proj2 (number_of_Z_spec z)).
  destruct (Z.leb_spec (2 ^ 63) (z mod 2 ^ 64));
    Z.div_mod_to_equations; lia.
Qed.

(** ** Envelopes *)

Lemma extract_plain (tag : string) (data : Value) :
  (tag = "string" \/ tag = "number" \/ tag = "boolean" \/ tag = "object" \/ tag = "array")%string ->
  extractValue (envelope tag data None) = Return data.
Proof. intros [->|[->|[->|[->| ->]]]]; reflexivity. Qed.

Lemma extract_arraybuffer (data : Value) m :
  extractValue (envelope "arraybuffer" data m) = base64ToArrayBuffer data.
Proof. destruct m; reflexivity. Qed.

Lemma extract_date (data : Value) :
  extractValue (envelope "date" data None) = new_Date data.
Proof. reflexivity. Qed.

Lemma extract_regexp (data : Value) (f : Value) :
  extractValue (envelope "regexp" data (Some [(js "flags", f)]))
  = construct_RegExp data f.
Proof. reflexivity. Qed.

Lemma extract_blob (data t size : Value) :
  extractValue (envelope "blob" data (Some [(js "type", t); (js "size", size)]))
  = base64ToBlob data t.
Proof. reflexivity. Qed.

Lemma extract_file (data n t size lm : Value) :
  extractValue (envelope "file" data
                  (Some [(js "name", n); (js "type", t); (js "size", size);
                         (js "lastModified", lm)]))
  = base64ToFile data n t lm.
Proof. reflexivity. Qed.

Lemma envelope_faithful (tag : string) (data : Value) :
  json_faithful data = true -> json_faithful (envelope tag data None) = true.
Proof. intros H. cbn -[js]. rewrite H. reflexivity. Qed.

(** ** Data URLs *)

Lemma split_on_none (sep : code_unit) (s : jsstring) :
  existsb (N.eqb sep) s = false -> split_on sep s = [s].
Proof.
  induction s as [|c s IH]; [reflexivity|].
  cbn [existsb split_on]. intros H. apply orb_false_iff in H.
  destruct H as [Hc Hs]. rewrite N.eqb_sym, Hc, (IH Hs). reflexivity.
Qed.

Lemma split_on_first (sep : code_unit) (a b : jsstring) :
  existsb (N.eqb sep) a = false ->
  split_on sep (a ++ sep :: b) = a :: split_on sep b.
Proof.
  induction a as [|c a IH]; intros H.
  - cbn [app split_on]. rewrite N.eqb_refl. reflexivity.
  - cbn [existsb] in H. apply orb_false_iff in H. destruct H as [Hc Ha].
    cbn [app split_on]. rewrite N.eqb_sym, Hc, (IH Ha). reflexivity.
Qed.

Lemma b64_char_not_comma (s : N) : (s < 64)%N -> (COMMA =? b64_char s)%N = false.
Proof.
  intros H. unfold b64_char, COMMA.
  destruct (N.ltb_spec s 26), (N.ltb_spec s 52), (N.ltb_spec s 62),
    (N.eqb_spec s 62); apply N.eqb_neq; lia.
Qed.

Lemma b64_encode_no_comma (bytes : list N) :
  Forall is_byte bytes -> existsb (N.eqb COMMA) (b64_encode bytes) = false.
Proof.
  induction bytes as [|a|a b|a b c l IH] using list_ind3; intros Hb;
    repeat match goal with
           | H : Forall is_byte (_ :: _) |- _ => inversion H; subst; clear H
           end; unfold is_byte in *; cbn [b64_encode existsb];
    rewrite ?b64_char_not_comma
      by auto using sextet1, sextet2, sextet2', sextet3, sextet3', sextet4;
    try reflexivity.
  cbn [orb]. apply IH. assumption.
Qed.

Lemma b64_encode_nonempty (bytes : list N) :
  bytes <> [] -> exists c t, b64_encode bytes = c :: t.
Proof.
  destruct bytes as [|a [|b [|c l]]]; [contradiction| | |];
    intros _; eexists _, _; reflexivity.
Qed.

Lemma blobToBase64_eq (bytes : list byte) (type : jsstring) :
  bytes <> [] -> existsb (N.eqb COMMA) type = false ->
  blobToBase64 bytes type = Return (b64_encode (map Byte.to_N bytes)).
Proof.
  intros Hne Hty. unfold blobToBase64, readAsDataURL. rewrite Hty. cbn [bind].
  assert (Hsplit : forall mt,
    existsb (N.eqb COMMA) mt = false ->
    nth_error
      (split_on COMMA
         (js "data:" ++ mt ++ js ";base64," ++ b64_encode (map Byte.to_N bytes)))
      1
    = Some (b64_encode (map Byte.to_N bytes))).
  { intros mt Hmt.
    replace (js "data:" ++ mt ++ js ";base64,"
             ++ b64_encode (map Byte.to_N bytes))
      with ((js "data:" ++ mt ++ js ";base64")
            ++ COMMA :: b64_encode (map Byte.to_N bytes))
      by (rewrite <- !app_assoc; reflexivity).
    rewrite split_on_first by (rewrite !existsb_app, Hmt; reflexivity).
    rewrite split_on_none by (apply b64_encode_no_comma, bytes_are_bytes).
    reflexivity. }
  destruct (@b64_encode_nonempty (map Byte.to_N bytes)) as (c & t & E).
  { destruct bytes; [contradiction|discriminate]. }
  destruct type as [|c0 ty]; rewrite Hsplit by (reflexivity || assumption);
    rewrite E; reflexivity.
Qed.

Lemma base64ToBlob_encode (bytes : list byte) (type : jsstring) :
  base64ToBlob (VString (b64_encode (map Byte.to_N bytes))) (VString type)
  = Return (VBlob bytes (normalize_type type)).
Proof.
  unfold base64ToBlob. cbn [ToString bind].
  rewrite atob_btoa by apply bytes_are_bytes. cbn [bind].
  rewrite binaryStringToBytes_to_N.
  destruct type; reflexivity.
Qed.

Lemma faithful_serializable (v : Value) :
  json_faithful v = true -> isSerializable v = true.
Proof.
  induction v as [ | |b|n|s|z|d|n|items IH|props IH|tv|s f|b t|b n t l|b|k b o l|e|m|c props]
    using Value_ind; intros Hf; try discriminate; try reflexivity.
  - cbn [json_faithful] in Hf. cbn. 
    induction IH as [|x xs Hx Hxs IHxs]; [reflexivity|].
    cbn [forallb] in *. apply andb_true_iff in Hf. destruct Hf as [Fx Fxs].
    rewrite (Hx Fx), (IHxs Fxs). reflexivity.
  - cbn [json_faithful] in Hf. apply andb_true_iff in Hf. destruct Hf as [_ Hf].
    cbn.
    induction IH as [|x xs Hx Hxs IHxs]; [reflexivity|].
    cbn [forallb] in *. apply andb_true_iff in Hf. destruct Hf as [Fx Fxs].
    rewrite (Hx Fx), (IHxs Fxs). reflexivity.
Qed.

Lemma serialize_via_envelope (v env : Value) :
  isSerializable v = true -> createEnvelope v = Return env ->
  json_faithful env = true ->
  serialize v = Return (json_text env) /\ JSON_parse (json_text env) = Some env.
Proof.
  intros Hs Hc Hf. destruct (JSON_parse_stringify _ Hf) as [Hst Hp].
  split; [|exact Hp]. unfold serialize. rewrite Hs, Hc. cbn [negb bind].
  rewrite Hst. reflexivity.
Qed.

Lemma deserialize_of_parse (json : jsstring) (env r : Value) :
  JSON_parse json = Some env -> extractValue env = Return r ->
  deserialize json = Return r.
Proof. intros Hp He. unfold deserialize. rewrite Hp, He. reflexivity. Qed.

Lemma roundtrip_via_envelope (v env : Value) :
  isSerializable v = true -> createEnvelope v = Return env ->
  json_faithful env = true -> extractValue env = Return v ->
  exists json, serialize v = Return json /\ deserialize json = Return v.
Proof.
  intros Hs Hc Hf He.
  destruct (serialize_via_envelope v Hs Hc Hf) as [H1 H2].
  exists (json_text env). split; [exact H1|].
  eapply deserialize_of_parse; eassumption.
Qed.

Lemma envelope_meta_faithful (tag : string) (data : Value)
  (m : list (jsstring * Value)) :
  json_faithful data = true -> json_faithful (VObject m) = true ->
  json_faithful (envelope tag data (Some m)) = true.
Proof.
  intros Hd Hm. unfold envelope. cbn [app].
  change (distinct_keys [(js "__v", VNumber number_one); (js "__t", VString (js tag));
                         (js "data", data); (js "meta", VObject m)]
          && (json_faithful (VNumber number_one)
              && (json_faithful (VString (js tag))
                  && (json_faithful data
                      && (json_faithful (VObject m) && true)))) = true).
  rewrite Hd, Hm. reflexivity.
Qed.


Lemma bind_no_StorageError {A B : Type} (c : completion A)
  (k : A -> completion B) :
  no_StorageError c -> (forall a, no_StorageError (k a)) ->
  no_StorageError (bind c k).
Proof.
  intros Hc Hk e. destruct c as [a|t|]; cbn [bind].
  - apply Hk.
  - intros E. apply (Hc e). unfold throw in *. injection E as ->. reflexivity.
  - discriminate.
Qed.

Lemma Return_no_StorageError {A : Type} (a : A) : no_StorageError (Return a).
Proof. intros e. unfold throw. discriminate. Qed.

Lemma native_no_StorageError {A : Type} (kind : string) :
  no_StorageError (@Throw A (native kind)).
Proof. intros e. unfold throw, native. discriminate. Qed.

Lemma Unmodelled_no_StorageError {A : Type} : no_StorageError (@Unmodelled A).
Proof. intros e. unfold throw. discriminate. Qed.

Lemma SerializeJSONProperty_no_StorageError (v : Value) :
  no_StorageError (SerializeJSONProperty v).
Proof.
  induction v as [ | |b|n|s|z|d|n|items IH|props IH|tv|s f|b t|b n t l|b|k b o l|e|m|c props]
    using Value_ind;
    try (intro; unfold throw; cbn; discriminate).
  - cbn [SerializeJSONProperty]. apply bind_no_StorageError;
      [|intros; apply Return_no_StorageError].
    induction IH as [|x xs Hx Hxs IHxs]; [apply Return_no_StorageError|].
    apply bind_no_StorageError; [exact Hx|]. intros p.
    apply bind_no_StorageError; [exact IHxs|]. intros ps.
    apply Return_no_StorageError.
  - cbn [SerializeJSONProperty]. apply bind_no_StorageError;
      [|intros; apply Return_no_StorageError].
    induction IH as [|[k x] xs Hx Hxs IHxs]; [apply Return_no_StorageError|].
    apply bind_no_StorageError; [exact Hx|]. intros p.
    apply bind_no_StorageError; [exact IHxs|]. intros ps.
    apply Return_no_StorageError.
  - destruct k; intro; unfold throw; cbn; discriminate.
Qed.

Lemma blobToBase64_no_StorageError (bytes : list byte) (type : jsstring) :
  no_StorageError (blobToBase64 bytes type).
Proof.
  unfold blobToBase64. apply bind_no_StorageError.
  - unfold readAsDataURL. destruct (existsb _ _); intros e; unfold throw; discriminate.
  - intros result e. unfold throw. destruct (nth_error _ 1) as [[|c t]|]; discriminate.
Qed.

Lemma arrayBufferToBase64_no_StorageError (buffer : list byte) :
  no_StorageError (arrayBufferToBase64 buffer).
Proof. rewrite arrayBufferToBase64_eq. apply Return_no_StorageError. Qed.

Lemma serializable_createEnvelope (value : Value) :
  isSerializable value = true ->
  no_StorageError (createEnvelope value)
  /\ forall env, createEnvelope value = Return env -> is_envelope env.
Proof.
  intros Hs.
  assert (Henv : forall tag data meta,
            In tag ValueTypes ->
            forall env, Return (envelope tag data meta) = Return env ->
                        is_envelope env).
  { intros tag data meta Hin env [= <-]. exists tag, data, meta. auto. }
  destruct value as [ | |b|n|s|z|d|n|items|props|tv|s f|bs t|bs n t l|bs|k bs o l|e|m|c props];
    try discriminate Hs.
  - split; [apply Return_no_StorageError|]. apply Henv. cbn; tauto.
  - split; [apply Return_no_StorageError|]. apply Henv. cbn; tauto.
  - split; [apply Return_no_StorageError|]. apply Henv. cbn; tauto.
  - split; [apply Return_no_StorageError|]. apply Henv. cbn; tauto.
  - split; [apply Return_no_StorageError|]. apply Henv. cbn; tauto.
  - split; [apply Return_no_StorageError|]. apply Henv. cbn; tauto.
  - split; [apply Return_no_StorageError|]. apply Henv. cbn; tauto.
  - destruct tv as [tv|].
    + split; [apply Return_no_StorageError|]. apply Henv. cbn; tauto.
    + split; [apply native_no_StorageError|]. discriminate.
  - split; [apply Return_no_StorageError|]. apply Henv. cbn; tauto.
  - change (createEnvelope (VBlob bs t)) with (serializeBlob bs t).
    unfold serializeBlob. split.
    + apply bind_no_StorageError; [apply blobToBase64_no_StorageError|].
      intros; apply Return_no_StorageError.
    + destruct (blobToBase64 bs t); try discriminate. apply Henv. cbn; tauto.
  - change (createEnvelope (VFile bs n t l)) with (serializeFile bs n t l).
    unfold serializeFile. split.
    + apply bind_no_StorageError; [apply blobToBase64_no_StorageError|].
      intros; apply Return_no_StorageError.
    + destruct (blobToBase64 bs t); try discriminate. apply Henv. cbn; tauto.
  - change (createEnvelope (VArrayBuffer bs)) with (serializeArrayBuffer bs).
    unfold serializeArrayBuffer. rewrite arrayBufferToBase64_eq. cbn [bind].
    split; [apply Return_no_StorageError|]. apply Henv. cbn; tauto.
  - change (createEnvelope (VView k bs o l)) with (serializeTypedArray bs o l).
    unfold serializeTypedArray, serializeArrayBuffer.
    rewrite arrayBufferToBase64_eq. cbn [bind].
    split; [apply Return_no_StorageError|]. apply Henv. cbn; tauto.
Qed.


Lemma known_tag_false (tag : Value) :
  known_tag tag = false ->
  forall t, In t ValueTypes -> is_string tag (js t) = false.
Proof.
  unfold known_tag. intros H t Hin.
  destruct (is_string tag (js t)) eqn:E; [|reflexivity].
  rewrite <- H. symmetry. apply existsb_exists. exists t. auto.
Qed.


(* ================================================================== *)
(** * Part V. Properties of the codec *)
(* ================================================================== *)

(** ** Round trip *)

(** C1, as amended.  For every value of a supported tag that JSON text
    carries unchanged, deserializing the text produced by serializing it
    yields the value itself: [null], [undefined], booleans, strings, finite
    numbers other than minus zero, arrays and plain objects built from
    these; a valid [Date] (same instant); a [RegExp] (same source and
    flags); a [Blob] or [File] of at least one byte whose type holds no
    comma (same bytes, type, name and time stamp); an [ArrayBuffer] (same
    bytes). *)
Theorem roundtrip_of_faithful_values (v : Value) :
  roundtrips v = true ->
  exists json,
    Serializer.serialize v = Return json
    /\ Serializer.deserialize json = Return v.
Proof.
  intros Hr.
  destruct v as [ | |b|n|s|z|d|n|items|props|tv|s f|bs t|bs n t l|bs
                |k bs o l|e|m|c props];
    try discriminate Hr; cbn [roundtrips] in Hr.
  - (* undefined *)
    apply roundtrip_via_envelope
      with (env := Serializer.envelope "undefined" VNull None); reflexivity.
  - (* null *)
    apply roundtrip_via_envelope
      with (env := Serializer.envelope "null" VNull None); reflexivity.
  - (* boolean *)
    apply roundtrip_via_envelope
      with (env := Serializer.envelope "boolean" (VBoolean b) None);
      reflexivity.
  - (* number *)
    apply roundtrip_via_envelope
      with (env := Serializer.envelope "number" (VNumber n) None);
      try reflexivity.
    apply envelope_faithful; assumption.
  - (* string *)
    apply roundtrip_via_envelope
      with (env := Serializer.envelope "string" (VString s) None);
      reflexivity.
  - (* array *)
    apply roundtrip_via_envelope
      with (env := Serializer.envelope "array" (VArray items) None);
      try reflexivity.
    + apply faithful_serializable; assumption.
    + apply envelope_faithful; assumption.
  - (* object *)
    apply roundtrip_via_envelope
      with (env := Serializer.envelope "object" (VObject props) None);
      try reflexivity.
    + apply faithful_serializable; assumption.
    + apply envelope_faithful; assumption.
  - (* date *)
    destruct tv as [tv|]; [|discriminate]. apply Z.leb_le in Hr.
    apply roundtrip_via_envelope
      with (env := Serializer.envelope "date" (VString (toISOString tv)) None);
      try reflexivity.
    rewrite extract_date. unfold Serializer.new_Date.
    rewrite Date_parse_toISOString by assumption. reflexivity.
  - (* regexp *)
    apply negb_true_iff in Hr.
    apply roundtrip_via_envelope
      with (env := Serializer.envelope "regexp" (VString s)
                     (Some [(js "flags", VString (flags_string f))]));
      try reflexivity.
    rewrite extract_regexp. unfold Serializer.construct_RegExp, new_RegExp.
    rewrite parse_flags_string by assumption. reflexivity.
  - (* blob *)
    unfold blob_faithful in Hr. rewrite !andb_true_iff in Hr.
    destruct Hr as [[Hne Hcomma] Hnorm].
    apply negb_true_iff in Hcomma. apply str_eqb_spec in Hnorm.
    assert (Hbs : bs <> []) by (destruct bs; discriminate).
    apply roundtrip_via_envelope
      with (env := Serializer.envelope "blob"
                     (VString (b64_encode (map Byte.to_N bs)))
                     (Some [(js "type", VString t);
                            (js "size", VNumber (number_of_nat (length bs)))])).
    + reflexivity.
    + cbn [Serializer.createEnvelope typeof].
      change (Serializer.createEnvelope (VBlob bs t))
        with (Serializer.serializeBlob bs t).
      unfold Serializer.serializeBlob.
      rewrite blobToBase64_eq by assumption. reflexivity.
    + apply envelope_meta_faithful; [reflexivity|].
      cbn [json_faithful forallb snd]. rewrite number_of_nat_json. reflexivity.
    + rewrite extract_blob, base64ToBlob_encode, Hnorm. reflexivity.
  - (* file *)
    rewrite !andb_true_iff in Hr. destruct Hr as [[Hb Hname] Hlm].
    unfold blob_faithful in Hb. rewrite !andb_true_iff in Hb.
    destruct Hb as [[Hne Hcomma] Hnorm].
    apply negb_true_iff in Hcomma. apply str_eqb_spec in Hnorm, Hname.
    apply Z.leb_le in Hlm.
    assert (Hbs : bs <> []) by (destruct bs; discriminate).
    apply roundtrip_via_envelope
      with (env := Serializer.envelope "file"
                     (VString (b64_encode (map Byte.to_N bs)))
                     (Some [(js "name", VString n); (js "type", VString t);
                            (js "size", VNumber (number_of_nat (length bs)));
                            (js "lastModified", VNumber (number_of_Z l))])).
    + reflexivity.
    + change (Serializer.createEnvelope (VFile bs n t l))
        with (Serializer.serializeFile bs n t l).
      unfold Serializer.serializeFile.
      rewrite blobToBase64_eq by assumption. reflexivity.
    + apply envelope_meta_faithful; [reflexivity|].
      cbn [json_faithful forallb snd].
      rewrite number_of_nat_json, (proj1 (number_of_Z_spec l)). reflexivity.
    + rewrite extract_file. unfold Serializer.base64ToFile.
      rewrite base64ToBlob_encode. cbn [bind ToString].
      rewrite to_long_long_of_Z by lia. unfold new_File.
      rewrite Hnorm, Hname. reflexivity.
  - (* array buffer *)
    apply roundtrip_via_envelope
      with (env := Serializer.envelope "arraybuffer"
                     (VString (b64_encode (map Byte.to_N bs)))
                     (Some [(js "byteLength",
                             VNumber (number_of_nat (length bs)))])).
    + reflexivity.
    + change (Serializer.createEnvelope (VArrayBuffer bs))
        with (Serializer.serializeArrayBuffer bs).
      unfold Serializer.serializeArrayBuffer.
      rewrite arrayBufferToBase64_eq. reflexivity.
    + apply envelope_meta_faithful; [reflexivity|].
      cbn [json_faithful forallb snd]. rewrite number_of_nat_json. reflexivity.
    + rewrite extract_arraybuffer. apply base64ToArrayBuffer_encode.
Qed.

Lemma roundtrip_of_faithful_values_witness :
  roundtrips sample_record = true
  /\ exists json,
       Serializer.serialize sample_record = Return json
       /\ Serializer.deserialize json = Return sample_record.
Proof.
  split; [vm_compute; reflexivity|].
  apply (roundtrip_of_faithful_values sample_record). vm_compute. reflexivity.
Defined.

(** C1 as stated fails.  An array is of a supported tag and the classifier
    accepts it with a [Date] inside, but the date comes back as the string
    [JSON.stringify] wrote for it; the number [NaN] comes back as [null]. *)
Lemma roundtrip_loses_nested_dates :
  isSerializable (VArray [VDate (Some 0%Z)]) = true
  /\ Serializer.serialize (VArray [VDate (Some 0%Z)])
     = Return (jsq "{'__v':1,'__t':'array','data':['1970-01-01T00:00:00.000Z']}")
  /\ Serializer.deserialize
       (jsq "{'__v':1,'__t':'array','data':['1970-01-01T00:00:00.000Z']}")
     = Return (VArray [VString (js "1970-01-01T00:00:00.000Z")])
  /\ VArray [VString (js "1970-01-01T00:00:00.000Z")]
     <> VArray [VDate (Some 0%Z)]
  /\ Serializer.serialize (VNumber NaN)
     = Return (jsq "{'__v':1,'__t':'number','data':null}")
  /\ Serializer.deserialize (jsq "{'__v':1,'__t':'number','data':null}")
     = Return VNull.
Proof.
  repeat split; try (vm_compute; reflexivity). discriminate.
Qed.

(** ** Binary to text *)

(** C2.  For every byte sequence the base64 text of the buffer is a
    function of its bytes alone (the standard encoding of those bytes), and
    converting that text back yields exactly the original bytes. *)
Theorem base64_roundtrip (buffer : list byte) :
  exists base64,
    Serializer.arrayBufferToBase64 buffer = Return base64
    /\ base64 = b64_encode (map Byte.to_N buffer)
    /\ Serializer.base64ToArrayBuffer (VString base64)
       = Return (VArrayBuffer buffer).
Proof.
  eexists. split; [apply arrayBufferToBase64_eq|]. split; [reflexivity|].
  apply base64ToArrayBuffer_encode.
Qed.

(** The buffer of all byte values, [0x00] first and [0xFF] last. *)
Lemma base64_roundtrip_all_bytes :
  (length all_bytes = 256
   /\ nth_error all_bytes 0 = Some x00 /\ nth_error all_bytes 255 = Some xff)
  /\ exists base64,
       Serializer.arrayBufferToBase64 all_bytes = Return base64
       /\ base64 = b64_encode (map Byte.to_N all_bytes)
       /\ Serializer.base64ToArrayBuffer (VString base64)
          = Return (VArrayBuffer all_bytes).
Proof.
  split; [repeat split; vm_compute; reflexivity|].
  exact (base64_roundtrip all_bytes).
Defined.

(** ** Decoding damaged text *)

(** C3.  A text that does not parse is answered with [null], and a
    [StorageError] raised while the envelope is validated or dispatched
    reaches the caller as it is. *)
Theorem deserialize_null_or_StorageError (json : jsstring) :
  (JSON_parse json = None -> Serializer.deserialize json = Return VNull)
  /\ (forall envelope error,
        JSON_parse json = Some envelope ->
        Serializer.extractValue envelope = throw error ->
        Serializer.deserialize json = throw error).
Proof.
  unfold Serializer.deserialize. split.
  - intros ->. reflexivity.
  - intros envelope error -> ->. reflexivity.
Qed.

Lemma deserialize_null_or_StorageError_witness :
  (JSON_parse (js "not json") = None
   /\ Serializer.deserialize (js "not json") = Return VNull)
  /\ (JSON_parse (js "{malformed") = None
      /\ Serializer.deserialize (js "{malformed") = Return VNull)
  /\ (JSON_parse (jsq "{'__v':2,'__t':'string','data':'test'}")
      = Some (VObject [(js "__v", VNumber (number_of_nat 2));
                       (js "__t", VString (js "string"));
                       (js "data", VString (js "test"))])
      /\ Serializer.deserialize (jsq "{'__v':2,'__t':'string','data':'test'}")
         = throw (new_StorageError CORRUPTION
                    (js "Unsupported envelope format version: 2") None None)).
Proof.
  split; [|split].
  - split; [vm_compute; reflexivity|].
    apply (proj1 (deserialize_null_or_StorageError (js "not json"))).
    vm_compute. reflexivity.
  - split; [vm_compute; reflexivity|].
    apply (proj1 (deserialize_null_or_StorageError (js "{malformed"))).
    vm_compute. reflexivity.
  - split; [vm_compute; reflexivity|].
    refine (proj2 (deserialize_null_or_StorageError
                     (jsq "{'__v':2,'__t':'string','data':'test'}"))
              (VObject [(js "__v", VNumber (number_of_nat 2));
                        (js "__t", VString (js "string"));
                        (js "data", VString (js "test"))])
              (new_StorageError CORRUPTION
                 (js "Unsupported envelope format version: 2") None None)
              _ _); vm_compute; reflexivity.
Defined.

(** C4.  A parsed envelope whose version differs from 1, or whose tag is
    outside the enumeration, is to be answered with a [StorageError] of
    code [CORRUPTION].  The code does throw one, but builds its message
    first, with [String(envelope.__v)] or [String(type)]; when that
    conversion throws, the [TypeError] is caught like a parse failure and
    the answer is [null].  Here the version, then the tag, is an object
    whose own [toString] is not callable: the text parses, the version is
    not 1, and decoding returns [null]; with the empty object in the same
    place, the error is thrown. *)
Theorem unprintable_version_returns_null :
  JSON_parse (jsq "{'__v':{'toString':1}}")
  = Some (VObject [(js "__v", VObject [(js "toString", VNumber number_one)])])
  /\ is_version_1 (VObject [(js "toString", VNumber number_one)]) = false
  /\ Serializer.deserialize (jsq "{'__v':{'toString':1}}") = Return VNull
  /\ Serializer.deserialize (jsq "{'__v':1,'__t':{'toString':1}}")
     = Return VNull
  /\ Serializer.deserialize (jsq "{'__v':{}}")
     = throw (new_StorageError CORRUPTION
                (js "Unsupported envelope format version: [object Object]")
                None None)
  /\ Serializer.deserialize (jsq "{'__v':1,'__t':{}}")
     = throw (new_StorageError CORRUPTION
                (js "Unknown type in envelope: [object Object]") None None).
Proof. repeat split; vm_compute; reflexivity. Qed.

(** ** Encoding *)

(** C5.  A value outside the supported types is to be rejected with a
    [StorageError] of code [INVALID_VALUE] that names its type.  The code
    builds that error from [getTypeName], which for a plain object reads
    [value.constructor?.name]: with an own [constructor] property the name
    is whatever the object holds, and when it is a symbol, or an object
    that cannot be converted, the template literal of the message throws a
    [TypeError] before any [StorageError] exists.  With a string in the
    same place the error is thrown and carries that string. *)
Theorem unprintable_type_name_is_TypeError :
  isSerializable sample_symbol_name = false
  /\ getTypeName sample_symbol_name = Return (VSymbol [])
  /\ Serializer.serialize sample_symbol_name = TypeError
  /\ isSerializable sample_object_name = false
  /\ Serializer.serialize sample_object_name = TypeError
  /\ isSerializable sample_string_name = false
  /\ Serializer.serialize sample_string_name
     = throw (StorageErrors.invalidValue (js "Foo")).
Proof. repeat split; vm_compute; reflexivity. Qed.

(** C6.  For every typed array or [DataView], envelope creation slices the
    view's own byte range out of its buffer, from the byte offset for the
    byte length, and tags it [arraybuffer]; decoding the text gives an
    [ArrayBuffer] of exactly those bytes, with no trace of the view's kind. *)
Theorem typed_array_roundtrip (kind : ViewKind) (buffer : list byte)
  (byteOffset byteLength : nat) :
  let view := VView kind buffer byteOffset byteLength in
  let bytes := firstn byteLength (skipn byteOffset buffer) in
  Serializer.createEnvelope view
  = Return (Serializer.envelope "arraybuffer"
              (VString (b64_encode (map Byte.to_N bytes)))
              (Some [(js "byteLength", VNumber (number_of_nat (length bytes)))]))
  /\ exists json,
       Serializer.serialize view = Return json
       /\ Serializer.deserialize json = Return (VArrayBuffer bytes).
Proof.
  intros view bytes.
  assert (Hc : Serializer.createEnvelope view
    = Return (Serializer.envelope "arraybuffer"
                (VString (b64_encode (map Byte.to_N bytes)))
                (Some [(js "byteLength",
                        VNumber (number_of_nat (length bytes)))]))).
  { change (Serializer.createEnvelope view)
      with (Serializer.serializeTypedArray buffer byteOffset byteLength).
    unfold Serializer.serializeTypedArray, ArrayBuffer_slice.
    replace (byteOffset + byteLength - byteOffset) with byteLength by lia.
    fold bytes. unfold Serializer.serializeArrayBuffer.
    rewrite arrayBufferToBase64_eq. reflexivity. }
  split; [exact Hc|].
  assert (Hf : json_faithful
                 (Serializer.envelope "arraybuffer"
                    (VString (b64_encode (map Byte.to_N bytes)))
                    (Some [(js "byteLength",
                            VNumber (number_of_nat (length bytes)))])) = true).
  { apply envelope_meta_faithful; [reflexivity|].
    cbn [json_faithful forallb snd]. rewrite number_of_nat_json. reflexivity. }
  destruct (@serialize_via_envelope view _ eq_refl Hc Hf) as [Hs Hp].
  eexists. split; [exact Hs|].
  eapply deserialize_of_parse; [exact Hp|].
  rewrite extract_arraybuffer. apply base64ToArrayBuffer_encode.
Qed.

(** A [Float32Array] of one element over the second half of a buffer of
    eight bytes comes back as the four bytes it covers. *)
Lemma typed_array_roundtrip_sample :
  exists json,
    Serializer.serialize sample_view = Return json
    /\ Serializer.deserialize json = Return (VArrayBuffer [x05; x06; x07; x08]).
Proof.
  exact (proj2 (typed_array_roundtrip Float32Array
                  [x01; x02; x03; x04; x05; x06; x07; x08] 4 4)).
Defined.

(** C9.  For every value the classifier accepts, neither envelope creation
    nor encoding fails with a [StorageError], so never with
    [INVALID_VALUE]: the dispatch ends in one of the branches that build an
    envelope, and whatever it returns is a version-1 envelope with one of
    the twelve tags. *)
Theorem serializable_never_invalid (value : Value) :
  isSerializable value = true ->
  (forall e, Serializer.createEnvelope value <> throw e)
  /\ (forall e, Serializer.serialize value <> throw e)
  /\ (forall env, Serializer.createEnvelope value = Return env ->
        is_envelope env).
Proof.
  intros Hs. destruct (serializable_createEnvelope value Hs) as [Hc He].
  split; [exact Hc|]. split; [|exact He].
  unfold Serializer.serialize. rewrite Hs. cbn [negb].
  apply bind_no_StorageError; [exact Hc|]. intros env.
  apply bind_no_StorageError; [apply SerializeJSONProperty_no_StorageError|].
  intros [text|]; intro; unfold throw; discriminate.
Qed.

Lemma serializable_never_invalid_witness :
  isSerializable sample_record = true
  /\ (forall e, Serializer.createEnvelope sample_record <> throw e)
  /\ (forall e, Serializer.serialize sample_record <> throw e)
  /\ (forall env, Serializer.createEnvelope sample_record = Return env ->
        is_envelope env).
Proof.
  split; [vm_compute; reflexivity|].
  apply (serializable_never_invalid sample_record). vm_compute. reflexivity.
Defined.

(** C10.  When the text parses to a number, a string or a boolean, decoding
    throws a [StorageError] with code [CORRUPTION]: the version read from the
    primitive is [undefined].  Decoding the text [null] returns [null]: the
    property read on [null] is a [TypeError], which the catch clause
    answers with [null]. *)
Theorem deserialize_non_envelope :
  (forall json p, JSON_parse json = Some p -> is_primitive p = true ->
     Serializer.deserialize json
     = throw (new_StorageError CORRUPTION
                (js "Unsupported envelope format version: undefined")
                None None))
  /\ Serializer.deserialize (js "null") = Return VNull.
Proof.
  split; [|vm_compute; reflexivity].
  intros json p Hp Hprim. unfold Serializer.deserialize. rewrite Hp.
  destruct p; try discriminate; reflexivity.
Qed.

Lemma deserialize_non_envelope_witness :
  Serializer.deserialize (js "42")
  = throw (new_StorageError CORRUPTION
             (js "Unsupported envelope format version: undefined") None None)
  /\ Serializer.deserialize (jsq "'text'")
     = throw (new_StorageError CORRUPTION
                (js "Unsupported envelope format version: undefined")
                None None)
  /\ Serializer.deserialize (js "true")
     = throw (new_StorageError CORRUPTION
                (js "Unsupported envelope format version: undefined")
                None None).
Proof.
  split; [|split].
  - refine (proj1 deserialize_non_envelope (js "42")
              (VNumber (number_of_nat 42)) _ _); vm_compute; reflexivity.
  - refine (proj1 deserialize_non_envelope (jsq "'text'")
              (VString (js "text")) _ _); vm_compute; reflexivity.
  - refine (proj1 deserialize_non_envelope (js "true")
              (VBoolean true) _ _); vm_compute; reflexivity.
Defined.

(** ** Keys *)

(** C7.  [validateKey] returns exactly when the key is a string of at least
    1 and at most 1000 code units.  Otherwise it throws a [StorageError] of
    code [INVALID_VALUE]: for a key that is not a string the message states
    its [typeof]; for the empty string it says the key cannot be empty; for
    a longer string it says the key is too long, with its length. *)
Theorem validateKey_spec (key : Value) :
  (validateKey key = Return tt <->
   exists s, key = VString s /\ 1 <= length s <= 1000)
  /\ ((forall s, key <> VString s) ->
      validateKey key
      = throw (StorageErrors.invalidKey
                 (js "Key must be a string, got " ++ typeof key)))
  /\ (key = VString [] ->
      validateKey key
      = throw (StorageErrors.invalidKey (js "Key cannot be empty")))
  /\ (forall s, key = VString s -> 1000 < length s ->
      validateKey key
      = throw (StorageErrors.invalidKey
                 (js "Key too long ("
                  ++ Number_toString (number_of_nat (length s))
                  ++ js " characters). Maximum is 1000 characters")))
  /\ (forall reason,
      code (StorageErrors.invalidKey reason) = INVALID_VALUE
      /\ message (StorageErrors.invalidKey reason)
         = js "Invalid key: " ++ reason).
Proof.
  repeat split.
  - destruct key; try discriminate. unfold validateKey.
    destruct (Nat.eqb (length s) 0) eqn:E0; [discriminate|].
    destruct (Nat.ltb 1000 (length s)) eqn:E1; [discriminate|].
    intros _. exists s. apply Nat.eqb_neq in E0. apply Nat.ltb_ge in E1.
    split; [reflexivity|lia].
  - intros (s & -> & Hlo & Hhi). unfold validateKey.
    destruct (Nat.eqb_spec (length s) 0); [lia|].
    destruct (Nat.ltb_spec 1000 (length s)); [lia|reflexivity].
  - intros H. destruct key; try reflexivity. exfalso; eapply H; reflexivity.
  - intros ->. reflexivity.
  - intros s -> H. unfold validateKey.
    destruct (Nat.eqb_spec (length s) 0); [lia|].
    destruct (Nat.ltb_spec 1000 (length s)); [reflexivity|lia].
Qed.

(** The boundary: 1000 code units pass, 1001 do not; a number is not a
    string. *)
Lemma validateKey_boundary :
  validateKey (VString (repeat 120%N 1000)) = Return tt
  /\ validateKey (VString (repeat 120%N 1001))
     = throw (StorageErrors.invalidKey
                (js "Key too long (1001 characters). Maximum is 1000 characters"))
  /\ validateKey (VString [])
     = throw (StorageErrors.invalidKey (js "Key cannot be empty"))
  /\ validateKey (VNumber (number_of_nat 123))
     = throw (StorageErrors.invalidKey (js "Key must be a string, got number")).
Proof.
  split; [|split; [|split]].
  - apply (proj1 (validateKey_spec (VString (repeat 120%N 1000)))).
    exists (repeat 120%N 1000). split; [reflexivity|].
    rewrite repeat_length. lia.
  - refine (eq_trans
              (proj1 (proj2 (proj2 (proj2
                 (validateKey_spec (VString (repeat 120%N 1001))))))
                 (repeat 120%N 1001) eq_refl _) _).
    + rewrite repeat_length. lia.
    + vm_compute. reflexivity.
  - apply (proj1 (proj2 (proj2 (validateKey_spec (VString []))))).
    reflexivity.
  - refine (proj1 (proj2 (validateKey_spec (VNumber (number_of_nat 123)))) _).
    intros s. discriminate.
Defined.

(** ** Native failures *)

(** C8.  [fromNativeError] returns a [StorageError] for every error: code
    [QUOTA_EXCEEDED] for the name [QuotaExceededError], [TIMEOUT] for
    [TimeoutError], [VERSION_MISMATCH] for [VersionError], and
    [OPERATION_FAILED] for every other name, then with the error's message
    inside its own; the error itself is kept as [originalError] and the
    context as given. *)
Theorem fromNativeError_total (error : Error.t)
  (ctx : option (list (jsstring * Value))) :
  let e := StorageError.fromNativeError error ctx in
  originalError e = Some error
  /\ context e = ctx
  /\ (Error.name error = js "QuotaExceededError" -> code e = QUOTA_EXCEEDED)
  /\ (Error.name error = js "TimeoutError" -> code e = TIMEOUT)
  /\ (Error.name error = js "VersionError" -> code e = VERSION_MISMATCH)
  /\ (Error.name error <> js "QuotaExceededError" ->
      Error.name error <> js "TimeoutError" ->
      Error.name error <> js "VersionError" ->
      code e = OPERATION_FAILED
      /\ message e = js "Storage operation failed: " ++ Error.message error).
Proof.
  unfold StorageError.fromNativeError.
  destruct (str_eqb (Error.name error) (js "QuotaExceededError")) eqn:Q;
  [apply str_eqb_spec in Q|];
  [|destruct (str_eqb (Error.name error) (js "TimeoutError")) eqn:T;
    [apply str_eqb_spec in T|];
    [|destruct (str_eqb (Error.name error) (js "VersionError")) eqn:V;
      [apply str_eqb_spec in V|]]].
  - cbn -[js]. repeat split; try congruence; rewrite Q; discriminate.
  - cbn -[js]. repeat split; try congruence; rewrite T; discriminate.
  - cbn -[js]. repeat split; try congruence; rewrite V; discriminate.
  - assert (Q' : Error.name error <> js "QuotaExceededError")
      by (intros H; apply str_eqb_spec in H; congruence).
    assert (T' : Error.name error <> js "TimeoutError")
      by (intros H; apply str_eqb_spec in H; congruence).
    assert (V' : Error.name error <> js "VersionError")
      by (intros H; apply str_eqb_spec in H; congruence).
    destruct (_ || _); cbn -[js]; repeat split; intros; try contradiction;
      reflexivity.
Qed.

(** An unrecognised name: [OPERATION_FAILED], the message kept. *)
Lemma fromNativeError_total_sample :
  code (StorageError.fromNativeError sample_error None) = OPERATION_FAILED
  /\ message (StorageError.fromNativeError sample_error None)
     = js "Storage operation failed: boom".
Proof.
  refine (proj2 (proj2 (proj2 (proj2 (proj2
            (fromNativeError_total sample_error None))))) _ _ _);
    vm_compute; discriminate.
Defined.

(** ** Accepted values that do not encode *)

(** An empty [Blob] or [File] passes the classifier, yet encoding it rejects
    with a plain [Error]: the data URL holds nothing after its comma, and
    the guard of [blobToBase64] takes the empty string for a failure. *)
Theorem serialize_empty_blob (type : jsstring) :
  existsb (N.eqb COMMA) type = false ->
  isSerializable (VBlob [] type) = true
  /\ Serializer.serialize (VBlob [] type)
     = Throw (ThrownError
                (new_Error (js "Failed to convert Blob to base64")))
  /\ forall name lastModified,
       isSerializable (VFile [] name type lastModified) = true
       /\ Serializer.serialize (VFile [] name type lastModified)
          = Throw (ThrownError
                     (new_Error (js "Failed to convert Blob to base64"))).
Proof.
  intros Hty.
  assert (Hb : Serializer.blobToBase64 [] type
               = Throw (ThrownError
                          (new_Error (js "Failed to convert Blob to base64")))).
  { unfold Serializer.blobToBase64, readAsDataURL. rewrite Hty. cbn [bind].
    assert (Hsplit : forall mt,
      existsb (N.eqb COMMA) mt = false ->
      nth_error (split_on COMMA (js "data:" ++ mt ++ js ";base64," ++ [])) 1
      = Some []).
    { intros mt Hmt.
      replace (js "data:" ++ mt ++ js ";base64," ++ [])
        with ((js "data:" ++ mt ++ js ";base64") ++ COMMA :: [])
        by (rewrite <- !app_assoc; reflexivity).
      rewrite split_on_first by (rewrite !existsb_app, Hmt; reflexivity).
      reflexivity. }
    change (b64_encode (map Byte.to_N [])) with (@nil code_unit).
    destruct type as [|c ty]; rewrite Hsplit by (reflexivity || assumption);
      reflexivity. }
  split; [reflexivity|]. split.
  - unfold Serializer.serialize.
    change (isSerializable (VBlob [] type)) with true. cbn [negb].
    change (Serializer.createEnvelope (VBlob [] type))
      with (Serializer.serializeBlob [] type).
    unfold Serializer.serializeBlob. rewrite Hb. reflexivity.
  - intros name lastModified. split; [reflexivity|].
    unfold Serializer.serialize.
    change (isSerializable (VFile [] name type lastModified)) with true.
    cbn [negb].
    change (Serializer.createEnvelope (VFile [] name type lastModified))
      with (Serializer.serializeFile [] name type lastModified).
    unfold Serializer.serializeFile. rewrite Hb. reflexivity.
Qed.

Lemma serialize_empty_blob_witness :
  Serializer.serialize (VBlob [] (js "text/plain"))
  = Throw (ThrownError (new_Error (js "Failed to convert Blob to base64"))).
Proof.
  refine (proj1 (proj2 (@serialize_empty_blob (js "text/plain") _))).
  vm_compute. reflexivity.
Defined.

(** An invalid [Date] passes the classifier too; encoding it ends in the
    [RangeError] of [toISOString]. *)
Theorem serialize_invalid_date :
  isSerializable (VDate None) = true
  /\ Serializer.serialize (VDate None) = RangeError.
Proof. split; reflexivity. Qed.

(** ** The context of a quota error *)

(** [StorageErrors.quotaExceeded] records the attempted size only when it
    is truthy: without a size, and with the sizes [0], [-0] and [NaN], the
    error has no context. *)
Theorem quotaExceeded_context (size : option number) :
  code (StorageErrors.quotaExceeded size) = QUOTA_EXCEEDED
  /\ (context (StorageErrors.quotaExceeded size) = None
      <-> size = None \/ size = Some NaN
          \/ exists negative, size = Some (Zero negative))
  /\ (forall n, size = Some n ->
        context (StorageErrors.quotaExceeded size) <> None ->
        context (StorageErrors.quotaExceeded size)
        = Some [(js "attemptedSize", VNumber n)]).
Proof.
  split; [reflexivity|]. split.
  - split.
    + destruct size as [[ | | | ]|]; cbn; intros H; try discriminate H; eauto.
    + intros [-> | [-> | [negative ->]]]; reflexivity.
  - intros n ->. destruct n; cbn; intros H; congruence.
Qed.

(* ================================================================== *)
(** * Part VI. Further properties *)
(* ================================================================== *)

(** ** The classifier *)

Lemma forallb_flat_map {A B : Type} (f : B -> bool) (g : A -> list B)
  (l : list A) :
  forallb f (flat_map g l) = forallb (fun a => forallb f (g a)) l.
Proof.
  induction l as [|a l IH]; [reflexivity|].
  cbn [flat_map forallb]. rewrite forallb_app, IH. reflexivity.
Qed.

(** [isSerializable] accepts a value exactly when no value in it, at any
    depth of arrays and plain objects, is a bigint, a symbol, a function, a
    [Map], a [Set] or an instance of a class. *)
Theorem isSerializable_parts (v : Value) :
  isSerializable v = forallb (fun w => negb (unsupported w)) (parts v).
Proof.
  induction v as [ | |b|n|s|z|d|n|items IH|props IH|tv|s f|b t|b n t l|b
                 |k b o l|e|m|c props] using Value_ind; try reflexivity.
  - cbn [parts forallb unsupported negb andb]. rewrite forallb_flat_map.
    change (isSerializable (VArray items)) with (forallb isSerializable items).
    induction IH as [|x xs Hx Hxs IHxs]; [reflexivity|].
    cbn [forallb]. rewrite Hx, IHxs. reflexivity.
  - cbn [parts forallb unsupported negb andb]. rewrite forallb_flat_map.
    change (isSerializable (VObject props))
      with (forallb (fun p => isSerializable (snd p)) props).
    induction IH as [|x xs Hx Hxs IHxs]; [reflexivity|].
    cbn [forallb]. rewrite Hx, IHxs. reflexivity.
Qed.

(** ** The copy loops *)

Lemma ToUint8_value (c : code_unit) :
  Byte.to_N (ToUint8 (Some c)) = (c mod 256)%N.
Proof.
  unfold ToUint8. destruct (Byte.of_N (c mod 256)) as [b|] eqn:E.
  - apply Byte.to_of_N. exact E.
  - apply Byte.of_N_None_iff in E.
    pose proof (N.mod_upper_bound c 256 ltac:(discriminate)). lia.
Qed.

(** The loop of [base64ToBlob] and [base64ToArrayBuffer] fills an array as
    long as the binary string, element [i] with code unit [i] reduced
    modulo 256. *)
Theorem binaryStringToBytes_spec (binaryString : jsstring) :
  length (binaryStringToBytes binaryString) = length binaryString
  /\ forall i c,
       nth_error binaryString i = Some c ->
       exists b,
         nth_error (binaryStringToBytes binaryString) i = Some b
         /\ Byte.to_N b = (c mod 256)%N.
Proof.
  rewrite binaryStringToBytes_map. split; [apply length_map|].
  intros i c Hc. exists (ToUint8 (Some c)). split.
  - apply (map_nth_error (fun c => ToUint8 (Some c))). exact Hc.
  - apply ToUint8_value.
Qed.

(** ** The size of the text *)

Lemma b64_char_unit (s : N) : (s < 64)%N -> b64_unit (b64_char s) = true.
Proof.
  intros H. unfold b64_unit. rewrite b64_sextet_char by assumption.
  reflexivity.
Qed.

Lemma b64_encode_units (bytes : list N) :
  Forall is_byte bytes -> forallb b64_unit (b64_encode bytes) = true.
Proof.
  induction bytes as [|a|a b|a b c l IH] using list_ind3; intros Hb;
    byte_bounds; cbn [b64_encode forallb];
    rewrite ?b64_char_unit
      by auto using sextet1, sextet2, sextet2', sextet3, sextet3', sextet4;
    try reflexivity.
  cbn [andb]. apply IH. assumption.
Qed.

Lemma b64_encode_size (bytes : list N) :
  length (b64_encode bytes) = 4 * ((length bytes + 2) / 3).
Proof.
  induction bytes as [|a|a b|a b c l IH] using list_ind3;
    cbn [b64_encode length]; try reflexivity.
  rewrite IH.
  replace (S (S (S (length l))) + 2) with (length l + 2 + 1 * 3) by lia.
  rewrite Nat.div_add by discriminate. lia.
Qed.

(** [arrayBufferToBase64] returns for every buffer; its text has four
    units for every three bytes, the last group padded, and every unit is
    of the base64 alphabet or the padding sign. *)
Theorem arrayBufferToBase64_size (buffer : list byte) :
  exists base64,
    arrayBufferToBase64 buffer = Return base64
    /\ length base64 = 4 * ((length buffer + 2) / 3)
    /\ forallb b64_unit base64 = true.
Proof.
  eexists. split; [apply arrayBufferToBase64_eq|]. split.
  - rewrite b64_encode_size, length_map. reflexivity.
  - apply b64_encode_units, bytes_are_bytes.
Qed.

(** ** Blobs and files through the helpers *)

(** A [Blob] of at least one byte whose type holds no comma goes through
    [blobToBase64] and comes back from [base64ToBlob] with its bytes; the
    type is the one the [Blob] constructor keeps, empty when none is
    given.  [base64ToFile] adds the name, as the [File] constructor keeps
    it, and the time stamp. *)
Theorem blob_base64_roundtrip (bytes : list byte) (type : jsstring) :
  bytes <> [] -> existsb (N.eqb COMMA) type = false ->
  exists base64,
    blobToBase64 bytes type = Return base64
    /\ base64ToBlob (VString base64) (VString type)
       = Return (VBlob bytes (normalize_type type))
    /\ base64ToBlob (VString base64) VUndefined = Return (VBlob bytes [])
    /\ forall name lastModified,
         (- 2 ^ 63 <= lastModified < 2 ^ 63)%Z ->
         base64ToFile (VString base64) (VString name) (VString type)
           (VNumber (number_of_Z lastModified))
         = Return (VFile bytes (toUSVString name) (normalize_type type)
                     lastModified).
Proof.
  intros Hne Hty. exists (b64_encode (map Byte.to_N bytes)).
  split; [apply blobToBase64_eq; assumption|].
  split; [apply base64ToBlob_encode|]. split.
  - unfold base64ToBlob. cbn [ToString bind].
    rewrite atob_btoa by apply bytes_are_bytes. cbn [bind truthy].
    rewrite binaryStringToBytes_to_N. reflexivity.
  - intros name lastModified Hlm. unfold base64ToFile.
    rewrite base64ToBlob_encode. cbn [bind ToString].
    rewrite to_long_long_of_Z by assumption. reflexivity.
Qed.

Lemma blob_base64_roundtrip_witness :
  exists base64,
    blobToBase64 [x68; x69] (js "text/plain") = Return base64
    /\ base64ToBlob (VString base64) (VString (js "text/plain"))
       = Return (VBlob [x68; x69] (js "text/plain")).
Proof.
  destruct (@blob_base64_roundtrip [x68; x69] (js "text/plain"))
    as (base64 & H1 & H2 & _).
  - discriminate.
  - vm_compute. reflexivity.
  - exists base64. split; [exact H1|exact H2].
Defined.

(** ** What decoding does not check *)

(** The sizes an envelope records are never compared with its payload, and
    a missing [meta] is no error: an [arraybuffer] envelope decodes to the
    bytes of its text whatever its [meta], a [blob] envelope whatever its
    [size] and, without [meta], to a [Blob] of empty type. *)
Theorem extractValue_ignores_sizes (bytes : list byte) :
  let data := VString (b64_encode (map Byte.to_N bytes)) in
  (forall meta,
     extractValue (envelope "arraybuffer" data meta)
     = Return (VArrayBuffer bytes))
  /\ (forall type size,
        extractValue (envelope "blob" data
                        (Some [(js "type", VString type); (js "size", size)]))
        = Return (VBlob bytes (normalize_type type)))
  /\ extractValue (envelope "blob" data None) = Return (VBlob bytes []).
Proof.
  intros data. split; [|split].
  - intros meta. rewrite extract_arraybuffer.
    apply base64ToArrayBuffer_encode.
  - intros type size. rewrite extract_blob. apply base64ToBlob_encode.
  - change (extractValue (envelope "blob" data None))
      with (base64ToBlob data VUndefined).
    unfold base64ToBlob, data. cbn [ToString bind].
    rewrite atob_btoa by apply bytes_are_bytes. cbn [bind truthy].
    rewrite binaryStringToBytes_to_N. reflexivity.
Qed.

(** ** The errors of decoding *)

Lemma bind_throw_inv {A B : Type} (c : completion A) (k : A -> completion B)
  (e : StorageError) :
  no_StorageError c -> bind c k = throw e ->
  exists a, c = Return a /\ k a = throw e.
Proof.
  intros Hc H. destruct c as [a|t|]; cbn [bind] in H.
  - exists a. split; [reflexivity|exact H].
  - exfalso. apply (Hc e). unfold throw in *. injection H as ->.
    reflexivity.
  - discriminate H.
Qed.

Lemma Get_no_StorageError (o : Value) (key : jsstring) :
  no_StorageError (Get o key).
Proof.
  intros e. unfold Get, throw, TypeError, native.
  destruct (negb _); [discriminate|]. destruct o; discriminate.
Qed.

Lemma GetOptional_no_StorageError (o : Value) (key : jsstring) :
  no_StorageError (GetOptional o key).
Proof.
  destruct o; try apply Get_no_StorageError; apply Return_no_StorageError.
Qed.

Lemma ToString_no_StorageError (v : Value) : no_StorageError (ToString v).
Proof.
  induction v as [ | |b|n|s|z|d|n|items IH|props IH|tv|s f|b t|b n t l|b
                 |k b o l|e|m|c props] using Value_ind;
    try (intro; unfold throw; cbn; discriminate).
  - cbn [ToString]. apply bind_no_StorageError;
      [|intros; apply Return_no_StorageError].
    induction IH as [|x xs Hx Hxs IHxs]; [apply Return_no_StorageError|].
    apply bind_no_StorageError.
    + destruct x; try exact Hx; apply Return_no_StorageError.
    + intros p. apply bind_no_StorageError; [exact IHxs|]. intros ps.
      apply Return_no_StorageError.
  - cbn [ToString]. intros e. unfold throw, TypeError, native.
    destruct (lookup (js "toString") props) as [[]|];
      try discriminate;
      destruct (lookup (js "valueOf") props) as [[]|]; discriminate.
Qed.

Lemma atob_no_StorageError (s : jsstring) : no_StorageError (atob s).
Proof.
  intros e. unfold atob, throw, InvalidCharacterError, native.
  repeat match goal with
         | |- context [if ?c then _ else _] => destruct c
         | |- context [match sextets ?d with _ => _ end] => destruct (sextets d)
         end; discriminate.
Qed.

Lemma base64ToBlob_no_StorageError (base64 type : Value) :
  no_StorageError (base64ToBlob base64 type).
Proof.
  unfold base64ToBlob.
  apply bind_no_StorageError; [apply ToString_no_StorageError|]. intros s.
  apply bind_no_StorageError; [apply atob_no_StorageError|]. intros b.
  apply bind_no_StorageError.
  - destruct (truthy type);
      [apply ToString_no_StorageError|apply Return_no_StorageError].
  - intros t. apply Return_no_StorageError.
Qed.

Lemma base64ToFile_no_StorageError (base64 name type lastModified : Value) :
  no_StorageError (base64ToFile base64 name type lastModified).
Proof.
  unfold base64ToFile.
  apply bind_no_StorageError; [apply base64ToBlob_no_StorageError|].
  intros blob.
  apply bind_no_StorageError; [apply ToString_no_StorageError|]. intros n.
  apply bind_no_StorageError.
  - destruct type; try apply ToString_no_StorageError;
      apply Return_no_StorageError.
  - intros t e. unfold throw. destruct blob, lastModified; discriminate.
Qed.

Lemma base64ToArrayBuffer_no_StorageError (base64 : Value) :
  no_StorageError (base64ToArrayBuffer base64).
Proof.
  unfold base64ToArrayBuffer.
  apply bind_no_StorageError; [apply ToString_no_StorageError|]. intros s.
  apply bind_no_StorageError; [apply atob_no_StorageError|]. intros b.
  apply Return_no_StorageError.
Qed.

Lemma new_Date_no_StorageError (data : Value) : no_StorageError (new_Date data).
Proof.
  intros e. unfold new_Date, throw.
  destruct data; try discriminate. destruct (Date_parse s); discriminate.
Qed.

Lemma construct_RegExp_no_StorageError (data flags : Value) :
  no_StorageError (construct_RegExp data flags).
Proof.
  intros e. unfold construct_RegExp, new_RegExp, throw, SyntaxError, native.
  destruct data, flags; try discriminate;
    destruct (parse_flags _ _); discriminate.
Qed.

Lemma extractValue_throws (envelope : Value) (e : StorageError) :
  extractValue envelope = throw e ->
  exists s,
    e = new_StorageError CORRUPTION
          (js "Unsupported envelope format version: " ++ s) None None
    \/ e = new_StorageError CORRUPTION
             (js "Unknown type in envelope: " ++ s) None None.
Proof.
  unfold extractValue. intros H.
  apply bind_throw_inv in H; [|apply Get_no_StorageError].
  destruct H as (version & _ & H).
  destruct (negb _).
  - apply bind_throw_inv in H; [|apply ToString_no_StorageError].
    destruct H as (s & _ & H). exists s. left.
    unfold throw in H. injection H as <-. reflexivity.
  - apply bind_throw_inv in H; [|apply Get_no_StorageError].
    destruct H as (type & _ & H).
    apply bind_throw_inv in H; [|apply Get_no_StorageError].
    destruct H as (data & _ & H).
    apply bind_throw_inv in H; [|apply Get_no_StorageError].
    destruct H as (meta & _ & H).
    repeat match type of H with
           | (if ?c then _ else _) = _ => destruct c
           end;
      try (unfold throw in H; discriminate H).
    + exfalso. exact (new_Date_no_StorageError data H).
    + apply bind_throw_inv in H; [|apply GetOptional_no_StorageError].
      destruct H as (flags & _ & H).
      exfalso. exact (construct_RegExp_no_StorageError data flags H).
    + apply bind_throw_inv in H; [|apply GetOptional_no_StorageError].
      destruct H as (t & _ & H).
      exfalso. exact (base64ToBlob_no_StorageError data t H).
    + apply bind_throw_inv in H; [|apply GetOptional_no_StorageError].
      destruct H as (n & _ & H).
      apply bind_throw_inv in H; [|apply GetOptional_no_StorageError].
      destruct H as (t & _ & H).
      apply bind_throw_inv in H; [|apply GetOptional_no_StorageError].
      destruct H as (l & _ & H).
      exfalso. exact (base64ToFile_no_StorageError data n t l H).
    + exfalso. exact (base64ToArrayBuffer_no_StorageError data H).
    + apply bind_throw_inv in H; [|apply ToString_no_StorageError].
      destruct H as (s & _ & H). exists s. right.
      unfold throw in H. injection H as <-. reflexivity.
Qed.

(** Whatever the text, [deserialize] ends in one of three ways.  It throws
    nothing but a [StorageError] of code [CORRUPTION], without context or
    original error, whose message reports the version or the tag of the
    envelope, and that only when [extractValue] threw it.  Every other
    exception of the way is answered with [null]: the [SyntaxError] of
    [JSON.parse], and any exception of [extractValue] or of the
    constructors and decoders it calls that is not a [StorageError].
    Otherwise it returns what [extractValue] returns. *)
Theorem deserialize_throws_only_corruption (json : jsstring) :
  (forall e,
     deserialize json = Throw e ->
     exists envelope s,
       JSON_parse json = Some envelope
       /\ extractValue envelope = Throw e
       /\ (e = ThrownStorageError
                 (new_StorageError CORRUPTION
                    (js "Unsupported envelope format version: " ++ s)
                    None None)
           \/ e = ThrownStorageError
                    (new_StorageError CORRUPTION
                       (js "Unknown type in envelope: " ++ s) None None)))
  /\ (JSON_parse json = None -> deserialize json = Return VNull)
  /\ (forall envelope error,
        JSON_parse json = Some envelope ->
        extractValue envelope = Throw (ThrownError error) ->
        deserialize json = Return VNull)
  /\ (forall envelope r,
        JSON_parse json = Some envelope ->
        extractValue envelope = Return r ->
        deserialize json = Return r).
Proof.
  unfold deserialize. split; [|split; [|split]].
  - intros e H.
    destruct (JSON_parse json) as [envelope|]; [|discriminate H].
    destruct (extractValue envelope) as [r|[se|err]|] eqn:E;
      try discriminate H.
    injection H as <-.
    destruct (extractValue_throws envelope E) as (s & Hs).
    exists envelope, s. split; [reflexivity|]. split; [exact E|].
    destruct Hs as [-> | ->]; [left|right]; reflexivity.
  - intros ->. reflexivity.
  - intros envelope error -> ->. reflexivity.
  - intros envelope r -> ->. reflexivity.
Qed.

Lemma deserialize_throws_only_corruption_witness :
  (exists envelope s,
     JSON_parse (jsq "{'__v':1,'__t':'map','data':[]}") = Some envelope
     /\ extractValue envelope
        = throw (new_StorageError CORRUPTION
                   (js "Unknown type in envelope: map") None None)
     /\ (ThrownStorageError
           (new_StorageError CORRUPTION
              (js "Unknown type in envelope: map") None None)
         = ThrownStorageError
             (new_StorageError CORRUPTION
                (js "Unsupported envelope format version: " ++ s) None None)
         \/ ThrownStorageError
              (new_StorageError CORRUPTION
                 (js "Unknown type in envelope: map") None None)
            = ThrownStorageError
                (new_StorageError CORRUPTION
                   (js "Unknown type in envelope: " ++ s) None None)))
  /\ deserialize (js "{oops") = Return VNull
  /\ deserialize (jsq "{'__v':1,'__t':'arraybuffer','data':'%%%'}")
     = Return VNull.
Proof.
  split; [|split].
  - apply (proj1 (@deserialize_throws_only_corruption
                    (jsq "{'__v':1,'__t':'map','data':[]}"))).
    vm_compute. reflexivity.
  - apply (proj1 (proj2 (@deserialize_throws_only_corruption
                           (js "{oops")))).
    vm_compute. reflexivity.
  - refine (proj1 (proj2 (proj2
              (@deserialize_throws_only_corruption
                 (jsq "{'__v':1,'__t':'arraybuffer','data':'%%%'}"))))
              (VObject [(js "__v", VNumber number_one);
                        (js "__t", VString (js "arraybuffer"));
                        (js "data", VString (js "%%%"))])
              {| Error.name := js "InvalidCharacterError";
                 Error.message := [] |} _ _);
      vm_compute; reflexivity.
Defined.

(** ** Parsed values *)

Lemma set_prop_is_json (key : jsstring) (v : Value)
  (acc : list (jsstring * Value)) :
  is_json v = true ->
  forallb (fun p => is_json (snd p)) acc = true ->
  forallb (fun p => is_json (snd p)) (set_prop key v acc) = true.
Proof.
  intros Hv. induction acc as [|[k w] acc IH]; intros Ha.
  - cbn. rewrite Hv. reflexivity.
  - cbn [forallb snd] in Ha. apply andb_true_iff in Ha.
    destruct Ha as [Hw Ha]. cbn [set_prop]. destruct (str_eqb k key).
    + cbn [forallb snd]. rewrite Hv, Ha. reflexivity.
    + cbn [forallb snd]. rewrite Hw, (IH Ha). reflexivity.
Qed.

Lemma parse_is_json (fuel : nat) :
  (forall s v rest, parse_value fuel s = Some (v, rest) -> is_json v = true)
  /\ (forall s vs rest,
        parse_elements fuel s = Some (vs, rest) -> forallb is_json vs = true)
  /\ (forall s acc ps rest,
        forallb (fun p => is_json (snd p)) acc = true ->
        parse_members fuel s acc = Some (ps, rest) ->
        forallb (fun p => is_json (snd p)) ps = true).
Proof.
  induction fuel as [|fuel (IHv & IHe & IHm)];
    [repeat split; intros; discriminate|].
  split; [|split].
  - intros s v rest H. cbn [parse_value] in H.
    destruct (skip_ws s) as [|c t]; [discriminate|].
    destruct (c =? QUOTE)%N.
    { obind_inv H. injection H as <- _. reflexivity. }
    destruct (c =? LBRACKET)%N.
    { destruct (skip_ws t) as [|c1 t1]; [discriminate|].
      destruct (c1 =? RBRACKET)%N; [injection H as <- _; reflexivity|].
      obind_inv H. injection H as <- _. cbn [is_json]. eapply IHe. eassumption. }
    destruct (c =? LBRACE)%N.
    { destruct (skip_ws t) as [|c1 t1]; [discriminate|].
      destruct (c1 =? RBRACE)%N; [injection H as <- _; reflexivity|].
      obind_inv H. injection H as <- _. cbn [is_json].
      eapply IHm; [|eassumption]. reflexivity. }
    destruct (c =? 110)%N; [obind_inv H; injection H as <- _; reflexivity|].
    destruct (c =? 116)%N; [obind_inv H; injection H as <- _; reflexivity|].
    destruct (c =? 102)%N; [obind_inv H; injection H as <- _; reflexivity|].
    obind_inv H. injection H as <- _. reflexivity.
  - intros s vs rest H. cbn [parse_elements] in H. obind_inv H.
    destruct (skip_ws _) as [|c t]; [discriminate|].
    destruct (c =? COMMA)%N.
    { obind_inv H. injection H as <- _. cbn [forallb].
      erewrite IHv by eassumption. eapply IHe. eassumption. }
    destruct (c =? RBRACKET)%N; [|discriminate].
    injection H as <- _. cbn [forallb]. erewrite IHv by eassumption.
    reflexivity.
  - intros s acc ps rest Ha H. cbn [parse_members] in H.
    destruct (skip_ws s) as [|c t]; [discriminate|].
    destruct (c =? QUOTE)%N; [|discriminate].
    obind_inv H.
    destruct (skip_ws _) as [|c1 t1] in H; [discriminate|].
    match type of H with
    | context [set_prop ?key ?x acc] =>
        assert (Hacc : forallb (fun p => is_json (snd p)) (set_prop key x acc)
                       = true)
          by (apply set_prop_is_json; [eapply IHv; eassumption|assumption])
    end.
    destruct (c1 =? COMMA)%N; [eapply IHm; eassumption|].
    destruct (c1 =? RBRACE)%N; [|discriminate].
    injection H as <- _. exact Hacc.
Qed.

Lemma JSON_parse_is_json (text : jsstring) (v : Value) :
  JSON_parse text = Some v -> is_json v = true.
Proof.
  unfold JSON_parse. intros H. obind_inv H.
  destruct (skip_ws _); [|discriminate]. injection H as <-.
  eapply (proj1 (parse_is_json _)). eassumption.
Qed.

(** Reading a property the codec reads off a parsed value other than
    [null] returns; [meta?.key] returns on every parsed value. *)
Lemma Get_json (o : Value) (key : jsstring) :
  is_json o = true -> In key codec_keys -> o <> VNull ->
  exists r, Get o key = Return r /\ (r = VUndefined \/ is_json r = true).
Proof.
  intros Ho Hk Hn. unfold Get.
  assert (E : existsb (str_eqb key) codec_keys = true).
  { apply existsb_exists. exists key. split; [exact Hk|apply str_eqb_refl]. }
  rewrite E. cbn [negb].
  destruct o; try discriminate Ho; try contradiction;
    try (eexists; split; [reflexivity|left; reflexivity]).
  cbn [is_json] in Ho.
  destruct (lookup key props) as [r|] eqn:L;
    eexists; (split; [reflexivity|]); [right|left; reflexivity].
  clear - Ho L. induction props as [|[k w] ps IH]; [discriminate|].
  cbn [forallb snd] in Ho. apply andb_true_iff in Ho. destruct Ho as [Hw Hps].
  cbn [lookup] in L. destruct (str_eqb k key).
  - injection L as <-. exact Hw.
  - apply IH; assumption.
Qed.

Lemma GetOptional_json (o : Value) (key : jsstring) :
  o = VUndefined \/ is_json o = true -> In key codec_keys ->
  exists r, GetOptional o key = Return r.
Proof.
  intros [->|Ho] Hk; [eexists; reflexivity|].
  destruct o; try discriminate Ho; cbn [GetOptional];
    try (eexists; reflexivity);
    (edestruct Get_json as (r & -> & _);
     [eassumption|eassumption|discriminate|eexists; reflexivity]).
Qed.

Lemma lookup_is_json (key : jsstring) (props : list (jsstring * Value))
  (r : Value) :
  forallb (fun p => is_json (snd p)) props = true ->
  lookup key props = Some r -> is_json r = true.
Proof.
  induction props as [|[k w] ps IH]; [discriminate|]. intros Ho L.
  cbn [forallb snd] in Ho. apply andb_true_iff in Ho. destruct Ho as [Hw Hps].
  cbn [lookup] in L. destruct (str_eqb k key).
  - injection L as <-. exact Hw.
  - apply IH; assumption.
Qed.

(** A binary envelope whose text is not base64 is answered with [null]:
    the exception of [atob] is caught like a parse failure.  The envelope
    is any parsed object of version 1 with the tag [blob], [file] or
    [arraybuffer]. *)
Theorem damaged_payload_is_null (json : jsstring)
  (props : list (jsstring * Value)) (version : Value) (tag data : jsstring) :
  JSON_parse json = Some (VObject props) ->
  lookup (js "__v") props = Some version -> is_version_1 version = true ->
  lookup (js "__t") props = Some (VString tag) ->
  In tag [js "blob"; js "file"; js "arraybuffer"] ->
  lookup (js "data") props = Some (VString data) ->
  atob data = InvalidCharacterError ->
  deserialize json = Return VNull.
Proof.
  intros Hp Hv H1 Ht Htag Hd Ha.
  pose proof (JSON_parse_is_json _ Hp) as Hj. cbn [is_json] in Hj.
  assert (Hm : exists meta,
            Get (VObject props) (js "meta") = Return meta
            /\ (meta = VUndefined \/ is_json meta = true)).
  { apply Get_json; [exact Hj|cbn; tauto|discriminate]. }
  destruct Hm as (meta & Hm & Hmj).
  assert (Hopt : forall key, In key codec_keys ->
            exists r, GetOptional meta key = Return r)
    by (intros key Hk; apply GetOptional_json; assumption).
  destruct (Hopt (js "type")) as (t & Et); [cbn; tauto|].
  destruct (Hopt (js "name")) as (n & En); [cbn; tauto|].
  destruct (Hopt (js "lastModified")) as (l & El); [cbn; tauto|].
  assert (Hblob : forall t', base64ToBlob (VString data) t'
                             = InvalidCharacterError).
  { intros t'. unfold base64ToBlob. cbn [ToString bind]. rewrite Ha.
    reflexivity. }
  unfold deserialize. rewrite Hp. unfold extractValue.
  change (Get (VObject props) (js "__v"))
    with (Return (A:=Value) match lookup (js "__v") props with
                 | Some v => v | None => VUndefined end).
  change (Get (VObject props) (js "__t"))
    with (Return (A:=Value) match lookup (js "__t") props with
                 | Some v => v | None => VUndefined end).
  change (Get (VObject props) (js "data"))
    with (Return (A:=Value) match lookup (js "data") props with
                 | Some v => v | None => VUndefined end).
  rewrite Hv, Ht, Hd, Hm. cbn [bind]. fold (is_version_1 version).
  rewrite H1. cbn [negb]. rewrite En, Et, El. cbn [bind].
  unfold base64ToFile, base64ToArrayBuffer. rewrite !Hblob.
  cbn [ToString bind]. rewrite Ha.
  destruct Htag as [<-|[<-|[<-|[]]]]; reflexivity.
Qed.

Lemma damaged_payload_is_null_witness :
  deserialize (jsq "{'__v':1,'__t':'arraybuffer','data':'a!b','meta':{'byteLength':2}}")
  = Return VNull.
Proof.
  refine (@damaged_payload_is_null
            (jsq "{'__v':1,'__t':'arraybuffer','data':'a!b','meta':{'byteLength':2}}")
            [(js "__v", VNumber number_one);
             (js "__t", VString (js "arraybuffer"));
             (js "data", VString (js "a!b"));
             (js "meta", VObject [(js "byteLength",
                                   VNumber (number_of_nat 2))])]
            (VNumber number_one) (js "arraybuffer") (js "a!b")
            _ _ _ _ _ _ _);
    try (vm_compute; reflexivity).
  right. right. left. reflexivity.
Defined.

(** ** Lossy round trips *)

Lemma json_image_number_faithful (n : number) :
  canonical n = true -> json_faithful (json_image_number n) = true.
Proof.
  intros Hc. unfold json_image_number.
  destruct n as [| |neg|neg ds e]; try reflexivity.
  cbn [is_finite json_faithful]. unfold json_number.
  cbn [is_finite andb]. rewrite Hc. reflexivity.
Qed.

Lemma json_image_number_text (n : number) :
  json_text (json_image_number n)
  = if is_finite n then Number_toString n else js "null".
Proof. destruct n; reflexivity. Qed.

Lemma has_key_image (k : jsstring) (props : list (jsstring * Value)) :
  has_key k props = false ->
  has_key k (flat_map (fun p => match json_image (snd p) with
                                | Some y => [(fst p, y)]
                                | None => []
                                end) props) = false.
Proof.
  unfold has_key. induction props as [|[k' x] ps IH]; [reflexivity|].
  cbn [lookup flat_map fst snd]. destruct (str_eqb k' k) eqn:E;
    [discriminate|]. intros H.
  destruct (json_image x); cbn [app lookup]; rewrite ?E; apply IH; exact H.
Qed.

Lemma distinct_keys_image (props : list (jsstring * Value)) :
  distinct_keys props = true ->
  distinct_keys (flat_map (fun p => match json_image (snd p) with
                                    | Some y => [(fst p, y)]
                                    | None => []
                                    end) props) = true.
Proof.
  induction props as [|[k x] ps IH]; [reflexivity|].
  cbn [distinct_keys flat_map fst snd]. intros H.
  apply andb_true_iff in H. destruct H as [Hk Hps].
  apply negb_true_iff in Hk.
  destruct (json_image x); cbn [app distinct_keys]; [|apply IH; exact Hps].
  rewrite (has_key_image _ _ Hk), (IH Hps). reflexivity.
Qed.

Lemma json_image_faithful (v : Value) :
  isSerializable v = true -> json_ready v = true ->
  forall w, json_image v = Some w -> json_faithful w = true.
Proof.
  induction v as [ | |b|n|s|z|d|n|items IH|props IH|tv|s f|b t|b n t l|b
                 |k b o l|e|m|c props] using Value_ind;
    intros Hs Hr w Hw; try discriminate Hs; try discriminate Hw;
    try (injection Hw as <-; reflexivity).
  - injection Hw as <-. apply json_image_number_faithful. exact Hr.
  - injection Hw as <-. cbn [json_faithful].
    change (isSerializable (VArray items))
      with (forallb isSerializable items) in Hs.
    cbn [json_ready] in Hr.
    induction IH as [|x xs Hx Hxs IHxs]; [reflexivity|].
    cbn [forallb] in Hs, Hr. apply andb_true_iff in Hs, Hr.
    destruct Hs as [Sx Sxs], Hr as [Rx Rxs].
    cbn [map forallb]. rewrite (IHxs Sxs Rxs).
    destruct (json_image x) as [y|] eqn:E; [|reflexivity].
    rewrite (Hx Sx Rx y eq_refl). reflexivity.
  - injection Hw as <-. cbn [json_faithful].
    change (isSerializable (VObject props))
      with (forallb (fun p => isSerializable (snd p)) props) in Hs.
    cbn [json_ready] in Hr. apply andb_true_iff in Hr.
    destruct Hr as [Hk Hr]. rewrite (distinct_keys_image _ Hk). cbn [andb].
    clear Hk. induction IH as [|[k x] xs Hx Hxs IHxs]; [reflexivity|].
    cbn [forallb snd] in Hs, Hr, Hx. apply andb_true_iff in Hs, Hr.
    destruct Hs as [Sx Sxs], Hr as [Rx Rxs].
    cbn [flat_map fst snd]. rewrite forallb_app, (IHxs Sxs Rxs).
    destruct (json_image x) as [y|] eqn:E; [|reflexivity].
    cbn [forallb snd]. rewrite (Hx Sx Rx y eq_refl). reflexivity.
  - injection Hw as <-. destruct tv; reflexivity.
  - destruct k; try discriminate Hw; injection Hw as <-; reflexivity.
Qed.

Lemma stringify_image (v : Value) :
  isSerializable v = true -> json_ready v = true ->
  SerializeJSONProperty v = Return (option_map json_text (json_image v)).
Proof.
  induction v as [ | |b|n|s|z|d|n|items IH|props IH|tv|s f|b t|b n t l|b
                 |k b o l|e|m|c props] using Value_ind;
    intros Hs Hr; try discriminate Hs; try reflexivity.
  - cbn [SerializeJSONProperty json_image option_map].
    rewrite json_image_number_text. reflexivity.
  - change (isSerializable (VArray items))
      with (forallb isSerializable items) in Hs.
    cbn [json_ready] in Hr.
    cbn [SerializeJSONProperty json_image option_map json_text].
    match goal with
    | |- bind (?each items) _ = _ =>
        assert (E : each items
                    = Return (map json_text
                                (map (fun x => match json_image x with
                                               | Some y => y
                                               | None => VNull
                                               end) items)))
    end.
    { induction IH as [|x xs Hx Hxs IHxs]; [reflexivity|].
      cbn [forallb] in Hs, Hr. apply andb_true_iff in Hs, Hr.
      destruct Hs as [Sx Sxs], Hr as [Rx Rxs].
      rewrite (Hx Sx Rx). cbn [bind]. rewrite (IHxs Sxs Rxs). cbn [bind map].
      destruct (json_image x); reflexivity. }
    rewrite E. reflexivity.
  - change (isSerializable (VObject props))
      with (forallb (fun p => isSerializable (snd p)) props) in Hs.
    cbn [json_ready] in Hr. apply andb_true_iff in Hr. destruct Hr as [_ Hr].
    cbn [SerializeJSONProperty json_image option_map json_text].
    match goal with
    | |- bind (?each props) _ = _ =>
        assert (E : each props
                    = Return (map (member_text json_text)
                                (flat_map
                                   (fun p => match json_image (snd p) with
                                             | Some y => [(fst p, y)]
                                             | None => []
                                             end) props)))
    end.
    { induction IH as [|[k x] xs Hx Hxs IHxs]; [reflexivity|].
      cbn [forallb snd] in Hs, Hr, Hx. apply andb_true_iff in Hs, Hr.
      destruct Hs as [Sx Sxs], Hr as [Rx Rxs].
      rewrite (Hx Sx Rx). cbn [bind]. rewrite (IHxs Sxs Rxs).
      cbn [bind flat_map fst snd]. rewrite map_app.
      destruct (json_image x); reflexivity. }
    rewrite E. reflexivity.
  - destruct tv; reflexivity.
  - destruct k; try discriminate Hr; reflexivity.
Qed.

Lemma stringify_envelope (tag : string) (data w : Value) :
  SerializeJSONProperty data = Return (Some (json_text w)) ->
  JSON_stringify (envelope tag data None)
  = Return (Some (json_text (envelope tag w None))).
Proof.
  intros H. unfold JSON_stringify, envelope.
  cbn [app SerializeJSONProperty]. rewrite H. reflexivity.
Qed.

Lemma kept_createEnvelope (v : Value) :
  kept_as_data v = true ->
  exists tag,
    createEnvelope v = Return (envelope tag v None)
    /\ forall w, (v = VNull -> w = VNull) ->
                 extractValue (envelope tag w None) = Return w.
Proof.
  destruct v; try discriminate; intros _.
  - exists "null"%string. split; [reflexivity|]. intros w ->; reflexivity.
  - exists "boolean"%string. split; reflexivity.
  - exists "number"%string. split; reflexivity.
  - exists "string"%string. split; reflexivity.
  - exists "array"%string. split; reflexivity.
  - exists "object"%string. split; reflexivity.
Qed.

Lemma kept_json_image (v : Value) :
  kept_as_data v = true ->
  exists w, json_image v = Some w /\ (v = VNull -> w = VNull)
            /\ kept_as_data w = true.
Proof.
  destruct v; try discriminate; intros _; eexists;
    (split; [reflexivity|]); (split; [try discriminate; reflexivity|]);
    try reflexivity.
  unfold json_image_number. destruct (is_finite n); [|reflexivity].
  destruct n; reflexivity.
Qed.

Lemma roundtrip_image (v : Value) :
  isSerializable v = true -> json_ready v = true -> kept_as_data v = true ->
  exists w,
    json_image v = Some w /\ json_faithful w = true /\ kept_as_data w = true
    /\ exists json,
         serialize v = Return json /\ deserialize json = Return w.
Proof.
  intros Hs Hr Hk.
  destruct (kept_json_image v Hk) as (w & Hw & Hnull & Hkw).
  destruct (kept_createEnvelope v Hk) as (tag & Hc & Hex).
  pose proof (json_image_faithful v Hs Hr Hw) as Hf.
  exists w. repeat split; try assumption.
  pose proof (stringify_image v Hs Hr) as Hst. rewrite Hw in Hst.
  cbn [option_map] in Hst.
  pose proof (@stringify_envelope tag v w Hst) as Henv.
  destruct (JSON_parse_stringify _ (envelope_faithful tag w Hf)) as [_ Hp].
  exists (json_text (envelope tag w None)). split.
  - unfold serialize. rewrite Hs, Hc. cbn [negb bind]. rewrite Henv.
    reflexivity.
  - eapply deserialize_of_parse; [exact Hp|]. apply Hex. exact Hnull.
Qed.

Lemma roundtrip_faithful (w : Value) :
  json_faithful w = true -> kept_as_data w = true ->
  exists json, serialize w = Return json /\ deserialize json = Return w.
Proof.
  intros Hf Hk.
  destruct (kept_createEnvelope w Hk) as (tag & Hc & Hex).
  assert (He : json_faithful (envelope tag w None) = true)
    by (apply envelope_faithful; exact Hf).
  destruct (serialize_via_envelope w (faithful_serializable w Hf) Hc)
    as [H1 H2].
  { destruct w; try discriminate Hk; exact He. }
  eexists. split; [exact H1|].
  eapply deserialize_of_parse; [exact H2|]. apply Hex. intros E. exact E.
Qed.

(** For a string, number, boolean, [null], array or plain object that the
    classifier accepts, decoding the encoded text returns the JSON image of
    the value: inside an array or object a [Date] comes back as its ISO
    string, [NaN] and the infinities as [null], minus zero as zero, any
    other built-in object as the empty object, an [undefined] element as
    [null], and an [undefined] property not at all. *)
Theorem roundtrip_json_image (v : Value) :
  isSerializable v = true -> json_ready v = true -> kept_as_data v = true ->
  exists w json,
    json_image v = Some w
    /\ serialize v = Return json /\ deserialize json = Return w.
Proof.
  intros Hs Hr Hk.
  destruct (roundtrip_image v Hs Hr Hk) as (w & Hw & _ & _ & json & H1 & H2).
  exists w, json. repeat split; assumption.
Qed.

Lemma roundtrip_json_image_witness :
  exists json,
    serialize sample_lossy = Return json
    /\ deserialize json
       = Return (VArray [VString (js "1970-01-01T00:00:00.000Z"); VNull;
                         VNull; VNumber (Zero false);
                         VObject [(js "b", VObject []);
                                  (js "c", VObject [])]]).
Proof.
  destruct (roundtrip_json_image sample_lossy) as (w & json & Hw & H1 & H2);
    [vm_compute; reflexivity..|].
  vm_compute in Hw. injection Hw as <-.
  exists json. split; [exact H1|exact H2].
Defined.

(** What one round trip returns, the next returns unchanged: the value
    decoded from the text of a string, number, boolean, [null], array or
    plain object encodes and decodes to itself. *)
Theorem roundtrip_settles (v w : Value) (json : jsstring) :
  isSerializable v = true -> json_ready v = true -> kept_as_data v = true ->
  serialize v = Return json -> deserialize json = Return w ->
  exists json',
    serialize w = Return json' /\ deserialize json' = Return w.
Proof.
  intros Hs Hr Hk Hser Hdes.
  destruct (roundtrip_image v Hs Hr Hk)
    as (w' & _ & Hf & Hkw & json0 & H1 & H2).
  rewrite H1 in Hser. injection Hser as <-.
  rewrite H2 in Hdes. injection Hdes as <-.
  apply roundtrip_faithful; assumption.
Qed.

Lemma roundtrip_settles_witness :
  exists json',
    serialize (VArray [VString (js "1970-01-01T00:00:00.000Z"); VNull])
    = Return json'
    /\ deserialize json'
       = Return (VArray [VString (js "1970-01-01T00:00:00.000Z"); VNull]).
Proof.
  apply (@roundtrip_settles
           (VArray [VDate (Some 0%Z); VUndefined])
           (VArray [VString (js "1970-01-01T00:00:00.000Z"); VNull])
           (jsq "{'__v':1,'__t':'array','data':['1970-01-01T00:00:00.000Z',null]}"));
    vm_compute; reflexivity.
Defined.

(** ** Decoding what was encoded *)

Lemma data_url_split (mediaType payload : jsstring) :
  existsb (N.eqb COMMA) mediaType = false ->
  split_on COMMA (js "data:" ++ mediaType ++ js ";base64," ++ payload)
  = (js "data:" ++ mediaType ++ js ";base64") :: split_on COMMA payload.
Proof.
  intros Hm.
  replace (js "data:" ++ mediaType ++ js ";base64," ++ payload)
    with ((js "data:" ++ mediaType ++ js ";base64") ++ COMMA :: payload)
    by (rewrite <- !app_assoc; reflexivity).
  rewrite split_on_first; [reflexivity|].
  rewrite !existsb_app. apply orb_false_iff. split; [reflexivity|].
  apply orb_false_iff. split; [exact Hm|reflexivity].
Qed.

Lemma blobToBase64_returns (bytes : list byte) (type base64 : jsstring) :
  blobToBase64 bytes type = Return base64 ->
  bytes <> [] /\ existsb (N.eqb COMMA) type = false.
Proof.
  unfold blobToBase64, readAsDataURL.
  destruct (existsb (N.eqb COMMA) type) eqn:Hty; [discriminate|].
  cbn [bind]. intros H. split; [|reflexivity]. intros ->.
  change (b64_encode (map Byte.to_N [])) with (@nil code_unit) in H.
  rewrite data_url_split in H by (destruct type; [reflexivity|exact Hty]).
  discriminate H.
Qed.

(** The text that [serialize] returns for a value is decoded by
    [deserialize] to a value: it is never reported as corrupted and no
    exception of the way back escapes. *)
Theorem deserialize_serialize_returns (v : Value) (json : jsstring) :
  isSerializable v = true -> json_ready v = true ->
  serialize v = Return json ->
  exists r, deserialize json = Return r.
Proof.
  intros Hs Hr Hser.
  destruct (kept_as_data v) eqn:Hk.
  { destruct (roundtrip_image v Hs Hr Hk)
      as (w & _ & _ & _ & json0 & H1 & H2).
    decoded H1 H2. }
  destruct v as [ | |b|n|s|z|d|n|items|props|tv|s f|bs t|bs n t l|bs
                |k bs o l|e|m|c props];
    try discriminate Hs; try discriminate Hk.
  - (* undefined *)
    destruct (@roundtrip_via_envelope VUndefined
                (envelope "undefined" VNull None))
      as (json0 & H1 & H2); try reflexivity.
    decoded H1 H2.
  - (* date *)
    destruct tv as [tv|]; [|discriminate Hser].
    cbn [json_ready] in Hr. apply Z.leb_le in Hr.
    destruct (@roundtrip_via_envelope (VDate (Some tv))
                (envelope "date" (VString (toISOString tv)) None))
      as (json0 & H1 & H2); try reflexivity.
    { rewrite extract_date. unfold new_Date.
      rewrite Date_parse_toISOString by assumption. reflexivity. }
    decoded H1 H2.
  - (* regexp *)
    destruct (@serialize_via_envelope (VRegExp s f)
                (envelope "regexp" (VString s)
                   (Some [(js "flags", VString (flags_string f))])))
      as [H1 H2]; try reflexivity.
    same_text H1.
    unfold deserialize. rewrite H2, extract_regexp.
    unfold construct_RegExp, new_RegExp.
    destruct (parse_flags (flags_string f) no_flags); eexists; reflexivity.
  - (* blob *)
    assert (Hb : exists base64, blobToBase64 bs t = Return base64).
    { unfold serialize in Hser. rewrite Hs in Hser. cbn [negb] in Hser.
      change (createEnvelope (VBlob bs t)) with (serializeBlob bs t) in Hser.
      unfold serializeBlob in Hser.
      destruct (blobToBase64 bs t); try discriminate Hser.
      eexists; reflexivity. }
    destruct Hb as (base64 & Hb).
    destruct (blobToBase64_returns _ _ Hb) as [Hne Hty].
    destruct (@serialize_via_envelope (VBlob bs t)
                (envelope "blob" (VString (b64_encode (map Byte.to_N bs)))
                   (Some [(js "type", VString t);
                          (js "size", VNumber (number_of_nat (length bs)))])))
      as [H1 H2]; try reflexivity.
    { change (createEnvelope (VBlob bs t)) with (serializeBlob bs t).
      unfold serializeBlob. rewrite blobToBase64_eq by assumption.
      reflexivity. }
    { apply envelope_meta_faithful; [reflexivity|].
      cbn [json_faithful forallb snd]. rewrite number_of_nat_json.
      reflexivity. }
    same_text H1.
    eexists. eapply deserialize_of_parse; [exact H2|].
    rewrite extract_blob. apply base64ToBlob_encode.
  - (* file *)
    assert (Hb : exists base64, blobToBase64 bs t = Return base64).
    { unfold serialize in Hser. rewrite Hs in Hser. cbn [negb] in Hser.
      change (createEnvelope (VFile bs n t l))
        with (serializeFile bs n t l) in Hser.
      unfold serializeFile in Hser.
      destruct (blobToBase64 bs t); try discriminate Hser.
      eexists; reflexivity. }
    destruct Hb as (base64 & Hb).
    destruct (blobToBase64_returns _ _ Hb) as [Hne Hty].
    destruct (@serialize_via_envelope (VFile bs n t l)
                (envelope "file" (VString (b64_encode (map Byte.to_N bs)))
                   (Some [(js "name", VString n); (js "type", VString t);
                          (js "size", VNumber (number_of_nat (length bs)));
                          (js "lastModified", VNumber (number_of_Z l))])))
      as [H1 H2]; try reflexivity.
    { change (createEnvelope (VFile bs n t l)) with (serializeFile bs n t l).
      unfold serializeFile. rewrite blobToBase64_eq by assumption.
      reflexivity. }
    { apply envelope_meta_faithful; [reflexivity|].
      cbn [json_faithful forallb snd].
      rewrite number_of_nat_json, (proj1 (number_of_Z_spec l)).
      reflexivity. }
    same_text H1.
    eexists. eapply deserialize_of_parse; [exact H2|].
    rewrite extract_file. unfold base64ToFile.
    rewrite base64ToBlob_encode. reflexivity.
  - (* array buffer *)
    destruct (@serialize_via_envelope (VArrayBuffer bs)
                (envelope "arraybuffer"
                   (VString (b64_encode (map Byte.to_N bs)))
                   (Some [(js "byteLength",
                           VNumber (number_of_nat (length bs)))])))
      as [H1 H2]; try reflexivity.
    { change (createEnvelope (VArrayBuffer bs))
        with (serializeArrayBuffer bs).
      unfold serializeArrayBuffer. rewrite arrayBufferToBase64_eq.
      reflexivity. }
    { apply envelope_meta_faithful; [reflexivity|].
      cbn [json_faithful forallb snd]. rewrite number_of_nat_json.
      reflexivity. }
    same_text H1.
    eexists. eapply deserialize_of_parse; [exact H2|].
    rewrite extract_arraybuffer. apply base64ToArrayBuffer_encode.
  - (* view *)
    set (bytes := ArrayBuffer_slice bs o (o + l)).
    destruct (@serialize_via_envelope (VView k bs o l)
                (envelope "arraybuffer"
                   (VString (b64_encode (map Byte.to_N bytes)))
                   (Some [(js "byteLength",
                           VNumber (number_of_nat (length bytes)))])))
      as [H1 H2]; try reflexivity.
    { change (createEnvelope (VView k bs o l))
        with (serializeTypedArray bs o l).
      unfold serializeTypedArray. fold bytes. unfold serializeArrayBuffer.
      rewrite arrayBufferToBase64_eq. reflexivity. }
    { apply envelope_meta_faithful; [reflexivity|].
      cbn [json_faithful forallb snd]. rewrite number_of_nat_json.
      reflexivity. }
    same_text H1.
    eexists. eapply deserialize_of_parse; [exact H2|].
    rewrite extract_arraybuffer. apply base64ToArrayBuffer_encode.
Qed.

Lemma deserialize_serialize_returns_witness :
  exists r,
    deserialize (jsq "{'__v':1,'__t':'regexp','data':'a+','meta':{'flags':'gi'}}")
    = Return r.
Proof.
  apply (@deserialize_serialize_returns
           (VRegExp (js "a+")
              {| hasIndices := false; global := true; ignoreCase := true;
                 multiline := false; dotAll := false; unicode := false;
                 unicodeSets := false; sticky := false |}));
    vm_compute; reflexivity.
Defined.

(** ** The shape of the text *)

(** Every text that [serialize] returns opens with the version member and
    the tag member, in this order, the tag one of the twelve. *)
Theorem serialize_text_head (v : Value) (json : jsstring) :
  serialize v = Return json ->
  exists tag rest,
    In tag ValueTypes
    /\ json = jsq "{'__v':1,'__t':'" ++ js tag ++ [QUOTE] ++ rest.
Proof.
  unfold serialize. intros H.
  destruct (isSerializable v) eqn:Hs; cbn [negb] in H;
    [|unfold throw_invalidValue in H;
      destruct (getTypeName v) as [t| |]; try discriminate H;
      cbn [bind] in H; destruct (ToString t); discriminate H].
  destruct (createEnvelope v) as [env| |] eqn:Hc; try discriminate H.
  cbn [bind] in H.
  destruct (serializable_createEnvelope v Hs) as [_ He].
  destruct (He env Hc) as (tag & data & meta & -> & Hin).
  unfold JSON_stringify, envelope in H. cbn [app SerializeJSONProperty] in H.
  destruct meta as [m|]; cbn [app SerializeJSONProperty] in H;
    repeat match type of H with
           | context [bind ?c _] =>
               lazymatch c with
               | bind _ _ => fail
               | Return _ => fail
               | _ => destruct c as [?| |]; try discriminate H;
                      cbn [bind] in H
               end
           end;
    match type of H with
    | Return ?t = Return _ => assert (E : json = t) by congruence
    end;
    clear H; subst json; exists tag; cbn in Hin;
    repeat match goal with
           | |- context [match ?o with Some _ => _ | None => _ end] =>
               is_var o; destruct o
           end;
    repeat (destruct Hin as [<-|Hin];
            [eexists; split; [cbn; tauto|cbn; reflexivity]|]);
    contradiction.
Qed.

Lemma serialize_text_head_witness :
  exists tag rest,
    In tag ValueTypes
    /\ jsq "{'__v':1,'__t':'boolean','data':true}"
       = jsq "{'__v':1,'__t':'" ++ js tag ++ [QUOTE] ++ rest.
Proof.
  apply (@serialize_text_head (VBoolean true)). vm_compute. reflexivity.
Defined.

(** ** Texts that are no envelope *)

(** A text that parses to anything but [null] and holds no version, an
    array, a primitive or an object without the member, is reported as
    corrupted; the message gives the version as [undefined]. *)
Theorem deserialize_foreign_json (json : jsstring) (parsed : Value) :
  JSON_parse json = Some parsed ->
  parsed <> VNull ->
  (forall props, parsed = VObject props -> lookup (js "__v") props = None) ->
  deserialize json
  = throw (new_StorageError CORRUPTION
             (js "Unsupported envelope format version: undefined") None None).
Proof.
  intros Hp Hn Hv. pose proof (JSON_parse_is_json _ Hp) as Hj.
  unfold deserialize. rewrite Hp.
  destruct parsed; try discriminate Hj; try contradiction; try reflexivity.
  unfold extractValue.
  change (Get (VObject props) (js "__v"))
    with (Return (A:=Value) match lookup (js "__v") props with
                            | Some v => v
                            | None => VUndefined
                            end).
  rewrite (Hv props eq_refl). reflexivity.
Qed.

Lemma deserialize_foreign_json_witness :
  deserialize (js "[1,2]")
  = throw (new_StorageError CORRUPTION
             (js "Unsupported envelope format version: undefined") None None)
  /\ deserialize (jsq "{'data':'x'}")
     = throw (new_StorageError CORRUPTION
                (js "Unsupported envelope format version: undefined")
                None None).
Proof.
  split.
  - refine (@deserialize_foreign_json (js "[1,2]")
              (VArray [VNumber number_one; VNumber (number_of_nat 2)])
              _ _ _); [vm_compute; reflexivity|discriminate|discriminate].
  - refine (@deserialize_foreign_json (jsq "{'data':'x'}")
              (VObject [(js "data", VString (js "x"))]) _ _ _);
      [vm_compute; reflexivity|discriminate|].
    intros props [= <-]. reflexivity.
Defined.

(** ** Distinct buffers, distinct texts *)

(** Two different buffers never have the same base64 text. *)
Theorem arrayBufferToBase64_injective (a b : list byte) :
  a <> b -> arrayBufferToBase64 a <> arrayBufferToBase64 b.
Proof.
  intros Hab. rewrite !arrayBufferToBase64_eq. intros H. apply Hab.
  assert (E : b64_encode (map Byte.to_N a) = b64_encode (map Byte.to_N b))
    by congruence.
  pose proof (base64ToArrayBuffer_encode a) as Ha. rewrite E in Ha.
  rewrite base64ToArrayBuffer_encode in Ha. congruence.
Qed.

Lemma arrayBufferToBase64_injective_witness :
  arrayBufferToBase64 [x00; xff] <> arrayBufferToBase64 [x00; xfe].
Proof.
  apply (@arrayBufferToBase64_injective [x00; xff] [x00; xfe]).
  discriminate.
Defined.

(** ** The type named in a rejection *)

(** When an array or a plain object is rejected for something inside it,
    the error names the container, [Array] or [Object], not the value that
    is unsupported. *)
Theorem serialize_blames_container (v : Value) :
  isSerializable v = false ->
  (forall items, v = VArray items ->
     serialize v = throw (StorageErrors.invalidValue (js "Array")))
  /\ (forall props, v = VObject props ->
        has_key (js "constructor") props = false ->
        serialize v = throw (StorageErrors.invalidValue (js "Object"))).
Proof.
  intros Hs. split.
  - intros items ->. unfold serialize. rewrite Hs. reflexivity.
  - intros props -> Hc. unfold serialize. rewrite Hs. cbn [negb].
    unfold throw_invalidValue, getTypeName.
    cbn -[js constructor_name_or_Object bind ToString].
    unfold constructor_name_or_Object. unfold has_key in Hc.
    destruct (lookup (js "constructor") props); [discriminate Hc|].
    reflexivity.
Qed.

Lemma serialize_blames_container_witness :
  serialize (VArray [VNumber number_one; VArray [VFunction (js "f")]])
  = throw (StorageErrors.invalidValue (js "Array"))
  /\ serialize (VObject [(js "when", VDate (Some 0%Z));
                         (js "seen", VSet [])])
     = throw (StorageErrors.invalidValue (js "Object")).
Proof.
  split.
  - refine (proj1 (@serialize_blames_container
                     (VArray [VNumber number_one; VArray [VFunction (js "f")]])
                     _) _ eq_refl).
    vm_compute. reflexivity.
  - refine (proj2 (@serialize_blames_container
                     (VObject [(js "when", VDate (Some 0%Z));
                               (js "seen", VSet [])]) _) _ eq_refl _);
      vm_compute; reflexivity.
Defined.




(** ** Versions and tags that are reported *)

(** For a parsed envelope whose version is not 1, decoding throws a
    [StorageError] of code [CORRUPTION] whose message gives the version as
    [String] prints it, whenever that conversion returns; and for a
    version-1 envelope whose tag is outside the enumeration, one whose
    message gives the tag.  The numbers in the version and the tag are
    integers the model reads as the engine does. *)
Theorem corruption_reported (json : jsstring) (envelope version : Value) :
  JSON_parse json = Some envelope ->
  Get envelope (js "__v") = Return version ->
  read_exactly version = true ->
  (is_version_1 version = false ->
   forall s, ToString version = Return s ->
     deserialize json
     = throw (new_StorageError CORRUPTION
                (js "Unsupported envelope format version: " ++ s) None None))
  /\ (is_version_1 version = true ->
      forall tag, Get envelope (js "__t") = Return tag ->
      known_tag tag = false -> read_exactly tag = true ->
      forall s, ToString tag = Return s ->
        deserialize json
        = throw (new_StorageError CORRUPTION
                   (js "Unknown type in envelope: " ++ s) None None)).
Proof.
  intros Hp Hv _. unfold deserialize. rewrite Hp. unfold extractValue.
  rewrite Hv. cbn [bind]. fold (is_version_1 version). split.
  - intros H1 s Hs. rewrite H1. cbn [negb]. rewrite Hs. reflexivity.
  - intros H1 tag Ht Hk _ s Hs. rewrite H1. cbn [negb]. rewrite Ht.
    cbn [bind].
    assert (Hd : exists data meta,
              Get envelope (js "data") = Return data
              /\ Get envelope (js "meta") = Return meta).
    { destruct envelope; try discriminate Hv; eexists _, _; split;
        reflexivity. }
    destruct Hd as (data & meta & -> & ->). cbn [bind].
    pose proof (known_tag_false tag Hk) as Hno.
    rewrite !Hno by (cbn; tauto). cbn [orb]. rewrite Hs. reflexivity.
Qed.

Lemma corruption_reported_witness :
  deserialize (jsq "{'__v':2,'__t':'string','data':'test'}")
  = throw (new_StorageError CORRUPTION
             (js "Unsupported envelope format version: 2") None None)
  /\ deserialize (jsq "{'__v':'1','__t':'string','data':'test'}")
     = throw (new_StorageError CORRUPTION
                (js "Unsupported envelope format version: 1") None None)
  /\ deserialize (jsq "{'__v':1,'__t':'bogus','data':'test'}")
     = throw (new_StorageError CORRUPTION
                (js "Unknown type in envelope: bogus") None None).
Proof.
  split; [|split].
  - refine (proj1 (@corruption_reported
             (jsq "{'__v':2,'__t':'string','data':'test'}")
             (VObject [(js "__v", VNumber (number_of_nat 2));
                       (js "__t", VString (js "string"));
                       (js "data", VString (js "test"))])
             (VNumber (number_of_nat 2)) _ _ _) _ (js "2") _);
      vm_compute; reflexivity.
  - refine (proj1 (@corruption_reported
             (jsq "{'__v':'1','__t':'string','data':'test'}")
             (VObject [(js "__v", VString (js "1"));
                       (js "__t", VString (js "string"));
                       (js "data", VString (js "test"))])
             (VString (js "1")) _ _ _) _ (js "1") _);
      vm_compute; reflexivity.
  - refine (proj2 (@corruption_reported
             (jsq "{'__v':1,'__t':'bogus','data':'test'}")
             (VObject [(js "__v", VNumber number_one);
                       (js "__t", VString (js "bogus"));
                       (js "data", VString (js "test"))])
             (VNumber number_one) _ _ _) _
             (VString (js "bogus")) _ _ _ (js "bogus") _);
      vm_compute; reflexivity.
Defined.
